(** * Ai-Studio: the request-orchestration layer of [services/geminiService.ts]
      and of the storyboard component, as a shallow embedding.

    Conventions of the embedding.
    - A JavaScript string is a [string] holding the UTF-8 bytes of its text;
      [toLowerCase] is the Unicode default case conversion on the code
      points of that text.
    - An [async] function is a function of the outcomes of the calls it
      awaits.  A call that can reject has a [Completion]: [Return v] or
      [Throw e].
    - The order in which concurrently outstanding calls settle is not fixed by
      the program; wherever it matters it is an explicit parameter (a
      scheduler).
    - Observable effects (calls sent to the backend, settlements, delays,
      prompts of the host) are recorded in a trace of events. *)

From Stdlib Require Import List String Ascii Arith NArith Lia Bool Permutation.
From Stdlib Require Import DecimalString DecimalNat.
Import ListNotations.
Open Scope string_scope.

Set Implicit Arguments.
Set Warnings "-register-all".

(* ------------------------------------------------------------------ *)
(** * JavaScript values used by the services *)
(* ------------------------------------------------------------------ *)

Module Js.

(** An [Error]: only its optional [message] is read by the program. *)
Record Error := { message : option string }.

(** Completion of an awaited call. *)
Inductive Completion (A : Type) : Type :=
| Return (a : A)
| Throw (e : Error).
Arguments Return {A} a.
Arguments Throw {A} e.

(** [new Error(msg)] *)
Definition new_Error (msg : string) : Error := {| message := Some msg |}.

(** Truthiness of a [string | null | undefined]: the empty string is falsy. *)
Definition truthy (v : option string) : bool :=
  match v with
  | Some s => negb (s =? "")
  | None => false
  end.

(** [v || d] on strings. *)
Definition or_else (v : option string) (d : string) : string :=
  if truthy v then match v with Some s => s | None => d end else d.

(** A template-literal hole [${v}] for a possibly undefined string. *)
Definition interpolate (v : option string) : string :=
  match v with
  | Some s => s
  | None => "undefined"
  end.

(** [${n}] for a non-negative integer. *)
Definition of_nat (n : nat) : string :=
  NilEmpty.string_of_uint (Nat.to_uint n).

(** [s.startsWith(p)]: the rest of [s] after [p]. *)
Fixpoint strip_prefix (p s : string) : option string :=
  match p with
  | EmptyString => Some s
  | String a p' =>
      match s with
      | EmptyString => None
      | String b s' => if Ascii.eqb a b then strip_prefix p' s' else None
      end
  end.

Definition startsWith (p s : string) : bool :=
  match strip_prefix p s with Some _ => true | None => false end.

(** [s.includes(sub)] *)
Fixpoint includes (sub s : string) : bool :=
  startsWith sub s ||
  match s with
  | EmptyString => false
  | String _ s' => includes sub s'
  end.

(** ** [String.prototype.toLowerCase]

    The Unicode default case conversion, over the text held as its UTF-8
    bytes: every code point is replaced by its lowercase mapping (character
    database 14.0), U+0130 by the two code points of its special mapping,
    and U+03A3 by the final or the medial small sigma according to the
    Final_Sigma condition. *)

(** A code point, or, from [raw] on, a byte that is part of no well-formed
    UTF-8 sequence (no text of the program holds one); such a byte is kept
    as it is. *)
Definition raw : N := 0x110000%N.

Definition continuation (b : N) : bool := ((0x80 <=? b) && (b <=? 0xBF))%N.

(** The code points of a text. *)
Fixpoint code_points (s : string) : list N :=
  match s with
  | EmptyString => []
  | String a1 s1 =>
      let b1 := N_of_ascii a1 in
      if (b1 <? 0x80)%N then b1 :: code_points s1 else
      match s1 with
      | String a2 s2 =>
          let b2 := N_of_ascii a2 in
          if ((0xC2 <=? b1) && (b1 <=? 0xDF))%N && continuation b2
          then ((b1 - 0xC0) * 64 + (b2 - 0x80))%N :: code_points s2 else
          match s2 with
          | String a3 s3 =>
              let b3 := N_of_ascii a3 in
              let c3 := ((b1 - 0xE0) * 4096 + (b2 - 0x80) * 64 + (b3 - 0x80))%N in
              if ((0xE0 <=? b1) && (b1 <=? 0xEF))%N && continuation b2
                 && continuation b3 && (0x800 <=? c3)%N
              then c3 :: code_points s3 else
              match s3 with
              | String a4 s4 =>
                  let b4 := N_of_ascii a4 in
                  let c4 := ((b1 - 0xF0) * 262144 + (b2 - 0x80) * 4096
                             + (b3 - 0x80) * 64 + (b4 - 0x80))%N in
                  if ((0xF0 <=? b1) && (b1 <=? 0xF4))%N && continuation b2
                     && continuation b3 && continuation b4
                     && ((0x10000 <=? c4) && (c4 <? raw))%N
                  then c4 :: code_points s4
                  else (raw + b1)%N :: code_points s1
              | EmptyString => (raw + b1)%N :: code_points s1
              end
          | EmptyString => (raw + b1)%N :: code_points s1
          end
      | EmptyString => [(raw + b1)%N]
      end
  end.

(** The UTF-8 bytes of a code point. *)
Definition utf8 (c : N) : string :=
  let byte n := String (ascii_of_N n) EmptyString in
  if (c <? 0x80)%N then byte c
  else if (c <? 0x800)%N then byte (0xC0 + c / 64)%N ++ byte (0x80 + c mod 64)%N
  else if (c <? 0x10000)%N
  then byte (0xE0 + c / 4096)%N ++ byte (0x80 + (c / 64) mod 64)%N
       ++ byte (0x80 + c mod 64)%N
  else if (c <? raw)%N
  then byte (0xF0 + c / 262144)%N ++ byte (0x80 + (c / 4096) mod 64)%N
       ++ byte (0x80 + (c / 64) mod 64)%N ++ byte (0x80 + c mod 64)%N
  else byte (c - raw)%N.

(** The text of a sequence of code points. *)
Fixpoint text_of (l : list N) : string :=
  match l with
  | [] => EmptyString
  | c :: l' => utf8 c ++ text_of l'
  end.

(** The simple lowercase mappings, as runs [(first, last, step, image of
    first)]: the code points [first], [first + step], ... up to [last] map
    to the code points the same distance after the image of [first]. *)
Definition lower_runs : list (N * N * N * N) :=
  [(0x41, 0x5A, 1, 0x61); (0xC0, 0xD6, 1, 0xE0); (0xD8, 0xDE, 1, 0xF8);
   (0x100, 0x12E, 2, 0x101); (0x132, 0x136, 2, 0x133); (0x139, 0x147, 2, 0x13A);
   (0x14A, 0x176, 2, 0x14B); (0x178, 0x178, 1, 0xFF); (0x179, 0x17D, 2, 0x17A);
   (0x181, 0x181, 1, 0x253); (0x182, 0x184, 2, 0x183); (0x186, 0x186, 1, 0x254);
   (0x187, 0x187, 1, 0x188); (0x189, 0x18A, 1, 0x256); (0x18B, 0x18B, 1, 0x18C);
   (0x18E, 0x18E, 1, 0x1DD); (0x18F, 0x18F, 1, 0x259); (0x190, 0x190, 1, 0x25B);
   (0x191, 0x191, 1, 0x192); (0x193, 0x193, 1, 0x260); (0x194, 0x194, 1, 0x263);
   (0x196, 0x196, 1, 0x269); (0x197, 0x197, 1, 0x268); (0x198, 0x198, 1, 0x199);
   (0x19C, 0x19C, 1, 0x26F); (0x19D, 0x19D, 1, 0x272); (0x19F, 0x19F, 1, 0x275);
   (0x1A0, 0x1A4, 2, 0x1A1); (0x1A6, 0x1A6, 1, 0x280); (0x1A7, 0x1A7, 1, 0x1A8);
   (0x1A9, 0x1A9, 1, 0x283); (0x1AC, 0x1AC, 1, 0x1AD); (0x1AE, 0x1AE, 1, 0x288);
   (0x1AF, 0x1AF, 1, 0x1B0); (0x1B1, 0x1B2, 1, 0x28A); (0x1B3, 0x1B5, 2, 0x1B4);
   (0x1B7, 0x1B7, 1, 0x292); (0x1B8, 0x1B8, 1, 0x1B9); (0x1BC, 0x1BC, 1, 0x1BD);
   (0x1C4, 0x1C4, 1, 0x1C6); (0x1C5, 0x1C5, 1, 0x1C6); (0x1C7, 0x1C7, 1, 0x1C9);
   (0x1C8, 0x1C8, 1, 0x1C9); (0x1CA, 0x1CA, 1, 0x1CC); (0x1CB, 0x1DB, 2, 0x1CC);
   (0x1DE, 0x1EE, 2, 0x1DF); (0x1F1, 0x1F1, 1, 0x1F3); (0x1F2, 0x1F4, 2, 0x1F3);
   (0x1F6, 0x1F6, 1, 0x195); (0x1F7, 0x1F7, 1, 0x1BF); (0x1F8, 0x21E, 2, 0x1F9);
   (0x220, 0x220, 1, 0x19E); (0x222, 0x232, 2, 0x223); (0x23A, 0x23A, 1, 0x2C65);
   (0x23B, 0x23B, 1, 0x23C); (0x23D, 0x23D, 1, 0x19A); (0x23E, 0x23E, 1, 0x2C66);
   (0x241, 0x241, 1, 0x242); (0x243, 0x243, 1, 0x180); (0x244, 0x244, 1, 0x289);
   (0x245, 0x245, 1, 0x28C); (0x246, 0x24E, 2, 0x247); (0x370, 0x372, 2, 0x371);
   (0x376, 0x376, 1, 0x377); (0x37F, 0x37F, 1, 0x3F3); (0x386, 0x386, 1, 0x3AC);
   (0x388, 0x38A, 1, 0x3AD); (0x38C, 0x38C, 1, 0x3CC); (0x38E, 0x38F, 1, 0x3CD);
   (0x391, 0x3A1, 1, 0x3B1); (0x3A3, 0x3AB, 1, 0x3C3); (0x3CF, 0x3CF, 1, 0x3D7);
   (0x3D8, 0x3EE, 2, 0x3D9); (0x3F4, 0x3F4, 1, 0x3B8); (0x3F7, 0x3F7, 1, 0x3F8);
   (0x3F9, 0x3F9, 1, 0x3F2); (0x3FA, 0x3FA, 1, 0x3FB); (0x3FD, 0x3FF, 1, 0x37B);
   (0x400, 0x40F, 1, 0x450); (0x410, 0x42F, 1, 0x430); (0x460, 0x480, 2, 0x461);
   (0x48A, 0x4BE, 2, 0x48B); (0x4C0, 0x4C0, 1, 0x4CF); (0x4C1, 0x4CD, 2, 0x4C2);
   (0x4D0, 0x52E, 2, 0x4D1); (0x531, 0x556, 1, 0x561); (0x10A0, 0x10C5, 1, 0x2D00);
   (0x10C7, 0x10C7, 1, 0x2D27); (0x10CD, 0x10CD, 1, 0x2D2D); (0x13A0, 0x13EF, 1, 0xAB70);
   (0x13F0, 0x13F5, 1, 0x13F8); (0x1C90, 0x1CBA, 1, 0x10D0); (0x1CBD, 0x1CBF, 1, 0x10FD);
   (0x1E00, 0x1E94, 2, 0x1E01); (0x1E9E, 0x1E9E, 1, 0xDF); (0x1EA0, 0x1EFE, 2, 0x1EA1);
   (0x1F08, 0x1F0F, 1, 0x1F00); (0x1F18, 0x1F1D, 1, 0x1F10); (0x1F28, 0x1F2F, 1, 0x1F20);
   (0x1F38, 0x1F3F, 1, 0x1F30); (0x1F48, 0x1F4D, 1, 0x1F40); (0x1F59, 0x1F5F, 2, 0x1F51);
   (0x1F68, 0x1F6F, 1, 0x1F60); (0x1F88, 0x1F8F, 1, 0x1F80); (0x1F98, 0x1F9F, 1, 0x1F90);
   (0x1FA8, 0x1FAF, 1, 0x1FA0); (0x1FB8, 0x1FB9, 1, 0x1FB0); (0x1FBA, 0x1FBB, 1, 0x1F70);
   (0x1FBC, 0x1FBC, 1, 0x1FB3); (0x1FC8, 0x1FCB, 1, 0x1F72); (0x1FCC, 0x1FCC, 1, 0x1FC3);
   (0x1FD8, 0x1FD9, 1, 0x1FD0); (0x1FDA, 0x1FDB, 1, 0x1F76); (0x1FE8, 0x1FE9, 1, 0x1FE0);
   (0x1FEA, 0x1FEB, 1, 0x1F7A); (0x1FEC, 0x1FEC, 1, 0x1FE5); (0x1FF8, 0x1FF9, 1, 0x1F78);
   (0x1FFA, 0x1FFB, 1, 0x1F7C); (0x1FFC, 0x1FFC, 1, 0x1FF3); (0x2126, 0x2126, 1, 0x3C9);
   (0x212A, 0x212A, 1, 0x6B); (0x212B, 0x212B, 1, 0xE5); (0x2132, 0x2132, 1, 0x214E);
   (0x2160, 0x216F, 1, 0x2170); (0x2183, 0x2183, 1, 0x2184); (0x24B6, 0x24CF, 1, 0x24D0);
   (0x2C00, 0x2C2F, 1, 0x2C30); (0x2C60, 0x2C60, 1, 0x2C61); (0x2C62, 0x2C62, 1, 0x26B);
   (0x2C63, 0x2C63, 1, 0x1D7D); (0x2C64, 0x2C64, 1, 0x27D); (0x2C67, 0x2C6B, 2, 0x2C68);
   (0x2C6D, 0x2C6D, 1, 0x251); (0x2C6E, 0x2C6E, 1, 0x271); (0x2C6F, 0x2C6F, 1, 0x250);
   (0x2C70, 0x2C70, 1, 0x252); (0x2C72, 0x2C72, 1, 0x2C73); (0x2C75, 0x2C75, 1, 0x2C76);
   (0x2C7E, 0x2C7F, 1, 0x23F); (0x2C80, 0x2CE2, 2, 0x2C81); (0x2CEB, 0x2CED, 2, 0x2CEC);
   (0x2CF2, 0x2CF2, 1, 0x2CF3); (0xA640, 0xA66C, 2, 0xA641); (0xA680, 0xA69A, 2, 0xA681);
   (0xA722, 0xA72E, 2, 0xA723); (0xA732, 0xA76E, 2, 0xA733); (0xA779, 0xA77B, 2, 0xA77A);
   (0xA77D, 0xA77D, 1, 0x1D79); (0xA77E, 0xA786, 2, 0xA77F); (0xA78B, 0xA78B, 1, 0xA78C);
   (0xA78D, 0xA78D, 1, 0x265); (0xA790, 0xA792, 2, 0xA791); (0xA796, 0xA7A8, 2, 0xA797);
   (0xA7AA, 0xA7AA, 1, 0x266); (0xA7AB, 0xA7AB, 1, 0x25C); (0xA7AC, 0xA7AC, 1, 0x261);
   (0xA7AD, 0xA7AD, 1, 0x26C); (0xA7AE, 0xA7AE, 1, 0x26A); (0xA7B0, 0xA7B0, 1, 0x29E);
   (0xA7B1, 0xA7B1, 1, 0x287); (0xA7B2, 0xA7B2, 1, 0x29D); (0xA7B3, 0xA7B3, 1, 0xAB53);
   (0xA7B4, 0xA7C2, 2, 0xA7B5); (0xA7C4, 0xA7C4, 1, 0xA794); (0xA7C5, 0xA7C5, 1, 0x282);
   (0xA7C6, 0xA7C6, 1, 0x1D8E); (0xA7C7, 0xA7C9, 2, 0xA7C8); (0xA7D0, 0xA7D0, 1, 0xA7D1);
   (0xA7D6, 0xA7D8, 2, 0xA7D7); (0xA7F5, 0xA7F5, 1, 0xA7F6); (0xFF21, 0xFF3A, 1, 0xFF41);
   (0x10400, 0x10427, 1, 0x10428); (0x104B0, 0x104D3, 1, 0x104D8);
   (0x10570, 0x1057A, 1, 0x10597); (0x1057C, 0x1058A, 1, 0x105A3);
   (0x1058C, 0x10592, 1, 0x105B3); (0x10594, 0x10595, 1, 0x105BB);
   (0x10C80, 0x10CB2, 1, 0x10CC0); (0x118A0, 0x118BF, 1, 0x118C0);
   (0x16E40, 0x16E5F, 1, 0x16E60); (0x1E900, 0x1E921, 1, 0x1E922)]%N.
(** The code points with the property Cased, as ranges. *)
Definition cased_ranges : list (N * N) :=
  [(0x41, 0x5A); (0x61, 0x7A); (0xAA, 0xAA); (0xB5, 0xB5); (0xBA, 0xBA); (0xC0, 0xD6);
   (0xD8, 0xF6); (0xF8, 0x1BA); (0x1BC, 0x1BF); (0x1C4, 0x293); (0x295, 0x2B8);
   (0x2C0, 0x2C1); (0x2E0, 0x2E4); (0x345, 0x345); (0x370, 0x373); (0x376, 0x377);
   (0x37A, 0x37D); (0x37F, 0x37F); (0x386, 0x386); (0x388, 0x38A); (0x38C, 0x38C);
   (0x38E, 0x3A1); (0x3A3, 0x3F5); (0x3F7, 0x481); (0x48A, 0x52F); (0x531, 0x556);
   (0x560, 0x588); (0x10A0, 0x10C5); (0x10C7, 0x10C7); (0x10CD, 0x10CD); (0x10D0, 0x10FA);
   (0x10FD, 0x10FF); (0x13A0, 0x13F5); (0x13F8, 0x13FD); (0x1C80, 0x1C88);
   (0x1C90, 0x1CBA); (0x1CBD, 0x1CBF); (0x1D00, 0x1DBF); (0x1E00, 0x1F15);
   (0x1F18, 0x1F1D); (0x1F20, 0x1F45); (0x1F48, 0x1F4D); (0x1F50, 0x1F57);
   (0x1F59, 0x1F59); (0x1F5B, 0x1F5B); (0x1F5D, 0x1F5D); (0x1F5F, 0x1F7D);
   (0x1F80, 0x1FB4); (0x1FB6, 0x1FBC); (0x1FBE, 0x1FBE); (0x1FC2, 0x1FC4);
   (0x1FC6, 0x1FCC); (0x1FD0, 0x1FD3); (0x1FD6, 0x1FDB); (0x1FE0, 0x1FEC);
   (0x1FF2, 0x1FF4); (0x1FF6, 0x1FFC); (0x2071, 0x2071); (0x207F, 0x207F);
   (0x2090, 0x209C); (0x2102, 0x2102); (0x2107, 0x2107); (0x210A, 0x2113);
   (0x2115, 0x2115); (0x2119, 0x211D); (0x2124, 0x2124); (0x2126, 0x2126);
   (0x2128, 0x2128); (0x212A, 0x212D); (0x212F, 0x2134); (0x2139, 0x2139);
   (0x213C, 0x213F); (0x2145, 0x2149); (0x214E, 0x214E); (0x2160, 0x217F);
   (0x2183, 0x2184); (0x24B6, 0x24E9); (0x2C00, 0x2CE4); (0x2CEB, 0x2CEE);
   (0x2CF2, 0x2CF3); (0x2D00, 0x2D25); (0x2D27, 0x2D27); (0x2D2D, 0x2D2D);
   (0xA640, 0xA66D); (0xA680, 0xA69D); (0xA722, 0xA787); (0xA78B, 0xA78E);
   (0xA790, 0xA7CA); (0xA7D0, 0xA7D1); (0xA7D3, 0xA7D3); (0xA7D5, 0xA7D9);
   (0xA7F5, 0xA7F6); (0xA7F8, 0xA7FA); (0xAB30, 0xAB5A); (0xAB5C, 0xAB68);
   (0xAB70, 0xABBF); (0xFB00, 0xFB06); (0xFB13, 0xFB17); (0xFF21, 0xFF3A);
   (0xFF41, 0xFF5A); (0x10400, 0x1044F); (0x104B0, 0x104D3); (0x104D8, 0x104FB);
   (0x10570, 0x1057A); (0x1057C, 0x1058A); (0x1058C, 0x10592); (0x10594, 0x10595);
   (0x10597, 0x105A1); (0x105A3, 0x105B1); (0x105B3, 0x105B9); (0x105BB, 0x105BC);
   (0x10780, 0x10780); (0x10783, 0x10785); (0x10787, 0x107B0); (0x107B2, 0x107BA);
   (0x10C80, 0x10CB2); (0x10CC0, 0x10CF2); (0x118A0, 0x118DF); (0x16E40, 0x16E7F);
   (0x1D400, 0x1D454); (0x1D456, 0x1D49C); (0x1D49E, 0x1D49F); (0x1D4A2, 0x1D4A2);
   (0x1D4A5, 0x1D4A6); (0x1D4A9, 0x1D4AC); (0x1D4AE, 0x1D4B9); (0x1D4BB, 0x1D4BB);
   (0x1D4BD, 0x1D4C3); (0x1D4C5, 0x1D505); (0x1D507, 0x1D50A); (0x1D50D, 0x1D514);
   (0x1D516, 0x1D51C); (0x1D51E, 0x1D539); (0x1D53B, 0x1D53E); (0x1D540, 0x1D544);
   (0x1D546, 0x1D546); (0x1D54A, 0x1D550); (0x1D552, 0x1D6A5); (0x1D6A8, 0x1D6C0);
   (0x1D6C2, 0x1D6DA); (0x1D6DC, 0x1D6FA); (0x1D6FC, 0x1D714); (0x1D716, 0x1D734);
   (0x1D736, 0x1D74E); (0x1D750, 0x1D76E); (0x1D770, 0x1D788); (0x1D78A, 0x1D7A8);
   (0x1D7AA, 0x1D7C2); (0x1D7C4, 0x1D7CB); (0x1DF00, 0x1DF09); (0x1DF0B, 0x1DF1E);
   (0x1E900, 0x1E943); (0x1F130, 0x1F149); (0x1F150, 0x1F169); (0x1F170, 0x1F189)]%N.
(** The code points with the property Case_Ignorable, as ranges. *)
Definition case_ignorable_ranges : list (N * N) :=
  [(0x27, 0x27); (0x2E, 0x2E); (0x3A, 0x3A); (0x5E, 0x5E); (0x60, 0x60); (0xA8, 0xA8);
   (0xAD, 0xAD); (0xAF, 0xAF); (0xB4, 0xB4); (0xB7, 0xB8); (0x2B0, 0x36F); (0x374, 0x375);
   (0x37A, 0x37A); (0x384, 0x385); (0x387, 0x387); (0x483, 0x489); (0x559, 0x559);
   (0x55F, 0x55F); (0x591, 0x5BD); (0x5BF, 0x5BF); (0x5C1, 0x5C2); (0x5C4, 0x5C5);
   (0x5C7, 0x5C7); (0x5F4, 0x5F4); (0x600, 0x605); (0x610, 0x61A); (0x61C, 0x61C);
   (0x640, 0x640); (0x64B, 0x65F); (0x670, 0x670); (0x6D6, 0x6DD); (0x6DF, 0x6E8);
   (0x6EA, 0x6ED); (0x70F, 0x70F); (0x711, 0x711); (0x730, 0x74A); (0x7A6, 0x7B0);
   (0x7EB, 0x7F5); (0x7FA, 0x7FA); (0x7FD, 0x7FD); (0x816, 0x82D); (0x859, 0x85B);
   (0x888, 0x888); (0x890, 0x891); (0x898, 0x89F); (0x8C9, 0x902); (0x93A, 0x93A);
   (0x93C, 0x93C); (0x941, 0x948); (0x94D, 0x94D); (0x951, 0x957); (0x962, 0x963);
   (0x971, 0x971); (0x981, 0x981); (0x9BC, 0x9BC); (0x9C1, 0x9C4); (0x9CD, 0x9CD);
   (0x9E2, 0x9E3); (0x9FE, 0x9FE); (0xA01, 0xA02); (0xA3C, 0xA3C); (0xA41, 0xA42);
   (0xA47, 0xA48); (0xA4B, 0xA4D); (0xA51, 0xA51); (0xA70, 0xA71); (0xA75, 0xA75);
   (0xA81, 0xA82); (0xABC, 0xABC); (0xAC1, 0xAC5); (0xAC7, 0xAC8); (0xACD, 0xACD);
   (0xAE2, 0xAE3); (0xAFA, 0xAFF); (0xB01, 0xB01); (0xB3C, 0xB3C); (0xB3F, 0xB3F);
   (0xB41, 0xB44); (0xB4D, 0xB4D); (0xB55, 0xB56); (0xB62, 0xB63); (0xB82, 0xB82);
   (0xBC0, 0xBC0); (0xBCD, 0xBCD); (0xC00, 0xC00); (0xC04, 0xC04); (0xC3C, 0xC3C);
   (0xC3E, 0xC40); (0xC46, 0xC48); (0xC4A, 0xC4D); (0xC55, 0xC56); (0xC62, 0xC63);
   (0xC81, 0xC81); (0xCBC, 0xCBC); (0xCBF, 0xCBF); (0xCC6, 0xCC6); (0xCCC, 0xCCD);
   (0xCE2, 0xCE3); (0xD00, 0xD01); (0xD3B, 0xD3C); (0xD41, 0xD44); (0xD4D, 0xD4D);
   (0xD62, 0xD63); (0xD81, 0xD81); (0xDCA, 0xDCA); (0xDD2, 0xDD4); (0xDD6, 0xDD6);
   (0xE31, 0xE31); (0xE34, 0xE3A); (0xE46, 0xE4E); (0xEB1, 0xEB1); (0xEB4, 0xEBC);
   (0xEC6, 0xEC6); (0xEC8, 0xECD); (0xF18, 0xF19); (0xF35, 0xF35); (0xF37, 0xF37);
   (0xF39, 0xF39); (0xF71, 0xF7E); (0xF80, 0xF84); (0xF86, 0xF87); (0xF8D, 0xF97);
   (0xF99, 0xFBC); (0xFC6, 0xFC6); (0x102D, 0x1030); (0x1032, 0x1037); (0x1039, 0x103A);
   (0x103D, 0x103E); (0x1058, 0x1059); (0x105E, 0x1060); (0x1071, 0x1074);
   (0x1082, 0x1082); (0x1085, 0x1086); (0x108D, 0x108D); (0x109D, 0x109D);
   (0x10FC, 0x10FC); (0x135D, 0x135F); (0x1712, 0x1714); (0x1732, 0x1733);
   (0x1752, 0x1753); (0x1772, 0x1773); (0x17B4, 0x17B5); (0x17B7, 0x17BD);
   (0x17C6, 0x17C6); (0x17C9, 0x17D3); (0x17D7, 0x17D7); (0x17DD, 0x17DD);
   (0x180B, 0x180F); (0x1843, 0x1843); (0x1885, 0x1886); (0x18A9, 0x18A9);
   (0x1920, 0x1922); (0x1927, 0x1928); (0x1932, 0x1932); (0x1939, 0x193B);
   (0x1A17, 0x1A18); (0x1A1B, 0x1A1B); (0x1A56, 0x1A56); (0x1A58, 0x1A5E);
   (0x1A60, 0x1A60); (0x1A62, 0x1A62); (0x1A65, 0x1A6C); (0x1A73, 0x1A7C);
   (0x1A7F, 0x1A7F); (0x1AA7, 0x1AA7); (0x1AB0, 0x1ACE); (0x1B00, 0x1B03);
   (0x1B34, 0x1B34); (0x1B36, 0x1B3A); (0x1B3C, 0x1B3C); (0x1B42, 0x1B42);
   (0x1B6B, 0x1B73); (0x1B80, 0x1B81); (0x1BA2, 0x1BA5); (0x1BA8, 0x1BA9);
   (0x1BAB, 0x1BAD); (0x1BE6, 0x1BE6); (0x1BE8, 0x1BE9); (0x1BED, 0x1BED);
   (0x1BEF, 0x1BF1); (0x1C2C, 0x1C33); (0x1C36, 0x1C37); (0x1C78, 0x1C7D);
   (0x1CD0, 0x1CD2); (0x1CD4, 0x1CE0); (0x1CE2, 0x1CE8); (0x1CED, 0x1CED);
   (0x1CF4, 0x1CF4); (0x1CF8, 0x1CF9); (0x1D2C, 0x1D6A); (0x1D78, 0x1D78);
   (0x1D9B, 0x1DFF); (0x1FBD, 0x1FBD); (0x1FBF, 0x1FC1); (0x1FCD, 0x1FCF);
   (0x1FDD, 0x1FDF); (0x1FED, 0x1FEF); (0x1FFD, 0x1FFE); (0x200B, 0x200F);
   (0x2018, 0x2019); (0x2024, 0x2024); (0x2027, 0x2027); (0x202A, 0x202E);
   (0x2060, 0x2064); (0x2066, 0x206F); (0x2071, 0x2071); (0x207F, 0x207F);
   (0x2090, 0x209C); (0x20D0, 0x20F0); (0x2C7C, 0x2C7D); (0x2CEF, 0x2CF1);
   (0x2D6F, 0x2D6F); (0x2D7F, 0x2D7F); (0x2DE0, 0x2DFF); (0x2E2F, 0x2E2F);
   (0x3005, 0x3005); (0x302A, 0x302D); (0x3031, 0x3035); (0x303B, 0x303B);
   (0x3099, 0x309E); (0x30FC, 0x30FE); (0xA015, 0xA015); (0xA4F8, 0xA4FD);
   (0xA60C, 0xA60C); (0xA66F, 0xA672); (0xA674, 0xA67D); (0xA67F, 0xA67F);
   (0xA69C, 0xA69F); (0xA6F0, 0xA6F1); (0xA700, 0xA721); (0xA770, 0xA770);
   (0xA788, 0xA78A); (0xA7F2, 0xA7F4); (0xA7F8, 0xA7F9); (0xA802, 0xA802);
   (0xA806, 0xA806); (0xA80B, 0xA80B); (0xA825, 0xA826); (0xA82C, 0xA82C);
   (0xA8C4, 0xA8C5); (0xA8E0, 0xA8F1); (0xA8FF, 0xA8FF); (0xA926, 0xA92D);
   (0xA947, 0xA951); (0xA980, 0xA982); (0xA9B3, 0xA9B3); (0xA9B6, 0xA9B9);
   (0xA9BC, 0xA9BD); (0xA9CF, 0xA9CF); (0xA9E5, 0xA9E6); (0xAA29, 0xAA2E);
   (0xAA31, 0xAA32); (0xAA35, 0xAA36); (0xAA43, 0xAA43); (0xAA4C, 0xAA4C);
   (0xAA70, 0xAA70); (0xAA7C, 0xAA7C); (0xAAB0, 0xAAB0); (0xAAB2, 0xAAB4);
   (0xAAB7, 0xAAB8); (0xAABE, 0xAABF); (0xAAC1, 0xAAC1); (0xAADD, 0xAADD);
   (0xAAEC, 0xAAED); (0xAAF3, 0xAAF4); (0xAAF6, 0xAAF6); (0xAB5B, 0xAB5F);
   (0xAB69, 0xAB6B); (0xABE5, 0xABE5); (0xABE8, 0xABE8); (0xABED, 0xABED);
   (0xFB1E, 0xFB1E); (0xFBB2, 0xFBC2); (0xFE00, 0xFE0F); (0xFE13, 0xFE13);
   (0xFE20, 0xFE2F); (0xFE52, 0xFE52); (0xFE55, 0xFE55); (0xFEFF, 0xFEFF);
   (0xFF07, 0xFF07); (0xFF0E, 0xFF0E); (0xFF1A, 0xFF1A); (0xFF3E, 0xFF3E);
   (0xFF40, 0xFF40); (0xFF70, 0xFF70); (0xFF9E, 0xFF9F); (0xFFE3, 0xFFE3);
   (0xFFF9, 0xFFFB); (0x101FD, 0x101FD); (0x102E0, 0x102E0); (0x10376, 0x1037A);
   (0x10780, 0x10785); (0x10787, 0x107B0); (0x107B2, 0x107BA); (0x10A01, 0x10A03);
   (0x10A05, 0x10A06); (0x10A0C, 0x10A0F); (0x10A38, 0x10A3A); (0x10A3F, 0x10A3F);
   (0x10AE5, 0x10AE6); (0x10D24, 0x10D27); (0x10EAB, 0x10EAC); (0x10F46, 0x10F50);
   (0x10F82, 0x10F85); (0x11001, 0x11001); (0x11038, 0x11046); (0x11070, 0x11070);
   (0x11073, 0x11074); (0x1107F, 0x11081); (0x110B3, 0x110B6); (0x110B9, 0x110BA);
   (0x110BD, 0x110BD); (0x110C2, 0x110C2); (0x110CD, 0x110CD); (0x11100, 0x11102);
   (0x11127, 0x1112B); (0x1112D, 0x11134); (0x11173, 0x11173); (0x11180, 0x11181);
   (0x111B6, 0x111BE); (0x111C9, 0x111CC); (0x111CF, 0x111CF); (0x1122F, 0x11231);
   (0x11234, 0x11234); (0x11236, 0x11237); (0x1123E, 0x1123E); (0x112DF, 0x112DF);
   (0x112E3, 0x112EA); (0x11300, 0x11301); (0x1133B, 0x1133C); (0x11340, 0x11340);
   (0x11366, 0x1136C); (0x11370, 0x11374); (0x11438, 0x1143F); (0x11442, 0x11444);
   (0x11446, 0x11446); (0x1145E, 0x1145E); (0x114B3, 0x114B8); (0x114BA, 0x114BA);
   (0x114BF, 0x114C0); (0x114C2, 0x114C3); (0x115B2, 0x115B5); (0x115BC, 0x115BD);
   (0x115BF, 0x115C0); (0x115DC, 0x115DD); (0x11633, 0x1163A); (0x1163D, 0x1163D);
   (0x1163F, 0x11640); (0x116AB, 0x116AB); (0x116AD, 0x116AD); (0x116B0, 0x116B5);
   (0x116B7, 0x116B7); (0x1171D, 0x1171F); (0x11722, 0x11725); (0x11727, 0x1172B);
   (0x1182F, 0x11837); (0x11839, 0x1183A); (0x1193B, 0x1193C); (0x1193E, 0x1193E);
   (0x11943, 0x11943); (0x119D4, 0x119D7); (0x119DA, 0x119DB); (0x119E0, 0x119E0);
   (0x11A01, 0x11A0A); (0x11A33, 0x11A38); (0x11A3B, 0x11A3E); (0x11A47, 0x11A47);
   (0x11A51, 0x11A56); (0x11A59, 0x11A5B); (0x11A8A, 0x11A96); (0x11A98, 0x11A99);
   (0x11C30, 0x11C36); (0x11C38, 0x11C3D); (0x11C3F, 0x11C3F); (0x11C92, 0x11CA7);
   (0x11CAA, 0x11CB0); (0x11CB2, 0x11CB3); (0x11CB5, 0x11CB6); (0x11D31, 0x11D36);
   (0x11D3A, 0x11D3A); (0x11D3C, 0x11D3D); (0x11D3F, 0x11D45); (0x11D47, 0x11D47);
   (0x11D90, 0x11D91); (0x11D95, 0x11D95); (0x11D97, 0x11D97); (0x11EF3, 0x11EF4);
   (0x13430, 0x13438); (0x16AF0, 0x16AF4); (0x16B30, 0x16B36); (0x16B40, 0x16B43);
   (0x16F4F, 0x16F4F); (0x16F8F, 0x16F9F); (0x16FE0, 0x16FE1); (0x16FE3, 0x16FE4);
   (0x1AFF0, 0x1AFF3); (0x1AFF5, 0x1AFFB); (0x1AFFD, 0x1AFFE); (0x1BC9D, 0x1BC9E);
   (0x1BCA0, 0x1BCA3); (0x1CF00, 0x1CF2D); (0x1CF30, 0x1CF46); (0x1D167, 0x1D169);
   (0x1D173, 0x1D182); (0x1D185, 0x1D18B); (0x1D1AA, 0x1D1AD); (0x1D242, 0x1D244);
   (0x1DA00, 0x1DA36); (0x1DA3B, 0x1DA6C); (0x1DA75, 0x1DA75); (0x1DA84, 0x1DA84);
   (0x1DA9B, 0x1DA9F); (0x1DAA1, 0x1DAAF); (0x1E000, 0x1E006); (0x1E008, 0x1E018);
   (0x1E01B, 0x1E021); (0x1E023, 0x1E024); (0x1E026, 0x1E02A); (0x1E130, 0x1E13D);
   (0x1E2AE, 0x1E2AE); (0x1E2EC, 0x1E2EF); (0x1E8D0, 0x1E8D6); (0x1E944, 0x1E94B);
   (0x1F3FB, 0x1F3FF); (0xE0001, 0xE0001); (0xE0020, 0xE007F); (0xE0100, 0xE01EF)]%N.
Fixpoint simple_lower (runs : list (N * N * N * N)) (c : N) : N :=
  match runs with
  | [] => c
  | (first, last, step, image) :: rest =>
      if ((first <=? c) && (c <=? last) && ((c - first) mod step =? 0))%N
      then (image + (c - first))%N
      else simple_lower rest c
  end.

Definition in_ranges (ranges : list (N * N)) (c : N) : bool :=
  existsb (fun r => ((fst r <=? c) && (c <=? snd r))%N) ranges.

Definition cased : N -> bool := in_ranges cased_ranges.
Definition case_ignorable : N -> bool := in_ranges case_ignorable_ranges.

Fixpoint skip_ignorable (l : list N) : list N :=
  match l with
  | c :: l' => if case_ignorable c then skip_ignorable l' else l
  | [] => []
  end.

(** Final_Sigma: going back over case-ignorable code points there is a cased
    one, and going forward over case-ignorable code points there is none.
    [before] holds the preceding code points, the nearest first. *)
Definition final_sigma (before after : list N) : bool :=
  match skip_ignorable before with
  | c :: _ =>
      cased c && match skip_ignorable after with
                 | d :: _ => negb (cased d)
                 | [] => true
                 end
  | [] => false
  end.

Definition lower_code_point (before : list N) (c : N) (after : list N) : list N :=
  if (c =? 0x3A3)%N then [if final_sigma before after then 0x3C2 else 0x3C3]%N
  else if (c =? 0x130)%N then [0x69; 0x307]%N
  else [simple_lower lower_runs c].

Fixpoint lower_code_points (before l : list N) : list N :=
  match l with
  | [] => []
  | c :: after =>
      (lower_code_point before c after ++ lower_code_points (c :: before) after)%list
  end.

(** [s.toLowerCase()] *)
Definition toLowerCase (s : string) : string :=
  text_of (lower_code_points [] (code_points s)).

End Js.
Import Js.

(* ------------------------------------------------------------------ *)
(** * The generative backend, as the services see it *)
(* ------------------------------------------------------------------ *)

(** A content part: inline image data or text. *)
Inductive Part :=
| InlineData (mimeType data : string)
| Text (text : string).

Record Content := { parts : option (list Part) }.
Record Candidate := { content : option Content }.

(** What [ai.models.generateContent] resolves to; [text] is the SDK's getter. *)
Record GenerateContentResponse := {
  candidates : option (list Candidate);
  response_text : option string
}.

Record GenerateContentRequest := {
  req_model : string;
  req_parts : list Part;
  req_aspectRatio : option string
}.

Record BrandProfile := {
  bp_style : string;
  bp_tone : string;
  bp_contrast : string
}.

(** [cleanBase64]: drops a leading [data:image/(png|jpeg|jpg|webp);base64,]. *)
Definition cleanBase64 (b64 : string) : string :=
  match strip_prefix "data:image/png;base64," b64 with
  | Some r => r
  | None =>
  match strip_prefix "data:image/jpeg;base64," b64 with
  | Some r => r
  | None =>
  match strip_prefix "data:image/jpg;base64," b64 with
  | Some r => r
  | None =>
  match strip_prefix "data:image/webp;base64," b64 with
  | Some r => r
  | None => b64
  end end end end.

(** [response.candidates?.[0]?.content?.parts || []] *)
Definition response_parts (r : GenerateContentResponse) : list Part :=
  match candidates r with
  | Some (c :: _) =>
      match content c with
      | Some k => match parts k with Some ps => ps | None => [] end
      | None => []
      end
  | _ => []
  end.

(** The [for (const part of ...)] loop shared by the image generators: the
    first part carrying inline data becomes a PNG data URI, else [null]. *)
Fixpoint first_inline_image (ps : list Part) : option string :=
  match ps with
  | [] => None
  | InlineData _ d :: _ => Some ("data:image/png;base64," ++ d)
  | Text _ :: ps' => first_inline_image ps'
  end.

(* ------------------------------------------------------------------ *)
(** * Batch orchestrator: [generateStudioImage], [generateCompositeImage] *)
(* ------------------------------------------------------------------ *)

Module Batch.

Definition BATCH_SIZE : nat := 4.

(** Events of a batch run: the backend call of item [i] is sent; the promise
    of item [i] settles. *)
Inductive Event :=
| Dispatch (i : nat)
| Settle (i : nat).

(** The state threaded through the batching loop.  [groups] logs every
    [batchPromises] array (by the indices of its members). *)
Record State := {
  generatedUrls : list string;
  trace : list Event;
  groups : list (list nat)
}.

Definition init : State :=
  {| generatedUrls := []; trace := []; groups := [] |}.

Section Loop.

(** The per-item helper ([generateSingle] / [generateSingleVariation]),
    which never rejects: either a data URI or [null]. *)
Variable single : nat -> option string.

(** Completion order of the calls of one group (Promise.all waits for
    all of them; which one settles first is up to the backend). *)
Variable sched : list nat -> list nat.

(** The requested quantity, a non-negative integer. *)
Variable quantity : nat.

(** [for (let j = 0; j < BATCH_SIZE && i + j < quantity; j++)
       batchPromises.push(single(i + j))];
    [k] is [BATCH_SIZE - j]. *)
Fixpoint batchPromises (k i j : nat) : list nat :=
  match k with
  | 0 => []
  | S k' => if (i + j <? quantity)%nat
            then (i + j) :: batchPromises k' i (S j)
            else []
  end.

(** [batchResults.forEach(res => { if (res) generatedUrls.push(res) })] *)
Fixpoint collect (urls : list string) (batchResults : list (option string))
  : list string :=
  match batchResults with
  | [] => urls
  | res :: rest =>
      collect (if truthy res
               then urls ++ [match res with Some u => u | None => "" end]
               else urls) rest
  end.

(** One iteration of the outer loop.  The helper is called for every member
    before the loop body awaits anything, and the SDK's call is asynchronous,
    so every call of the group is sent before any of them settles;
    [Promise.all] then waits for all of them, and [batchResults] is in the
    order of the members whatever the order of settlement. *)
Definition group_step (i : nat) (st : State) : State :=
  let members := batchPromises BATCH_SIZE i 0 in
  let batchResults := map single members in
  {| generatedUrls := collect (generatedUrls st) batchResults;
     trace := trace st ++ map Dispatch members ++ map Settle (sched members);
     groups := groups st ++ [members] |}.

(** [for (let i = 0; i < quantity; i += BATCH_SIZE) ...]; [None] when the
    fuel runs out before the loop ends. *)
Fixpoint batch_loop (fuel i : nat) (st : State) : option State :=
  if (i <? quantity)%nat then
    match fuel with
    | 0 => None
    | S fuel' => batch_loop fuel' (i + BATCH_SIZE) (group_step i st)
    end
  else Some st.

(** The loop followed by the total-failure test
    [if (generatedUrls.length === 0) throw new Error(msg);
     return generatedUrls]. *)
Definition run (fuel : nat) (msg : string)
  : option (Completion (list string) * State) :=
  match batch_loop fuel 0 init with
  | None => None
  | Some st =>
      Some (if (List.length (generatedUrls st) =? 0)%nat
            then Throw (new_Error msg)
            else Return (generatedUrls st), st)
  end.

End Loop.

(** The backend: the outcome of the one [generateContent] call of item
    [i], given the request that was sent. *)
Definition Backend := nat -> GenerateContentRequest -> Completion GenerateContentResponse.

(** The body of the two per-item helpers after the prompt is chosen: one
    call, the first inline image of the answer, and [catch -> null]. *)
Definition single_call (ai : Backend) (index : nat)
           (req : GenerateContentRequest) : option string :=
  match ai index req with
  | Return response => first_inline_image (response_parts response)
  | Throw _ => None
  end.

Section Studio.
Variable ai : Backend.
Variables (imageBase64 style ratio : string).
Variable brandProfile : option BrandProfile.

Definition studio_prompt : string :=
  let prompt := "Create a professional studio photography shot of this product. Style: "
                ++ style ++ ". High resolution, 8k, photorealistic." in
  match brandProfile with
  | Some bp => prompt ++ " Brand Style: " ++ bp_style bp ++ ", Lighting: "
               ++ bp_tone bp ++ ", Contrast: " ++ bp_contrast bp ++ "."
  | None => prompt
  end.

Definition studio_request (index : nat) : GenerateContentRequest :=
  let variationPrompt :=
    if (0 <? index)%nat
    then studio_prompt ++ " (Variation " ++ of_nat (index + 1)
         ++ ", slightly different angle or lighting nuance)"
    else studio_prompt in
  {| req_model := "gemini-2.5-flash-image";
     req_parts := [InlineData "image/jpeg" (cleanBase64 imageBase64);
                   Text variationPrompt];
     req_aspectRatio := Some ratio |}.

Definition generateSingle (index : nat) : option string :=
  single_call ai index (studio_request index).

Definition generateStudioImage (sched : list nat -> list nat)
           (quantity fuel : nat) :=
  run generateSingle sched quantity fuel "No image generated".
End Studio.

Section Composite.
Variable ai : Backend.
(** [images]: the [base64] and [tag] of each uploaded asset. *)
Variable images : list (string * string).
Variables (promptInstruction ratio : string).
Variable brandProfile : option BrandProfile.

Definition finalPrompt : string :=
  let p := "Compose these images into a single cohesive scene. "
           ++ promptInstruction
           ++ ". Seamless blending, photorealistic, perfect lighting match." in
  match brandProfile with
  | Some bp => p ++ " Apply brand style: " ++ bp_style bp ++ ", "
               ++ bp_tone bp ++ " lighting."
  | None => p
  end.

(** [parts]: one inline image per asset, then the prompt. *)
Definition composite_parts : list Part :=
  map (fun img => InlineData "image/jpeg" (cleanBase64 (fst img))) images
  ++ [Text finalPrompt].

Definition composite_request (index : nat) : GenerateContentRequest :=
  let variationPrompt :=
    if (0 <? index)%nat
    then finalPrompt ++ " (Variation " ++ of_nat (index + 1)
         ++ ", try a slightly different angle or composition arrangement)"
    else finalPrompt in
  {| req_model := "gemini-2.5-flash-image";
     req_parts := firstn (List.length composite_parts - 1) composite_parts
                  ++ [Text variationPrompt];
     req_aspectRatio := Some ratio |}.

Definition generateSingleVariation (index : nat) : option string :=
  single_call ai index (composite_request index).

Definition generateCompositeImage (sched : list nat -> list nat)
           (quantity fuel : nat) :=
  run generateSingleVariation sched quantity fuel
      "No composite images generated".
End Composite.

End Batch.

(* ------------------------------------------------------------------ *)
(** * [JSON.parse] *)
(* ------------------------------------------------------------------ *)

(** The platform's [JSON.parse], following the JSON grammar (ECMA-404): the
    services call it on the text of structured responses.  A number keeps its
    lexeme; a [\uXXXX] escape is stored as the UTF-8 bytes of its code unit;
    a repeated key keeps its first position and its last value. *)
Module Json.

Inductive Value :=
| Null
| Bool (b : bool)
| Number (lexeme : string)
| Str (s : string)
| Array (elements : list Value)
| Object (members : list (string * Value)).

(** [o[k]] on the members of an object. *)
Fixpoint get (k : string) (ms : list (string * Value)) : option Value :=
  match ms with
  | [] => None
  | (k', v) :: ms' => if k =? k' then Some v else get k ms'
  end.

Fixpoint set (k : string) (v : Value) (ms : list (string * Value))
  : list (string * Value) :=
  match ms with
  | [] => [(k, v)]
  | (k', v') :: ms' => if k =? k' then (k', v) :: ms' else (k', v') :: set k v ms'
  end.

Definition is_ws (c : ascii) : bool :=
  let n := nat_of_ascii c in
  ((n =? 32) || (n =? 9) || (n =? 10) || (n =? 13))%nat.

Fixpoint skip_ws (s : string) : string :=
  match s with
  | String c s' => if is_ws c then skip_ws s' else s
  | EmptyString => s
  end.

Definition is_digit (c : ascii) : bool :=
  let n := nat_of_ascii c in ((48 <=? n) && (n <=? 57))%nat.

Definition hex_val (c : ascii) : option nat :=
  let n := nat_of_ascii c in
  if ((48 <=? n) && (n <=? 57))%nat then Some (n - 48)
  else if ((65 <=? n) && (n <=? 70))%nat then Some (n - 55)
  else if ((97 <=? n) && (n <=? 102))%nat then Some (n - 87)
  else None.

(** UTF-8 bytes of a 16-bit code unit. *)
Definition utf8 (u : nat) : string :=
  if (u <? 128)%nat then String (ascii_of_nat u) ""
  else if (u <? 2048)%nat then
    String (ascii_of_nat (192 + u / 64))
      (String (ascii_of_nat (128 + u mod 64)) "")
  else
    String (ascii_of_nat (224 + u / 4096))
      (String (ascii_of_nat (128 + (u / 64) mod 64))
        (String (ascii_of_nat (128 + u mod 64)) "")).

(** The characters of a string literal after its opening quote, up to and
    including the closing quote; the decoded text and the rest. *)
Fixpoint string_body (s : string) : option (string * string) :=
  match s with
  | EmptyString => None
  | String c s' =>
      if Ascii.eqb c "034" then Some ("", s')
      else if Ascii.eqb c "\" then
        match s' with
        | EmptyString => None
        | String e s'' =>
            let simple (d : ascii) :=
              match string_body s'' with
              | Some (t, r) => Some (String d t, r)
              | None => None
              end in
            if Ascii.eqb e "034" then simple "034"%char
            else if Ascii.eqb e "\" then simple "\"%char
            else if Ascii.eqb e "/" then simple "/"%char
            else if Ascii.eqb e "b" then simple "008"%char
            else if Ascii.eqb e "f" then simple "012"%char
            else if Ascii.eqb e "n" then simple "010"%char
            else if Ascii.eqb e "r" then simple "013"%char
            else if Ascii.eqb e "t" then simple "009"%char
            else if Ascii.eqb e "u" then
              match s'' with
              | String h1 (String h2 (String h3 (String h4 s4))) =>
                  match hex_val h1, hex_val h2, hex_val h3, hex_val h4 with
                  | Some a, Some b, Some c', Some d =>
                      match string_body s4 with
                      | Some (t, r) =>
                          Some (utf8 (((a * 16 + b) * 16 + c') * 16 + d) ++ t, r)
                      | None => None
                      end
                  | _, _, _, _ => None
                  end
              | _ => None
              end
            else None
        end
      else if (nat_of_ascii c <? 32)%nat then None
      else
        match string_body s' with
        | Some (t, r) => Some (String c t, r)
        | None => None
        end
  end.

(** The longest run of digits at the head of [s], and the rest. *)
Fixpoint digits (s : string) : string * string :=
  match s with
  | String c s' =>
      if is_digit c then let (d, r) := digits s' in (String c d, r)
      else ("", s)
  | EmptyString => ("", s)
  end.

(** A number: an optional minus sign; a zero, or a non-zero digit and more
    digits; an optional fraction (a point and digits); an optional
    exponent (e or E, an optional sign, digits). *)
Definition number (s : string) : option (string * string) :=
  let (sign, s1) :=
    match s with
    | String "-" r => ("-", r)
    | _ => ("", s)
    end in
  let int_part :=
    match s1 with
    | String "0" r => Some ("0", r)
    | _ => let (d, r) := digits s1 in
           if d =? "" then None else Some (d, r)
    end in
  match int_part with
  | None => None
  | Some (i, s2) =>
      let frac :=
        match s2 with
        | String "." r =>
            let (d, r') := digits r in
            if d =? "" then None else Some ("." ++ d, r')
        | _ => Some ("", s2)
        end in
      match frac with
      | None => None
      | Some (f, s3) =>
          let expo :=
            match s3 with
            | String e r =>
                if (Ascii.eqb e "e" || Ascii.eqb e "E")%bool then
                  let (sg, r1) :=
                    match r with
                    | String "+" r' => ("+", r')
                    | String "-" r' => ("-", r')
                    | _ => ("", r)
                    end in
                  let (d, r2) := digits r1 in
                  if d =? "" then None
                  else Some (String e sg ++ d, r2)
                else Some ("", s3)
            | EmptyString => Some ("", s3)
            end in
          match expo with
          | None => None
          | Some (x, s4) => Some (sign ++ i ++ f ++ x, s4)
          end
      end
  end.

(** A value, the elements of an array after its first bracket, the members
    of an object after its first brace; [fuel] bounds the nesting of
    calls. *)
Fixpoint value (fuel : nat) (s : string) : option (Value * string) :=
  match fuel with
  | 0 => None
  | S fuel' =>
      match skip_ws s with
      | String c r =>
          if Ascii.eqb c "{" then
            match skip_ws r with
            | String "}" r' => Some (Object [], r')
            | _ => match members fuel' r [] with
                   | Some (ms, r') => Some (Object ms, r')
                   | None => None
                   end
            end
          else if Ascii.eqb c "[" then
            match skip_ws r with
            | String "]" r' => Some (Array [], r')
            | _ => match elements fuel' r [] with
                   | Some (vs, r') => Some (Array vs, r')
                   | None => None
                   end
            end
          else if Ascii.eqb c "034" then
            match string_body r with
            | Some (t, r') => Some (Str t, r')
            | None => None
            end
          else if Ascii.eqb c "t" then
            match strip_prefix "rue" r with
            | Some r' => Some (Bool true, r')
            | None => None
            end
          else if Ascii.eqb c "f" then
            match strip_prefix "alse" r with
            | Some r' => Some (Bool false, r')
            | None => None
            end
          else if Ascii.eqb c "n" then
            match strip_prefix "ull" r with
            | Some r' => Some (Null, r')
            | None => None
            end
          else
            match number (String c r) with
            | Some (n, r') => Some (Number n, r')
            | None => None
            end
      | EmptyString => None
      end
  end
with elements (fuel : nat) (s : string) (acc : list Value)
  : option (list Value * string) :=
  match fuel with
  | 0 => None
  | S fuel' =>
      match value fuel' s with
      | Some (v, r) =>
          match skip_ws r with
          | String "," r' => elements fuel' r' (acc ++ [v])%list
          | String "]" r' => Some ((acc ++ [v])%list, r')
          | _ => None
          end
      | None => None
      end
  end
with members (fuel : nat) (s : string) (acc : list (string * Value))
  : option (list (string * Value) * string) :=
  match fuel with
  | 0 => None
  | S fuel' =>
      match skip_ws s with
      | String c r =>
          if Ascii.eqb c "034" then
            match string_body r with
            | Some (k, r1) =>
                match skip_ws r1 with
                | String ":" r2 =>
                    match value fuel' r2 with
                    | Some (v, r3) =>
                        match skip_ws r3 with
                        | String "," r4 => members fuel' r4 (set k v acc)
                        | String "}" r4 => Some (set k v acc, r4)
                        | _ => None
                        end
                    | None => None
                    end
                | _ => None
                end
            | None => None
            end
          else None
      | EmptyString => None
      end
  end.

(** [JSON.parse(text)]: one value, then only white space; otherwise a
    [SyntaxError]. *)
Definition parse (text : string) : Completion Value :=
  match value (2 * String.length text + 2) text with
  | Some (v, r) =>
      if skip_ws r =? "" then Return v
      else Throw (new_Error "SyntaxError")
  | None => Throw (new_Error "SyntaxError")
  end.

End Json.

(* ------------------------------------------------------------------ *)
(** * Product analysis and prompt derivation *)
(* ------------------------------------------------------------------ *)

Module Analysis.

(** The literal returned by the [catch] of [analyzeProductDetails]. *)
Definition fallback : Json.Value :=
  Json.Object [("description", Json.Str "Analysis failed");
               ("usp", Json.Str "High Quality");
               ("productCategory", Json.Str "General");
               ("targetGender", Json.Str "Unisex")].

(** [analyzeProductDetails], as a function of the outcome of its one
    [generateContent] call: a rejection of the call propagates (the call is
    outside the [try]); the text, or the literal of an empty object when the
    text is falsy, goes through [JSON.parse]; a parse error yields
    [fallback]. *)
Definition analyzeProductDetails
           (call : Completion GenerateContentResponse) : Completion Json.Value :=
  match call with
  | Throw e => Throw e
  | Return response =>
      match Json.parse (or_else (response_text response) "{}") with
      | Return v => Return v
      | Throw _ => Return fallback
      end
  end.

(** The interface [AnalysisResult]. *)
Record AnalysisResult := {
  description : string;
  usp : string;
  productCategory : string;
  targetGender : string
}.

Definition footwear_action : string :=
  "Low angle shot, showing the model's legs/feet walking or dynamic movement with the shoes.".
Definition skincare_action : string :=
  "Close up portrait, model holding product near face, flawless skin texture.".
Definition apparel_action : string :=
  "Medium or Full shot, model wearing the product, confident fashion pose.".
Definition beverage_action : string :=
  "Model holding the item ready to consume/drink, enjoying the moment.".
Definition generic_action : string :=
  "Natural interaction with the product in a lifestyle setting.".

(** The condition of the "Smart Action Adaptation" branch. *)
Definition auto_action_requested (pose : string) : bool :=
  includes "Smart Adaptive" pose || (pose =? "Let AI Decide (Auto)").

(** [derivedModelContext] of [generateCreativePrompt]. *)
Definition derivedModelContext (modelType : string)
           (analysisData : option AnalysisResult) : string :=
  match analysisData with
  | Some a =>
      if modelType =? "Auto-Detect based on Product" then
        if targetGender a =? "Masculine" then "Male Model"
        else if targetGender a =? "Feminine" then "Female Model"
        else "Professional Model (Neutral)"
      else modelType
  | None => modelType
  end.

(** [derivedAction] of [generateCreativePrompt]: the chain of
    [if / else if] on the lower-cased category. *)
Definition derivedAction (pose : string)
           (analysisData : option AnalysisResult) : string :=
  match analysisData with
  | Some a =>
      if auto_action_requested pose then
        let cat := toLowerCase (productCategory a) in
        if includes "shoe" cat || includes "footwear" cat then footwear_action
        else if includes "skincare" cat || includes "cosmetic" cat then skincare_action
        else if includes "clothing" cat || includes "fashion" cat then apparel_action
        else if includes "beverage" cat || includes "food" cat then beverage_action
        else generic_action
      else pose
  | None => pose
  end.

End Analysis.

(* ------------------------------------------------------------------ *)
(** * Video synthesis and its poller: [generateVeoVideo] *)
(* ------------------------------------------------------------------ *)

Module Veo.

Record Video := { uri : option string }.
Record GeneratedVideo := { video : option Video }.
Record GenerateVideosResponse := {
  generatedVideos : option (list GeneratedVideo)
}.

(** The operation handle. *)
Record Operation := {
  done : bool;
  response : option GenerateVideosResponse
}.

Record VideosRequest := {
  vr_model : string;
  vr_imageBytes : string;
  vr_mimeType : string;
  vr_prompt : string;
  vr_numberOfVideos : nat;
  vr_resolution : string;
  vr_aspectRatio : string
}.

(** The backend of one job: the outcome of the submission, and the outcome
    of the [n]-th status re-fetch (counted from 0) for the handle it is
    given. *)
Record Backend := {
  generateVideos : VideosRequest -> Completion Operation;
  getVideosOperation : nat -> Operation -> Completion Operation
}.

Inductive Event :=
| Submit (r : VideosRequest)
| Delay (ms : nat)
| Refetch (n : nat).

(** [operation.response?.generatedVideos?.[0]?.video?.uri] *)
Definition videoUri (operation : Operation) : option string :=
  match response operation with
  | Some r =>
      match generatedVideos r with
      | Some (g :: _) =>
          match video g with
          | Some v => uri v
          | None => None
          end
      | _ => None
      end
  | None => None
  end.

Section Poller.
Variable backend : Backend.

(** [while (!operation.done) { await delay(5000); operation = await
    getVideosOperation({operation}) }]: the final handle or the rejection
    of a re-fetch, with the events of the loop; [None] when the fuel runs
    out with the operation still not done. *)
Fixpoint poll (fuel n : nat) (operation : Operation)
  : option (Completion Operation * list Event) :=
  if done operation then Some (Return operation, [])
  else
    match fuel with
    | 0 => None
    | S fuel' =>
        match getVideosOperation backend n operation with
        | Throw e => Some (Throw e, [Delay 5000; Refetch n])
        | Return operation' =>
            match poll fuel' (S n) operation' with
            | Some (c, t) => Some (c, Delay 5000 :: Refetch n :: t)
            | None => None
            end
        end
    end.

(** [process.env.API_KEY] *)
Variable API_KEY : option string.

Definition request (imageBase64 prompt ratio : string) : VideosRequest :=
  {| vr_model := "veo-3.1-fast-generate-preview";
     vr_imageBytes := cleanBase64 imageBase64;
     vr_mimeType := "image/jpeg";
     vr_prompt := prompt;
     vr_numberOfVideos := 1;
     vr_resolution := "720p";
     vr_aspectRatio := ratio |}.

(** [generateVeoVideo]: what the promise settles to ([Return None] is
    [null]), and the events; the [catch] logs and rethrows. *)
Definition generateVeoVideo (fuel : nat) (imageBase64 prompt ratio : string)
  : option (Completion (option string) * list Event) :=
  let req := request imageBase64 prompt ratio in
  match generateVideos backend req with
  | Throw e => Some (Throw e, [Submit req])
  | Return operation =>
      match poll fuel 0 operation with
      | None => None
      | Some (Throw e, t) => Some (Throw e, Submit req :: t)
      | Some (Return operation', t) =>
          let v := videoUri operation' in
          Some (Return (if truthy v
                        then Some (interpolate v ++ "&key=" ++ interpolate API_KEY)
                        else None),
                Submit req :: t)
      end
  end.

(** The number of delay / re-check cycles in a trace. *)
Definition cycles (t : list Event) : nat :=
  List.length (filter (fun e => match e with Delay _ => true | _ => false end) t).

End Poller.

End Veo.

(* ------------------------------------------------------------------ *)
(** * Scene orchestrator: [handleGenerate] of the storyboard component *)
(* ------------------------------------------------------------------ *)

Module Storyboard.

Record UploadedAsset := { base64 : string }.

Record VideoGenerationScene := {
  id : string;
  image : option UploadedAsset;
  motionPrompt : string
}.

Inductive Status := generating | completed | failed.

Record GeneratedVideoResult := {
  sceneId : string;
  videoUrl : string;
  status : Status
}.

(** The component's state. *)
Record State := {
  scenes : list VideoGenerationScene;
  aspectRatio : string;
  isGenerating : bool;
  generatedVideos : list GeneratedVideoResult;
  errorMsg : option string
}.

(** Who asked the host to prompt for a key: [checkApiKey], or the error
    handler of the [k]-th dispatched scene. *)
Inductive Caller :=
| FromCheck
| FromScene (k : nat).

(** [window.aistudio], when the host provides it: the outcomes of its two
    calls, each of which settles (a host call that stays pending for ever is
    not modelled). *)
Record AiStudio := {
  hasSelectedApiKey : Completion bool;
  openSelectKey : Caller -> Completion unit
}.

Inductive Event :=
| Alert (msg : string)
| HasSelectedApiKey
| OpenSelectKey (c : Caller)
| CallVeo (k : nat) (scene : VideoGenerationScene) (prompt : string)
| SceneSettled (k : nat).

Definition advisory : string :=
  "API Key invalid or not selected properly. Please try again.".
Definition unexpected : string :=
  "An unexpected error occurred during generation.".
Definition signature : string := "Requested entity was not found".

(** [e.message && e.message.includes(signature)] *)
Definition credential_error (e : Error) : bool :=
  match message e with
  | Some m => negb (m =? "") && includes signature m
  | None => false
  end.

Definition has_image (s : VideoGenerationScene) : bool :=
  match image s with Some _ => true | None => false end.

Section Run.
Variable aistudio : option AiStudio.
Variable brandProfile : option BrandProfile.

(** What [generateVeoVideo] settles to for the [k]-th dispatched scene,
    given the image, prompt and ratio it is called with; [None] when it
    never settles. *)
Variable generateVeoVideo :
  nat -> string -> string -> string -> option (Completion (option string)).

(** [checkApiKey] *)
Definition checkApiKey : bool * list Event :=
  match aistudio with
  | Some a =>
      match hasSelectedApiKey a with
      | Return hasKey =>
          if negb hasKey then
            match openSelectKey a FromCheck with
            | Return _ => (true, [HasSelectedApiKey; OpenSelectKey FromCheck])
            | Throw _ => (false, [HasSelectedApiKey; OpenSelectKey FromCheck])
            end
          else (true, [HasSelectedApiKey])
      | Throw _ => (false, [HasSelectedApiKey])
      end
  | None => (true, [])
  end.

Definition finalPrompt (scene : VideoGenerationScene) : string :=
  let p := or_else (Some (motionPrompt scene)) "Cinematic movement, high quality." in
  match brandProfile with
  | Some bp => p ++ " Style: " ++ bp_style bp ++ ", Tone: " ++ bp_tone bp ++ "."
  | None => p
  end.

(** [prev.map(v => v.sceneId === scene.id ? f v : v)] *)
Definition update (sid : string) (f : GeneratedVideoResult -> GeneratedVideoResult)
           (prev : list GeneratedVideoResult) : list GeneratedVideoResult :=
  map (fun v => if sceneId v =? sid then f v else v) prev.

Definition set_videos (st : State) (vs : list GeneratedVideoResult) : State :=
  {| scenes := scenes st; aspectRatio := aspectRatio st;
     isGenerating := isGenerating st; generatedVideos := vs;
     errorMsg := errorMsg st |}.

Definition set_error (st : State) (m : option string) : State :=
  {| scenes := scenes st; aspectRatio := aspectRatio st;
     isGenerating := isGenerating st; generatedVideos := generatedVideos st;
     errorMsg := m |}.

Definition set_generating (st : State) (b : bool) : State :=
  {| scenes := scenes st; aspectRatio := aspectRatio st;
     isGenerating := b; generatedVideos := generatedVideos st;
     errorMsg := errorMsg st |}.

(** How the callback of one scene ended. *)
Inductive Handler := Resolved | Rejected | Pending.

(** The part of the per-scene callback that runs once the scene's
    [generateVeoVideo] has settled. *)
Definition settle_scene (ratio : string) (k : nat) (scene : VideoGenerationScene)
           (st : State) : State * list Event * Handler :=
  match image scene with
  | None => (st, [], Resolved)
  | Some img =>
      match generateVeoVideo k (base64 img) (finalPrompt scene) ratio with
      | None => (st, [], Pending)
      | Some (Return url) =>
          (set_videos st
             (update (id scene)
                (fun v => {| sceneId := sceneId v;
                             videoUrl := or_else url "";
                             status := if truthy url then completed else failed |})
                (generatedVideos st)),
           [SceneSettled k], Resolved)
      | Some (Throw e) =>
          let mark_failed (s : State) :=
            set_videos s
              (update (id scene)
                 (fun v => {| sceneId := sceneId v; videoUrl := videoUrl v;
                              status := failed |})
                 (generatedVideos s)) in
          if credential_error e then
            let st1 := set_error st (Some advisory) in
            match aistudio with
            | Some a =>
                match openSelectKey a (FromScene k) with
                | Return _ =>
                    (mark_failed st1,
                     [SceneSettled k; OpenSelectKey (FromScene k)], Resolved)
                | Throw _ =>
                    (st1, [SceneSettled k; OpenSelectKey (FromScene k)], Rejected)
                end
            | None => (mark_failed st1, [SceneSettled k], Resolved)
            end
          else (mark_failed st, [SceneSettled k], Resolved)
      end
  end.

(** The callbacks, run in the order in which the scenes settle.  The
    first rejected callback rejects [Promise.all]: the outer [catch] and
    [finally] run then, while the other callbacks still run when their
    scene settles.  The flags tell whether a callback has rejected and
    whether one never finished. *)
Fixpoint settle_all (ratio : string) (validScenes : list VideoGenerationScene)
         (order : list nat) (st : State) (rejected pending : bool)
  : State * list Event * bool * bool :=
  match order with
  | [] => (st, [], rejected, pending)
  | k :: rest =>
      match nth_error validScenes k with
      | None => settle_all ratio validScenes rest st rejected pending
      | Some scene =>
          let '(st1, t1, h) := settle_scene ratio k scene st in
          let st2 :=
            match h with
            | Rejected =>
                if rejected then st1
                else set_generating (set_error st1 (Some unexpected)) false
            | _ => st1
            end in
          let rejected' := match h with Rejected => true | _ => rejected end in
          let pending' := match h with Pending => true | _ => pending end in
          let '(st3, t3, r3, p3) :=
            settle_all ratio validScenes rest st2 rejected' pending' in
          (st3, (t1 ++ t3)%list, r3, p3)
      end
  end.

(** The events of the synchronous start of every callback: its call of
    [generateVeoVideo]. *)
Fixpoint dispatch_all (k : nat) (validScenes : list VideoGenerationScene)
  : list Event :=
  match validScenes with
  | [] => []
  | scene :: rest =>
      match image scene with
      | Some _ => CallVeo k scene (finalPrompt scene) :: dispatch_all (S k) rest
      | None => dispatch_all (S k) rest
      end
  end.

(** [handleGenerate]; [order] is the order in which the dispatched scenes
    settle. *)
Definition handleGenerate (order : list nat) (st : State) : State * list Event :=
  let st0 := set_error st None in
  let validScenes := filter has_image (scenes st0) in
  if (List.length validScenes =? 0)%nat then
    (st0, [Alert "Please upload an image for at least one scene."])
  else
    let (keyReady, t0) := checkApiKey in
    if negb keyReady then (st0, t0)
    else
      let st1 :=
        set_videos (set_generating st0 true)
          (map (fun s => {| sceneId := id s; videoUrl := ""; status := generating |})
               validScenes) in
      let t1 := dispatch_all 0 validScenes in
      let '(st2, t2, rejected, pending) :=
        settle_all (aspectRatio st1) validScenes order st1 false false in
      let st3 :=
        if rejected then st2
        else if pending then st2
        else set_generating st2 false in
      (st3, (t0 ++ t1 ++ t2)%list).

End Run.

End Storyboard.

(* ------------------------------------------------------------------ *)
(** * Text generation: [generateCreativePrompt], [generateVideoScript],
      [generateBulkVariations] *)
(* ------------------------------------------------------------------ *)

Module Text.

(** The double quote and the line feed of the template literals. *)
Definition dq : string := String "034" "".
Definition nl : string := String "010" "".

(** A response schema of the SDK. *)
Inductive Schema :=
| STRING
| INTEGER
| NUMBER
| OBJECT (properties : list (string * Schema))
| ARRAY (items : Schema).

(** A [generateContent] request made of text only. *)
Record Request := {
  model : string;
  contents : string;
  systemInstruction : string;
  responseMimeType : option string;
  responseSchema : option Schema
}.

Definition Backend := Request -> Completion GenerateContentResponse.

(** The brand sentence appended to a system instruction. *)
Definition with_brand (systemInstruction : string)
           (brandProfile : option BrandProfile) : string :=
  match brandProfile with
  | Some bp => systemInstruction ++ " Brand Style: " ++ bp_style bp
               ++ ", Tone: " ++ bp_tone bp ++ "."
  | None => systemInstruction
  end.

Section CreativePrompt.
Variables (productDescription modelType mood pose background : string).
Variable brandProfile : option BrandProfile.
Variable analysisData : option Analysis.AnalysisResult.

(** [systemInstruction] of [generateCreativePrompt], brand sentence
    included. *)
Definition creative_instruction : string :=
  let derivedModelContext := Analysis.derivedModelContext modelType analysisData in
  let derivedAction := Analysis.derivedAction pose analysisData in
  with_brand
   (
    "You are an Adaptive Creative Director. " ++ nl ++
    "  Your goal is to generate a high-quality Image Prompt in **Indonesian (Bahasa Indonesia)** that perfectly fits the Product Type and Model Gender." ++
    nl ++ nl ++ "  **ADAPTIVE LOGIC (INTERNAL THOUGHT PROCESS):**" ++ nl ++
    "  1. **Analyze Product Category**: (" ++
    (or_else (option_map Analysis.productCategory analysisData) "General") ++
    "). " ++ nl ++ "     - If Shoes -> Focus on feet/legs." ++ nl ++
    "     - If Skincare -> Focus on face/skin." ++ nl ++
    "     - If Fashion -> Focus on outfit fit." ++ nl ++
    "  2. **Analyze Model Context**: (" ++ derivedModelContext ++ ")." ++
    nl ++
    "     - If Female -> Use feminine styling adjectives (elegant, soft, chic)." ++
    nl ++
    "     - If Male -> Use masculine styling adjectives (sharp, bold, rugged)." ++
    nl ++
    "  3. **Visual Cohesion**: Ensure the model's outfit MATCHES the product. (e.g. Don't put a model in a suit if the product is a gym bottle. Put them in sportswear)." ++
    nl ++ nl ++ "  STRICT FORMULA (Output Sequence):" ++ nl ++ "  " ++ dq ++
    "[Deskripsi Objek (Model + Pakaian Sesuai Produk)] + [Deskripsi Aksi Adaptif] + [Deskripsi Setting] + [Deskripsi Gaya] + [Kualitas Output]" ++
    dq ++ nl ++ "  " ++ nl ++ "  REFERENCE EXAMPLE:" ++ nl ++ "  " ++ dq ++
    "@img2 wanita muda mengenakan dress musim panas putih yang flowy, memegang botol sunscreen @img1. Aksi mengoleskan sedikit krim ke bahu dengan lembut. Pastikan ukuran botol proporsional. Framing medium shot. Latar belakang pantai tropis buram. Pencahayaan matahari alami (golden hour), estetik, fotorealistik 8k." ++
    dq ++ nl ++ "  " ++ nl ++ "  MANDATORY RULES:" ++ nl ++
    "  1. **Tags**: Use '@img1' (Product) and '@img2' (Model)." ++ nl ++
    "  2. **Clothing Intelligence**: You MUST invent the model's outfit based on the '" ++
    mood ++
    "' and Product Category. (e.g. Product is Sneakers -> Model wears streetwear/joggers. Product is Lipstick -> Model wears evening gown/top)." ++
    nl ++ "  3. **Proportions**: Include " ++ dq ++
    "Pastikan ukuran produk terlihat proporsional, tidak membesar." ++ dq ++
    nl ++ "  4. **Language**: Indonesian." ++ nl ++ "  " ++ nl ++
    "  Inputs:" ++ nl ++ "  - Product Info: " ++ productDescription ++ nl ++
    "  - Category: " ++
    (interpolate (option_map Analysis.productCategory analysisData)) ++ nl ++
    "  - Model Type: " ++ derivedModelContext ++ nl ++ "  - Action/Pose: " ++
    derivedAction ++ nl ++ "  - Environment: " ++ background ++ nl ++
    "  - Mood: " ++ mood ++ nl ++ "  " ++ nl ++
    "  Output only the final prompt string."
   ) brandProfile.

Definition creative_request : Request :=
  {| model := "gemini-3-flash-preview";
     contents := "Generate the adaptive prompt in Indonesian.";
     systemInstruction := creative_instruction;
     responseMimeType := None;
     responseSchema := None |}.

(** [generateCreativePrompt]: the text of the answer, or the fixed sentence
    when the text is falsy; a rejection of the call propagates. *)
Definition generateCreativePrompt (ai : Backend) : Completion string :=
  match ai creative_request with
  | Throw e => Throw e
  | Return response =>
      Return (or_else (response_text response) "Gagal membuat prompt.")
  end.
End CreativePrompt.

Section VideoScript.
Variables (productDescription usp mood : string).
Variable sceneCount : nat.
Variable brandProfile : option BrandProfile.

Definition script_instruction : string :=
  with_brand
   (
    "You are an expert Commercial Director. " ++ nl ++ "  Create a " ++
    (of_nat sceneCount) ++
    "-scene video storyboard for a short ad (Reels/TikTok style)." ++ nl ++
    "  " ++ nl ++ "  **NARRATIVE CONSISTENCY:**" ++ nl ++
    "  - Ensure the Story flows logically from Scene 1 to Scene " ++
    (of_nat sceneCount) ++ "." ++ nl ++
    "  - **CONSISTENT VISUALS:** The model, setting, and lighting MUST be described consistently across all scenes. If Scene 1 is a " ++
    dq ++ "Modern Kitchen" ++ dq ++
    ", Scene 2 must also be there (or a logical transition)." ++ nl ++
    "  " ++ nl ++ "  **OUTPUT REQUIREMENTS:**" ++ nl ++
    "  1. Generate exactly " ++ (of_nat sceneCount) ++ " scenes." ++ nl ++
    "  2. VO Language: Indonesian." ++ nl ++
    "  3. Duration: Recommend duration (3s, 5s, etc) summing to max 30-45s." ++
    nl ++
    "  4. **Visual Parameters:** Explicitly define the Shot Type (e.g., Close-Up), Angle, and specific Action." ++
    nl ++ "  " ++ nl ++ "  **VISUAL PROMPT FORMAT (visualPrompt field):**" ++
    nl ++ "  " ++ dq ++
    "Shot: [SHOT_TYPE]. Angle: [ANGLE]. Subject: [Consistent Model Description] [ACTION] with [PRODUCT]. Setting: [Consistent Background]. Lighting: [MOOD]. High Quality, 8k." ++
    dq ++ nl ++ "  " ++ nl ++
    "  *NOTE:* Do not use @img1 tags in 'shotType', 'cameraAngle', or 'actionDescription' fields. Use them in 'visualPrompt' if needed." ++
    nl ++ "  "
   ) brandProfile.

Definition script_request : Request :=
  {| model := "gemini-3-flash-preview";
     contents := "Product: " ++ productDescription ++ ". USP: " ++ usp
                 ++ ". Mood: " ++ mood ++ ". Generate " ++ of_nat sceneCount
                 ++ " scenes.";
     systemInstruction := script_instruction;
     responseMimeType := Some "application/json";
     responseSchema :=
       Some (ARRAY (OBJECT [("sceneNumber", INTEGER); ("shotType", STRING);
                            ("cameraAngle", STRING); ("actionDescription", STRING);
                            ("visualPrompt", STRING); ("voiceOver", STRING);
                            ("duration", NUMBER)])) |}.

(** [generateVideoScript]: the parsed text, the text being the literal of
    the empty array when it is falsy; the empty array when parsing
    throws. *)
Definition generateVideoScript (ai : Backend) : Completion Json.Value :=
  match ai script_request with
  | Throw e => Throw e
  | Return response =>
      match Json.parse (or_else (response_text response) "[]") with
      | Return v => Return v
      | Throw _ => Return (Json.Array [])
      end
  end.
End VideoScript.

Inductive Mode := photo | video.

(** [baseData] of [generateBulkVariations], with its optional fields. *)
Record BaseData := {
  bd_productDescription : string;
  bd_modelDescription : option string;
  bd_mood : string;
  bd_pose : option string;
  bd_sceneCount : option nat;
  bd_usp : option string
}.

Section BulkVariations.
Variable mode : Mode.
Variable quantity : nat.
Variable baseData : BaseData.
Variable brandProfile : option BrandProfile.

Definition bulk_photo_instruction : string :=
  ("You are a Bulk Prompt Generator." ++ nl ++ "    Task: Generate " ++
    (of_nat quantity) ++
    " distinct image prompts in **Indonesian** following this STRICT structure:" ++
    nl ++ "    " ++ nl ++
    "    Structure: [Deskripsi Objek] + [Deskripsi Aksi] + [Deskripsi Setting] + [Deskripsi Gaya] + [Kualitas Output]" ++
    nl ++ "    " ++ nl ++ "    RULES:" ++ nl ++
    "    1. Use '@img1' for product and '@img2' for model." ++ nl ++
    "    2. Include " ++ dq ++ "Pastikan ukuran produk proporsional" ++ dq ++
    " in every prompt." ++ nl ++ "    3. KEEP POSE EXACTLY: " ++ dq ++
    (interpolate (bd_pose baseData)) ++ dq ++ ". " ++ nl ++
    "    4. VARY: Background, Lighting, Camera Angle, and CRITICALLY: The Model's Clothing (Outfit)." ++
    nl ++ "    5. Output in Indonesian." ++ nl ++ "    " ++ nl ++
    "    Inputs:" ++ nl ++ "    Product: " ++
    (bd_productDescription baseData) ++ nl ++ "    Model: " ++
    (interpolate (bd_modelDescription baseData)) ++ nl ++ "    Mood: " ++
    (bd_mood baseData) ++ nl ++ "    ").

Definition bulk_video_instruction : string :=
  ("You are a Bulk Video Script Generator." ++ nl ++
    "    Task: Generate " ++ (of_nat quantity) ++
    " DIFFERENT video ad concepts." ++ nl ++ "    " ++ nl ++
    "    Constraints:" ++ nl ++ "    1. Each Script Scenes: " ++
    (interpolate (option_map of_nat (bd_sceneCount baseData))) ++ "." ++
    nl ++
    "    2. VO Language: Indonesian (Natural Speech, NO tags like @img1)." ++
    nl ++ "    3. VO Length: 20-25 words per scene." ++ nl ++
    "    4. VISUAL PROMPT FORMAT (Strict): " ++ dq ++
    "buat model berbicara '[VO_TEXT]'. jangan ada teks atau gambar dan musik dividio ini, buat vidio serealistis mungkin tanpa mengubah detail model dan produk." ++
    dq ++ nl ++ "    ").

Definition bulk_request : Request :=
  match mode with
  | photo =>
      {| model := "gemini-3-flash-preview";
         contents := "Generate " ++ of_nat quantity ++ " variations now.";
         systemInstruction := bulk_photo_instruction;
         responseMimeType := Some "application/json";
         responseSchema :=
           Some (ARRAY (OBJECT [("variationId", INTEGER); ("prompt", STRING)])) |}
  | video =>
      {| model := "gemini-3-flash-preview";
         contents := "Product: " ++ bd_productDescription baseData ++ ". USP: "
                     ++ interpolate (bd_usp baseData) ++ ". Mood: "
                     ++ bd_mood baseData ++ ". Generate " ++ of_nat quantity
                     ++ " full scripts.";
         systemInstruction := bulk_video_instruction;
         responseMimeType := Some "application/json";
         responseSchema :=
           Some (ARRAY (OBJECT [("scriptId", INTEGER); ("conceptName", STRING);
                                ("scenes",
                                 ARRAY (OBJECT [("sceneNumber", INTEGER);
                                                ("visualPrompt", STRING);
                                                ("voiceOver", STRING)]))])) |}
  end.

(** [generateBulkVariations]: in both modes the parsed text, the text being
    the literal of the empty array when it is falsy; there is no [try], a
    parse error rejects the promise. *)
Definition generateBulkVariations (ai : Backend) : Completion Json.Value :=
  match ai bulk_request with
  | Throw e => Throw e
  | Return response => Json.parse (or_else (response_text response) "[]")
  end.
End BulkVariations.

End Text.

(* ------------------------------------------------------------------ *)
(** * Scene visuals: [generateSceneVisual] *)
(* ------------------------------------------------------------------ *)

Module SceneVisual.

Section Visual.
Variable ai : GenerateContentRequest -> Completion GenerateContentResponse.
Variable scenePrompt : string.
Variables (img1Base64 img2Base64 : option string).
Variable ratio : string.

(** [parts]: an image part for each image that is truthy, then the prompt
    with its fixed ending. *)
Definition visual_parts : list Part :=
  let parts : list Part := [] in
  let parts :=
    if truthy img1Base64
    then (parts ++ [InlineData "image/jpeg" (cleanBase64 (interpolate img1Base64))])%list
    else parts in
  let parts :=
    if truthy img2Base64
    then (parts ++ [InlineData "image/jpeg" (cleanBase64 (interpolate img2Base64))])%list
    else parts in
  let robustPrompt := scenePrompt ++ ". Photorealistic, 8k, seamless composition." in
  (parts ++ [Text robustPrompt])%list.

Definition visual_request : GenerateContentRequest :=
  {| req_model := "gemini-2.5-flash-image";
     req_parts := visual_parts;
     req_aspectRatio := Some ratio |}.

(** [generateSceneVisual]: the first inline image of the answer as a data
    URI; [null] when there is none and when the call throws. *)
Definition generateSceneVisual : option string :=
  match ai visual_request with
  | Return response => first_inline_image (response_parts response)
  | Throw _ => None
  end.
End Visual.

End SceneVisual.

(* ------------------------------------------------------------------ *)
(** * Storyboard editing: [addScene], [removeScene], [updateScene] *)
(* ------------------------------------------------------------------ *)

Module SceneEditor.

(** The storyboard a component starts with. *)
Definition initial_scenes : list Storyboard.VideoGenerationScene :=
  [{| Storyboard.id := "1"; Storyboard.image := None;
      Storyboard.motionPrompt := "" |}].

(** [addScene]; [now] is [Date.now().toString()]. *)
Definition addScene (now : string) (scenes : list Storyboard.VideoGenerationScene)
  : list Storyboard.VideoGenerationScene :=
  if (5 <=? List.length scenes)%nat then scenes
  else (scenes ++ [{| Storyboard.id := now; Storyboard.image := None;
                      Storyboard.motionPrompt := "" |}])%list.

(** [removeScene] *)
Definition removeScene (id : string) (scenes : list Storyboard.VideoGenerationScene)
  : list Storyboard.VideoGenerationScene :=
  if (List.length scenes <=? 1)%nat then scenes
  else filter (fun s => negb (Storyboard.id s =? id)) scenes.

(** The two fields [updateScene] can write, with the value written. *)
Inductive Field :=
| image (value : option Storyboard.UploadedAsset)
| motionPrompt (value : string).

(** [updateScene] *)
Definition updateScene (id : string) (field : Field)
           (scenes : list Storyboard.VideoGenerationScene)
  : list Storyboard.VideoGenerationScene :=
  map (fun s =>
         if Storyboard.id s =? id then
           match field with
           | image value =>
               {| Storyboard.id := Storyboard.id s; Storyboard.image := value;
                  Storyboard.motionPrompt := Storyboard.motionPrompt s |}
           | motionPrompt value =>
               {| Storyboard.id := Storyboard.id s;
                  Storyboard.image := Storyboard.image s;
                  Storyboard.motionPrompt := value |}
           end
         else s) scenes.

(** An action of the user on the storyboard. *)
Inductive Action :=
| Add (now : string)
| Remove (id : string)
| Update (id : string) (field : Field).

Definition act (scenes : list Storyboard.VideoGenerationScene) (a : Action)
  : list Storyboard.VideoGenerationScene :=
  match a with
  | Add now => addScene now scenes
  | Remove id => removeScene id scenes
  | Update id field => updateScene id field scenes
  end.

End SceneEditor.

(* ------------------------------------------------------------------ *)
(** * Composition suite: [handleMerge], [handleDownloadAll] *)
(* ------------------------------------------------------------------ *)

Module Composition.

(** An uploaded asset, as [generateCompositeImage] reads it: its [base64]
    and its [tag]. *)
Definition Asset : Type := (string * string)%type.

Record State := {
  img1 : option Asset;
  img2 : option Asset;
  img3 : option Asset;
  ratio : string;
  customPrompt : string;
  quantity : nat;
  isProcessing : bool;
  results : list string
}.

Inductive Event :=
| Alert (msg : string)
| DeductCredits (amount : nat)
| Backend (e : Batch.Event).

(** [assets]: the images that are set, in the order 1, 2, 3. *)
Definition assets (st : State) : list Asset :=
  let push (a : option Asset) (l : list Asset) :=
    match a with Some x => (l ++ [x])%list | None => l end in
  push (img3 st) (push (img2 st) (push (img1 st) [])).

Definition promptInstruction (st : State) : string :=
  let p := "Create a perfectly blended, photorealistic composition. Match lighting, shadows, and perspective seamlessly." in
  if truthy (Some (customPrompt st))
  then p ++ " Scene Details: " ++ customPrompt st ++ "."
  else p.

Definition set_run (st : State) (processing : bool) (urls : list string) : State :=
  {| img1 := img1 st; img2 := img2 st; img3 := img3 st; ratio := ratio st;
     customPrompt := customPrompt st; quantity := quantity st;
     isProcessing := processing; results := urls |}.

(** [handleMerge]; [None] when the fuel of the batching loop runs out. *)
Definition handleMerge (ai : Batch.Backend) (sched : list nat -> list nat)
           (fuel : nat) (brandProfile : option BrandProfile) (st : State)
  : option (State * list Event) :=
  if (List.length (assets st) <? 1)%nat then
    Some (st, [Alert "Please upload at least the product asset (@img1)."])
  else
    let st1 := set_run st true [] in
    let t1 := [DeductCredits (10 * quantity st)] in
    match Batch.generateCompositeImage ai (assets st) (promptInstruction st)
            (ratio st) brandProfile sched (quantity st) fuel with
    | None => None
    | Some (Return urls, bst) =>
        Some (set_run st1 false urls, (t1 ++ map Backend (Batch.trace bst))%list)
    | Some (Throw _, bst) =>
        Some (set_run st1 false (results st1),
              (t1 ++ map Backend (Batch.trace bst)
                  ++ [Alert "Composition failed. Please try again."])%list)
    end.

(** A download started by [handleDownload]: the link's [href] and
    [download] name. *)
Record Download := { href : string; download : string }.

Definition handleDownload (url : string) (index : nat) : Download :=
  {| href := url;
     download := "Composition_Result_" ++ of_nat (index + 1) ++ ".png" |}.

(** [results.forEach((url, i) => setTimeout(() => handleDownload(url, i),
    i * 500))], from the index [i] on: the delay of each timer and the
    download it starts. *)
Fixpoint schedule_downloads (i : nat) (urls : list string)
  : list (nat * Download) :=
  match urls with
  | [] => []
  | url :: rest => (i * 500, handleDownload url i) :: schedule_downloads (S i) rest
  end.

Definition handleDownloadAll (st : State) : list (nat * Download) :=
  schedule_downloads 0 (results st).

End Composition.

(* ------------------------------------------------------------------ *)
(** * Notions used to state the properties *)
(* ------------------------------------------------------------------ *)

Close Scope list_scope.
Open Scope list_scope.
Unset Implicit Arguments.

(** [ceil (a / b)] on naturals. *)
Definition ceil_div (a b : nat) : nat := (a + (b - 1)) / b.
Arguments ceil_div : simpl never.

(** The [k]-th group of a run of [quantity] items: the indices from
    [BATCH_SIZE * k], at most [BATCH_SIZE] of them. *)
Definition chunk (quantity k : nat) : list nat :=
  seq (Batch.BATCH_SIZE * k)
      (Nat.min Batch.BATCH_SIZE (quantity - Batch.BATCH_SIZE * k)).

(** The groups of a run, in closed form. *)
Definition partition (quantity : nat) : list (list nat) :=
  map (chunk quantity) (seq 0 (ceil_div quantity 4)).

(** The effect of one group on the state of the loop. *)
Definition apply_group (single : nat -> option string)
           (sched : list nat -> list nat)
           (st : Batch.State) (g : list nat) : Batch.State :=
  {| Batch.generatedUrls :=
       Batch.collect (Batch.generatedUrls st) (map single g);
     Batch.trace :=
       Batch.trace st ++ map Batch.Dispatch g ++ map Batch.Settle (sched g);
     Batch.groups := Batch.groups st ++ [g] |}.

(** The events of one group: every call is sent, then every call settles. *)
Definition group_trace (sched : list nat -> list nat) (g : list nat)
  : list Batch.Event :=
  map Batch.Dispatch g ++ map Batch.Settle (sched g).

(** What [forEach] pushes for one result. *)
Definition kept (r : option string) : list string :=
  if truthy r then [match r with Some u => u | None => "" end] else [].

(** [x] occurs in [t] strictly before [y]. *)
Definition before {A : Type} (x y : A) (t : list A) : Prop :=
  exists t1 t2 t3, t = (t1 ++ x :: t2 ++ y :: t3)%list.

(** The artifacts of the items [0 .. quantity-1] that produced one, in index
    order. *)
Definition successes (single : nat -> option string) (quantity : nat)
  : list string :=
  flat_map (fun i => match single i with Some u => [u] | None => [] end)
           (seq 0 quantity).

(** The grouping and sequencing of a finished batch run. *)
Record well_grouped (quantity : nat) (st : Batch.State) : Prop := {
  wg_count : List.length (Batch.groups st) = ceil_div quantity Batch.BATCH_SIZE;
  wg_cover : List.concat (Batch.groups st) = seq 0 quantity;
  wg_size : Forall (fun g => 1 <= List.length g <= Batch.BATCH_SIZE)
                   (Batch.groups st);
  wg_once : NoDup (Batch.trace st);
  wg_all : forall i, i < quantity ->
      In (Batch.Dispatch i) (Batch.trace st) /\ In (Batch.Settle i) (Batch.trace st);
  wg_order : forall k k' ga gb a b,
      k < k' ->
      nth_error (Batch.groups st) k = Some ga ->
      nth_error (Batch.groups st) k' = Some gb ->
      In a ga -> In b gb ->
      before (Batch.Settle a) (Batch.Dispatch b) (Batch.trace st)
}.

Definition is_inline (p : Part) : bool :=
  match p with InlineData _ _ => true | Text _ => false end.

(** The artifact of an item, read off the outcome of its call: when the
    call returns and the parts of the first candidate hold inline data, the
    data of the first such part as a PNG data URI; none when the call
    throws or the answer holds no inline data. *)
Definition artifact (outcome : Completion GenerateContentResponse)
  : option string :=
  match outcome with
  | Return {| candidates :=
                Some ({| content := Some {| parts := Some ps |} |} :: _) |} =>
      match find is_inline ps with
      | Some (InlineData _ data) => Some ("data:image/png;base64," ++ data)%string
      | _ => None
      end
  | _ => None
  end.

(** The artifacts of the items [0 .. quantity-1], in index order; an item
    without artifact leaves no entry. *)
Definition artifacts (outcomes : nat -> Completion GenerateContentResponse)
           (quantity : nat) : list string :=
  flat_map (fun i => match artifact (outcomes i) with
                     | Some u => [u]
                     | None => []
                     end)
           (seq 0 quantity).

(** A backend for the examples: the items whose index is in [bad] reject,
    the others answer with one inline image named after the index. *)
Definition sample_backend (bad : list nat) : Batch.Backend :=
  fun i _ =>
    if existsb (Nat.eqb i) bad then Throw (new_Error "503")
    else Return {| candidates :=
                     Some [{| content :=
                                Some {| parts := Some [Text "ok";
                                                       InlineData "image/png" (of_nat i)] |} |}];
                   response_text := None |}.

(** [b] accepts the request, answers the first [n] status re-fetches with
    the handles [s 1 .. s n], and [s n] is the first handle that is done. *)
Definition completes_at (b : Veo.Backend) (req : Veo.VideosRequest)
           (s : nat -> Veo.Operation) (n : nat) : Prop :=
  Veo.generateVideos b req = Return (s 0)
  /\ (forall i, i < n ->
        Veo.done (s i) = false
        /\ Veo.getVideosOperation b i (s i) = Return (s (S i)))
  /\ Veo.done (s n) = true.

(** The events of [n] polling cycles from the [i]-th re-fetch on. *)
Definition polling_trace (i n : nat) : list Veo.Event :=
  flat_map (fun j => [Veo.Delay 5000; Veo.Refetch j]) (seq i n).

(** A handle for the examples: done or not, with a video whose URI is [u]
    once it is done. *)
Definition sample_operation (d : bool) (u : option string) : Veo.Operation :=
  {| Veo.done := d;
     Veo.response :=
       if d then Some {| Veo.generatedVideos :=
                           Some [{| Veo.video := Some {| Veo.uri := u |} |}] |}
       else None |}.

(** A video backend for the examples: the operation is done from the
    [pending]-th status re-fetch on. *)
Definition sample_veo (pending : nat) (u : option string) : Veo.Backend :=
  {| Veo.generateVideos := fun _ => Return (sample_operation (pending <=? 0)%nat u);
     Veo.getVideosOperation :=
       fun n _ => Return (sample_operation (pending <=? S n)%nat u) |}.

(** [generateVeoVideo] as the storyboard sees it: the job of the [k]-th
    dispatched scene runs against its own backend. *)
Definition veo_outcomes (backends : nat -> Veo.Backend) (API_KEY : option string)
           (fuel : nat)
  : nat -> string -> string -> string -> option (Completion (option string)) :=
  fun k imageBase64 prompt ratio =>
    option_map fst
      (Veo.generateVeoVideo (backends k) API_KEY fuel imageBase64 prompt ratio).

Definition is_call (e : Storyboard.Event) : bool :=
  match e with Storyboard.CallVeo _ _ _ => true | _ => false end.

(** The calls of [generateVeoVideo] in a trace, in order. *)
Definition calls (t : list Storyboard.Event) : list Storyboard.Event :=
  filter is_call t.

(** One call per scene of [l], numbered from [k], in order. *)
Definition one_call_each (brandProfile : option BrandProfile) (k : nat)
           (l : list Storyboard.VideoGenerationScene) : list Storyboard.Event :=
  map (fun p => Storyboard.CallVeo (fst p) (snd p)
                  (Storyboard.finalPrompt brandProfile (snd p)))
      (combine (seq k (List.length l)) l).

(** A run of [handleGenerate] starts when some scene has an image and the
    key check passes. *)
Definition started (aistudio : option Storyboard.AiStudio)
           (st : Storyboard.State) : bool :=
  negb (List.length (filter Storyboard.has_image (Storyboard.scenes st)) =? 0)%nat
  && fst (Storyboard.checkApiKey aistudio).

(** Every entry of the collection for the scene [sid] has the status [x]. *)
Definition all_status (x : Storyboard.Status) (sid : string)
           (vs : list Storyboard.GeneratedVideoResult) : Prop :=
  forall v, In v vs -> Storyboard.sceneId v = sid -> Storyboard.status v = x.

(** The entries of the collection for the scene [sid]. *)
Definition entries (sid : string) (vs : list Storyboard.GeneratedVideoResult)
  : list Storyboard.GeneratedVideoResult :=
  filter (fun v => Storyboard.sceneId v =? sid)%string vs.

(** The call of [generateVeoVideo] for the [k]-th dispatched scene. *)
Definition is_call_for (k : nat) (e : Storyboard.Event) : bool :=
  match e with Storyboard.CallVeo j _ _ => (j =? k)%nat | _ => false end.

(** The key prompt made by the error handler of the [k]-th dispatched
    scene. *)
Definition is_prompt_for (k : nat) (e : Storyboard.Event) : bool :=
  match e with
  | Storyboard.OpenSelectKey (Storyboard.FromScene j) => (j =? k)%nat
  | _ => false
  end.

(** The host's key prompt, where there is one, resolves for every scene. *)
Definition prompts_resolve (aistudio : option Storyboard.AiStudio) : Prop :=
  forall a j, aistudio = Some a ->
              Storyboard.openSelectKey a (Storyboard.FromScene j) = Return tt.

(** The state after the failing callback of a scene that does not prompt:
    the entries of the scene are marked failed, nothing else changes. *)
Definition mark_failed (sid : string) (s : Storyboard.State) : Storyboard.State :=
  Storyboard.set_videos s
    (Storyboard.update sid
       (fun v => {| Storyboard.sceneId := Storyboard.sceneId v;
                    Storyboard.videoUrl := Storyboard.videoUrl v;
                    Storyboard.status := Storyboard.failed |})
       (Storyboard.generatedVideos s)).

(** Scenes and a component state for the examples. *)
Definition sample_scene (i : string) (with_image : bool)
  : Storyboard.VideoGenerationScene :=
  {| Storyboard.id := i;
     Storyboard.image := if with_image
                         then Some {| Storyboard.base64 := "QUJD" |} else None;
     Storyboard.motionPrompt := "" |}.

Definition sample_state (l : list Storyboard.VideoGenerationScene)
  : Storyboard.State :=
  {| Storyboard.scenes := l;
     Storyboard.aspectRatio := "9:16";
     Storyboard.isGenerating := false;
     Storyboard.generatedVideos := [];
     Storyboard.errorMsg := None |}.

Definition entity_not_found : Error :=
  new_Error "Requested entity was not found.".

(** A host for the examples: a key is selected and the prompt resolves. *)
Definition sample_host : Storyboard.AiStudio :=
  {| Storyboard.hasSelectedApiKey := Return true;
     Storyboard.openSelectKey := fun _ => Return tt |}.

(** Job outcomes for the examples: the first dispatched scene fails with the
    entity-not-found error, the others complete. *)
Definition sample_jobs
  : nat -> string -> string -> string -> option (Completion (option string)) :=
  fun k _ _ _ =>
    match k with
    | 0 => Some (Throw entity_not_found)
    | _ => Some (Return (Some "https://video.example/v?alt=media&key=K"))
    end.

(** Three scenes, the second without image. *)
Definition sample_storyboard : Storyboard.State :=
  sample_state [sample_scene "1" true; sample_scene "2" false; sample_scene "3" true].

(** The four headers [cleanBase64] recognises. *)
Definition image_headers : list string :=
  ["data:image/png;base64,"; "data:image/jpeg;base64,";
   "data:image/jpg;base64,"; "data:image/webp;base64,"]%string.

Definition is_text (p : Part) : Prop := exists t, p = Text t.

(** [b] accepts the request, answers the first [n] status re-fetches with
    handles that are not done, and rejects the next one with [e]. *)
Definition fails_at (b : Veo.Backend) (req : Veo.VideosRequest)
           (s : nat -> Veo.Operation) (n : nat) (e : Error) : Prop :=
  Veo.generateVideos b req = Return (s 0)
  /\ (forall i, i < n ->
        Veo.done (s i) = false
        /\ Veo.getVideosOperation b i (s i) = Return (s (S i)))
  /\ Veo.done (s n) = false
  /\ Veo.getVideosOperation b n (s n) = Throw e.

(** [b] accepts the request with a handle that is not done and never
    reports a handle that is. *)
Definition never_done (b : Veo.Backend) (req : Veo.VideosRequest) : Prop :=
  (exists o, Veo.generateVideos b req = Return o /\ Veo.done o = false)
  /\ forall j o, exists o', Veo.getVideosOperation b j o = Return o'
                            /\ Veo.done o' = false.

(** The invariant of the storyboard under editing: distinct identities,
    between one and five scenes. *)
Definition editable (scenes : list Storyboard.VideoGenerationScene) : Prop :=
  NoDup (map Storyboard.id scenes) /\ 1 <= List.length scenes <= 5.

(** Every scene added by the actions gets an identity that is not in use
    when it is added. *)
Fixpoint fresh_ids (scenes : list Storyboard.VideoGenerationScene)
         (actions : list SceneEditor.Action) : Prop :=
  match actions with
  | [] => True
  | a :: rest =>
      match a with
      | SceneEditor.Add now => ~ In now (map Storyboard.id scenes)
      | _ => True
      end
      /\ fresh_ids (SceneEditor.act scenes a) rest
  end.

Definition is_deduction (e : Composition.Event) : bool :=
  match e with Composition.DeductCredits _ => true | _ => false end.

Definition is_backend (e : Composition.Event) : bool :=
  match e with Composition.Backend _ => true | _ => false end.

(** A text backend for the examples: it answers every request with the
    given text. *)
Definition sample_text (text : option string) : Text.Backend :=
  fun _ => Return {| candidates := None; response_text := text |}.

(** A video backend for the examples: the statuses are not done and the
    third re-fetch is rejected. *)
Definition sample_failing_veo : Veo.Backend :=
  {| Veo.generateVideos := fun _ => Return (sample_operation false None);
     Veo.getVideosOperation :=
       fun n _ => if (n <? 2)%nat then Return (sample_operation false None)
                  else Throw (new_Error "quota exceeded") |}.

(** A video backend for the examples: never done. *)
Definition sample_stuck_veo : Veo.Backend :=
  {| Veo.generateVideos := fun _ => Return (sample_operation false None);
     Veo.getVideosOperation := fun _ _ => Return (sample_operation false None) |}.

(** No entry of the collection for the scene [sid] is still generating. *)
Definition settled (sid : string) (vs : list Storyboard.GeneratedVideoResult)
  : Prop :=
  forall v, In v vs -> Storyboard.sceneId v = sid ->
            Storyboard.status v <> Storyboard.generating.

(** The number of calls sent, and of calls settled, in a trace of a batch
    run. *)
Definition sent (t : list Batch.Event) : nat :=
  List.length (filter (fun e => match e with Batch.Dispatch _ => true
                                        | Batch.Settle _ => false end) t).

Definition done_calls (t : list Batch.Event) : nat :=
  List.length (filter (fun e => match e with Batch.Settle _ => true
                                        | Batch.Dispatch _ => false end) t).

(** The letters A-Z in lower case, every other character as it is. *)
Definition lower_ascii (c : ascii) : ascii :=
  let n := nat_of_ascii c in
  if ((65 <=? n)%nat && (n <=? 90)%nat)%bool then ascii_of_nat (n + 32) else c.

Fixpoint lower_text (s : string) : string :=
  match s with
  | EmptyString => EmptyString
  | String c s' => String (lower_ascii c) (lower_text s')
  end.

(** A text of ASCII characters only. *)
Fixpoint is_ascii (s : string) : bool :=
  match s with
  | EmptyString => true
  | String c s' => (N_of_ascii c <? 128)%N && is_ascii s'
  end.

(** Two characters that are equal, the case of a letter A-Z apart. *)
Definition same_letter (a b : ascii) : bool :=
  Ascii.eqb (lower_ascii a) (lower_ascii b).

(** [k] is the beginning of [s], the case of letters apart. *)
Fixpoint begins_with (k s : string) : bool :=
  match k, s with
  | EmptyString, _ => true
  | String _ _, EmptyString => false
  | String a k', String b s' => same_letter a b && begins_with k' s'
  end.

(** [k] occurs in [s], the case of letters apart. *)
Fixpoint mentions (k s : string) : bool :=
  begins_with k s ||
  match s with
  | EmptyString => false
  | String _ s' => mentions k s'
  end.

(** The keyword classes as the specification names them, in its order of
    precedence, each with the phrase of its branch. *)
Definition named_classes : list (list string * string) :=
  [ (["footwear"], Analysis.footwear_action);
    (["skincare"; "cosmetic"], Analysis.skincare_action);
    (["apparel"; "fashion"], Analysis.apparel_action);
    (["beverage"; "food"], Analysis.beverage_action) ]%string.

(** The same classes with the keywords the program looks for. *)
Definition keyword_classes : list (list string * string) :=
  [ (["shoe"; "footwear"], Analysis.footwear_action);
    (["skincare"; "cosmetic"], Analysis.skincare_action);
    (["clothing"; "fashion"], Analysis.apparel_action);
    (["beverage"; "food"], Analysis.beverage_action) ]%string.

(** The phrase of the first class, in the order of the list, one of whose
    keywords occurs; the generic phrase when there is none. *)
Fixpoint select_action (occurs : string -> bool)
         (classes : list (list string * string)) : string :=
  match classes with
  | [] => Analysis.generic_action
  | (keywords, phrase) :: rest =>
      if existsb occurs keywords then phrase else select_action occurs rest
  end.

(** Analysis data for the examples, with the given category. *)
Definition sample_analysis (category : string) : Analysis.AnalysisResult :=
  {| Analysis.description := "A product"; Analysis.usp := "Durable";
     Analysis.productCategory := category; Analysis.targetGender := "Unisex" |}.

(* ------------------------------------------------------------------ *)
(** * Facts about the batching loop *)
(* ------------------------------------------------------------------ *)

Lemma ceil_div_4_bounds (q : nat) :
  q <= 4 * ceil_div q 4 /\ 4 * ceil_div q 4 < q + 4.
Proof.
  unfold ceil_div. simpl (4 - 1).
  pose proof (Nat.div_mod_eq (q + 3) 4) as E.
  pose proof (Nat.mod_upper_bound (q + 3) 4) as B.
  lia.
Qed.

(** [ceil_div q 4] is the least number of windows of four that hold [q]. *)
Lemma ceil_div_4_least (q n : nat) : q <= 4 * n <-> ceil_div q 4 <= n.
Proof.
  pose proof (ceil_div_4_bounds q). lia.
Qed.

Section BatchFacts.

Variable single : nat -> option string.
Variable sched : list nat -> list nat.
Variable quantity : nat.

Import Batch.

Lemma batchPromises_seq (k i j : nat) :
  batchPromises quantity k i j = seq (i + j) (Nat.min k (quantity - (i + j))).
Proof.
  revert j. induction k as [|k IH]; intros j; cbn [batchPromises].
  - reflexivity.
  - destruct (Nat.ltb_spec (i + j) quantity) as [H|H].
    + rewrite IH. replace (i + S j) with (S (i + j)) by lia.
      replace (Nat.min (S k) (quantity - (i + j)))
        with (S (Nat.min k (quantity - S (i + j)))) by lia.
      reflexivity.
    + replace (Nat.min (S k) (quantity - (i + j))) with 0 by lia.
      reflexivity.
Qed.

Lemma group_step_chunk (k : nat) (st : State) :
  group_step single sched quantity (4 * k) st
  = apply_group single sched st (chunk quantity k).
Proof.
  unfold group_step, apply_group, chunk.
  rewrite batchPromises_seq. rewrite Nat.add_0_r. reflexivity.
Qed.

Lemma batch_loop_fold (fuel k : nat) (st : State) :
  ceil_div quantity 4 - k <= fuel ->
  batch_loop single sched quantity fuel (4 * k) st
  = Some (fold_left (apply_group single sched)
                    (map (chunk quantity) (seq k (ceil_div quantity 4 - k))) st).
Proof.
  pose proof (ceil_div_4_bounds quantity) as B.
  revert k st. induction fuel as [|fuel IH]; intros k st Hf;
    cbn [batch_loop];
    destruct (Nat.ltb_spec (4 * k) quantity) as [H|H].
  - lia.
  - replace (ceil_div quantity 4 - k) with 0 by lia. reflexivity.
  - unfold BATCH_SIZE. replace (4 * k + 4) with (4 * S k) by lia.
    rewrite group_step_chunk, IH by lia.
    replace (ceil_div quantity 4 - k) with (S (ceil_div quantity 4 - S k)) by lia.
    reflexivity.
  - replace (ceil_div quantity 4 - k) with 0 by lia. reflexivity.
Qed.

Lemma collect_app (urls : list string) (rs : list (option string)) :
  collect urls rs = urls ++ flat_map kept rs.
Proof.
  revert urls. induction rs as [|r rs IH]; intros urls; simpl.
  - now rewrite app_nil_r.
  - rewrite IH. unfold kept at 2. destruct (truthy r).
    + now rewrite <- app_assoc.
    + reflexivity.
Qed.

Lemma fold_groups (G : list (list nat)) (st : State) :
  groups (fold_left (apply_group single sched) G st) = groups st ++ G.
Proof.
  revert st. induction G as [|g G IH]; intros st; simpl.
  - now rewrite app_nil_r.
  - rewrite IH. simpl. now rewrite <- app_assoc.
Qed.

Lemma fold_trace (G : list (list nat)) (st : State) :
  trace (fold_left (apply_group single sched) G st) = trace st ++ flat_map (group_trace sched) G.
Proof.
  revert st. induction G as [|g G IH]; intros st; simpl.
  - now rewrite app_nil_r.
  - rewrite IH. simpl. unfold group_trace. now rewrite <- !app_assoc.
Qed.

Lemma fold_urls (G : list (list nat)) (st : State) :
  generatedUrls (fold_left (apply_group single sched) G st)
  = generatedUrls st ++ flat_map kept (map single (List.concat G)).
Proof.
  revert st. induction G as [|g G IH]; intros st; simpl.
  - now rewrite app_nil_r.
  - rewrite IH. simpl. rewrite collect_app, map_app, flat_map_app.
    now rewrite <- app_assoc.
Qed.

End BatchFacts.

Section Partition.

Variable quantity : nat.

Lemma chunk_length (k : nat) :
  k < ceil_div quantity 4 -> 1 <= List.length (chunk quantity k) <= 4.
Proof.
  intros Hk. pose proof (ceil_div_4_bounds quantity) as B.
  unfold chunk, Batch.BATCH_SIZE. rewrite length_seq. lia.
Qed.

Lemma concat_chunks (n : nat) :
  n <= ceil_div quantity 4 ->
  List.concat (map (chunk quantity) (seq 0 n)) = seq 0 (Nat.min (4 * n) quantity).
Proof.
  pose proof (ceil_div_4_bounds quantity) as B.
  induction n as [|n IH]; intros Hn.
  - reflexivity.
  - rewrite seq_S, map_app, concat_app, IH by lia.
    cbn [map List.concat Nat.add]. rewrite app_nil_r.
    unfold chunk, Batch.BATCH_SIZE.
    replace (Nat.min (4 * n) quantity) with (4 * n) by lia.
    replace (Nat.min (4 * S n) quantity)
      with (4 * n + Nat.min 4 (quantity - 4 * n)) by lia.
    rewrite seq_app. reflexivity.
Qed.

Lemma partition_cover : List.concat (partition quantity) = seq 0 quantity.
Proof.
  pose proof (ceil_div_4_bounds quantity) as B.
  unfold partition. rewrite concat_chunks by lia.
  f_equal. lia.
Qed.

Lemma partition_sizes :
  Forall (fun g => 1 <= List.length g <= Batch.BATCH_SIZE) (partition quantity).
Proof.
  unfold partition. apply Forall_forall. intros g Hg.
  apply in_map_iff in Hg. destruct Hg as (k & <- & Hk).
  apply in_seq in Hk. apply chunk_length. lia.
Qed.

End Partition.

Section TraceFacts.

Variable sched : list nat -> list nat.
Hypothesis sched_perm : forall l, Permutation (sched l) l.

Import Batch.

Lemma trace_perm (G : list (list nat)) :
  Permutation (flat_map (group_trace sched) G)
              (map Dispatch (List.concat G) ++ map Settle (List.concat G)).
Proof.
  induction G as [|g G IH]; cbn [flat_map List.concat].
  - constructor.
  - unfold group_trace at 1. rewrite !map_app, <- !app_assoc.
    apply Permutation_app_head.
    transitivity (map Settle g ++ map Dispatch (List.concat G)
                    ++ map Settle (List.concat G)).
    + apply Permutation_app; [apply Permutation_map, sched_perm | exact IH].
    + apply Permutation_app_swap_app.
Qed.

Lemma events_NoDup (l : list nat) :
  NoDup l -> NoDup (map Dispatch l ++ map Settle l).
Proof.
  intros Hl. apply NoDup_app.
  - apply Finite.Injective_map_NoDup; [|exact Hl]. intros x y E. now inversion E.
  - apply Finite.Injective_map_NoDup; [|exact Hl]. intros x y E. now inversion E.
  - intros e H1 H2. apply in_map_iff in H1. apply in_map_iff in H2.
    destruct H1 as (x & <- & _). destruct H2 as (y & E & _). discriminate.
Qed.

Lemma nth_error_two (A : Type) (G : list A) (k k' : nat) (x y : A) :
  k < k' -> nth_error G k = Some x -> nth_error G k' = Some y ->
  exists G1 G2 G3, G = G1 ++ x :: G2 ++ y :: G3.
Proof.
  intros Hk Hx Hy.
  apply nth_error_split in Hx. destruct Hx as (G1 & R & -> & Hlen).
  rewrite nth_error_app2 in Hy by lia.
  destruct (k' - List.length G1) as [|m] eqn:Em; [lia|].
  cbn [nth_error] in Hy.
  apply nth_error_split in Hy. destruct Hy as (G2 & G3 & -> & _).
  now exists G1, G2, G3.
Qed.

Lemma settle_before_dispatch (G : list (list nat)) (k k' : nat)
      (ga gb : list nat) (a b : nat) :
  k < k' -> nth_error G k = Some ga -> nth_error G k' = Some gb ->
  In a ga -> In b gb ->
  before (Settle a) (Dispatch b) (flat_map (group_trace sched) G).
Proof.
  intros Hk Ha Hb Ia Ib.
  destruct (nth_error_two _ G k k' ga gb Hk Ha Hb) as (G1 & G2 & G3 & ->).
  assert (Sa : In (Settle a) (group_trace sched ga)).
  { unfold group_trace. apply in_or_app. right. apply in_map.
    apply Permutation_in with (l := ga); [|exact Ia].
    apply Permutation_sym, sched_perm. }
  assert (Db : In (Dispatch b) (group_trace sched gb)).
  { unfold group_trace. apply in_or_app. left. now apply in_map. }
  apply in_split in Sa. destruct Sa as (u1 & u2 & Eu).
  apply in_split in Db. destruct Db as (v1 & v2 & Ev).
  exists (flat_map (group_trace sched) G1 ++ u1),
         (u2 ++ flat_map (group_trace sched) G2 ++ v1),
         (v2 ++ flat_map (group_trace sched) G3).
  rewrite flat_map_app. cbn [flat_map]. rewrite flat_map_app. cbn [flat_map].
  rewrite Eu, Ev.
  repeat (rewrite <- app_assoc || (progress (cbn [app]))).
  reflexivity.
Qed.

End TraceFacts.

Section RunFacts.

Variable single : nat -> option string.
Variable sched : list nat -> list nat.
Variable quantity : nat.
Variable msg : string.

Import Batch.

(** With enough fuel the loop ends, in the state reached by folding the
    groups of [partition]. *)
Lemma run_total (fuel : nat) :
  ceil_div quantity BATCH_SIZE <= fuel ->
  exists st,
    run single sched quantity fuel msg
    = Some (if (List.length (generatedUrls st) =? 0)%nat
            then Throw (new_Error msg) else Return (generatedUrls st), st)
    /\ groups st = partition quantity
    /\ trace st = flat_map (group_trace sched) (partition quantity)
    /\ generatedUrls st = flat_map kept (map single (seq 0 quantity)).
Proof.
  intros Hf. unfold run.
  change 0 with (4 * 0) at 1.
  rewrite batch_loop_fold by (unfold BATCH_SIZE in Hf; lia).
  rewrite Nat.sub_0_r. fold (partition quantity).
  eexists. split; [reflexivity|].
  rewrite fold_groups, fold_trace, fold_urls, partition_cover.
  repeat split.
Qed.

Lemma run_well_grouped (st : State) :
  (forall l, Permutation (sched l) l) ->
  groups st = partition quantity ->
  trace st = flat_map (group_trace sched) (partition quantity) ->
  well_grouped quantity st.
Proof.
  intros Hs Hg Ht.
  assert (P := trace_perm sched Hs (partition quantity)).
  rewrite partition_cover in P.
  constructor; rewrite ?Hg, ?Ht.
  - unfold partition. now rewrite length_map, length_seq.
  - apply partition_cover.
  - apply partition_sizes.
  - eapply Permutation_NoDup; [apply Permutation_sym, P|].
    apply events_NoDup, seq_NoDup.
  - intros i Hi. split.
    + eapply Permutation_in; [apply Permutation_sym, P|].
      apply in_or_app. left. apply in_map, in_seq. lia.
    + eapply Permutation_in; [apply Permutation_sym, P|].
      apply in_or_app. right. apply in_map, in_seq. lia.
  - intros k k' ga gb a b. now apply settle_before_dispatch.
Qed.

End RunFacts.

(** A data URI is never the empty string, so [forEach] keeps exactly the
    results that are not [null]. *)
Lemma kept_single_call (ai : Batch.Backend) (i : nat) (req : GenerateContentRequest) :
  kept (Batch.single_call ai i req)
  = match Batch.single_call ai i req with Some u => [u] | None => [] end.
Proof.
  unfold Batch.single_call. destruct (ai i req) as [r|e]; [|reflexivity].
  induction (response_parts r) as [|p ps IH]; [reflexivity|].
  destruct p; [reflexivity | exact IH].
Qed.

Lemma kept_successes (ai : Batch.Backend) (req : nat -> GenerateContentRequest)
      (l : list nat) :
  flat_map kept (map (fun i => Batch.single_call ai i (req i)) l)
  = flat_map (fun i => match Batch.single_call ai i (req i) with
                       | Some u => [u] | None => [] end) l.
Proof.
  induction l as [|i l IH]; [reflexivity|].
  cbn [map flat_map]. now rewrite IH, kept_single_call.
Qed.

Lemma single_call_failure (ai : Batch.Backend) (i : nat) (req : GenerateContentRequest) :
  (exists e, ai i req = Throw e)
  \/ (exists r, ai i req = Return r /\ first_inline_image (response_parts r) = None)
  <-> Batch.single_call ai i req = None.
Proof.
  unfold Batch.single_call. split.
  - intros [[e ->] | [r [-> H]]]; [reflexivity | exact H].
  - destruct (ai i req) as [r|e]; intros H; [right | left]; eauto.
Qed.

Lemma successes_nil (single : nat -> option string) (quantity : nat) :
  (forall i, i < quantity -> single i = None) -> successes single quantity = [].
Proof.
  intros H. unfold successes.
  assert (G : forall l, (forall i, In i l -> single i = None) ->
    flat_map (fun i => match single i with Some u => [u] | None => [] end) l = []).
  { induction l as [|i l IH]; intros Hl; [reflexivity|].
    cbn [flat_map]. rewrite (Hl i) by now left.
    apply IH. intros j Hj. apply Hl. now right. }
  apply G. intros i Hi. apply H. apply in_seq in Hi. lia.
Qed.

(** The outcome of a run of either generator, in terms of the per-item
    helper built on [single_call]. *)
Lemma run_outcome (ai : Batch.Backend) (req : nat -> GenerateContentRequest)
      (sched : list nat -> list nat) (quantity fuel : nat) (msg : string) :
  ceil_div quantity Batch.BATCH_SIZE <= fuel ->
  let single := fun i => Batch.single_call ai i (req i) in
  exists st,
    Batch.run single sched quantity fuel msg
    = Some (match successes single quantity with
            | [] => Throw (new_Error msg)
            | _ :: _ => Return (successes single quantity)
            end, st)
    /\ Batch.generatedUrls st = successes single quantity
    /\ Batch.groups st = partition quantity
    /\ Batch.trace st = flat_map (group_trace sched) (partition quantity).
Proof.
  intros Hf single.
  destruct (run_total single sched quantity msg fuel Hf) as (st & E & Hg & Ht & Hu).
  unfold single in Hu. rewrite kept_successes in Hu. fold single in Hu.
  change (flat_map _ (seq 0 quantity)) with (successes single quantity) in Hu.
  exists st. rewrite E, Hu. repeat split; try assumption.
  now destruct (successes single quantity).
Qed.

(* ------------------------------------------------------------------ *)
(** * Properties of the batch orchestrator *)
(* ------------------------------------------------------------------ *)

(** Scenario B of the specification: ten items make the groups of sizes
    4, 4 and 2. *)
Example groups_of_ten :
  forall single, option_map (fun p => Batch.groups (snd p))
    (Batch.run single (fun l => l) 10 3 "m")
  = Some [[0; 1; 2; 3]; [4; 5; 6; 7]; [8; 9]].
Proof. reflexivity. Qed.

(** Scenario A: three items make one group of three. *)
Example groups_of_three :
  forall single, option_map (fun p => Batch.groups (snd p))
    (Batch.run single (fun l => l) 3 1 "m")
  = Some [[0; 1; 2]].
Proof. reflexivity. Qed.



(** C2.  In a run of either generator: when no artifact was collected the
    promise rejects with the generator's error; a returned list is the
    collected one and is never empty; in particular, when the call of every
    item throws, the run rejects. *)
Theorem total_failure_signalled
        (ai : Batch.Backend) (imageBase64 style ratio : string)
        (images : list (string * string)) (promptInstruction : string)
        (brandProfile : option BrandProfile)
        (sched : list nat -> list nat) (quantity fuel : nat) :
  ceil_div quantity Batch.BATCH_SIZE <= fuel ->
  (exists r st,
      Batch.generateStudioImage ai imageBase64 style ratio brandProfile
                                sched quantity fuel = Some (r, st)
      /\ (Batch.generatedUrls st = [] -> r = Throw (new_Error "No image generated"))
      /\ (forall l, r = Return l -> l <> [] /\ l = Batch.generatedUrls st)
      /\ ((forall i, i < quantity -> exists e,
              ai i (Batch.studio_request imageBase64 style ratio brandProfile i)
              = Throw e)
          -> r = Throw (new_Error "No image generated")))
  /\ (exists r st,
      Batch.generateCompositeImage ai images promptInstruction ratio brandProfile
                                   sched quantity fuel = Some (r, st)
      /\ (Batch.generatedUrls st = []
          -> r = Throw (new_Error "No composite images generated"))
      /\ (forall l, r = Return l -> l <> [] /\ l = Batch.generatedUrls st)
      /\ ((forall i, i < quantity -> exists e,
              ai i (Batch.composite_request images promptInstruction ratio
                                            brandProfile i) = Throw e)
          -> r = Throw (new_Error "No composite images generated"))).
Proof.
  intros Hf.
  assert (K : forall req msg,
    let single := fun i => Batch.single_call ai i (req i) in
    exists r st,
      Batch.run single sched quantity fuel msg = Some (r, st)
      /\ (Batch.generatedUrls st = [] -> r = Throw (new_Error msg))
      /\ (forall l, r = Return l -> l <> [] /\ l = Batch.generatedUrls st)
      /\ ((forall i, i < quantity -> exists e, ai i (req i) = Throw e)
          -> r = Throw (new_Error msg))).
  { intros req msg single.
    destruct (run_outcome ai req sched quantity fuel msg Hf) as (st & E & Hu & _).
    fold single in E, Hu.
    eexists. exists st. split; [exact E|]. rewrite Hu.
    split; [|split].
    - intros ->. reflexivity.
    - intros l. destruct (successes single quantity) as [|u us].
      + discriminate.
      + intros H'. inversion H'. split; [discriminate | reflexivity].
    - intros Hall. rewrite successes_nil; [reflexivity|].
      intros i Hi. apply single_call_failure. left. now apply Hall. }
  split; apply K.
Qed.

(** Scenario F: four items, every call throws. *)
Lemma total_failure_signalled_witness :
  option_map fst
    (Batch.generateStudioImage (sample_backend [0; 1; 2; 3]) "QUJD" "Minimal" "1:1"
                               None (fun l => l) 4 1)
  = Some (Throw (new_Error "No image generated"))
  /\ option_map fst
    (Batch.generateCompositeImage (sample_backend [0; 1; 2; 3]) [("QUJD", "@img1")]
                                  "On a beach" "1:1" None (fun l => l) 4 1)
  = Some (Throw (new_Error "No composite images generated")).
Proof.
  assert (F : ceil_div 4 Batch.BATCH_SIZE <= 1) by (vm_compute; lia).
  destruct (total_failure_signalled (sample_backend [0; 1; 2; 3]) "QUJD" "Minimal"
              "1:1" [("QUJD", "@img1")] "On a beach" None (fun l => l) 4 1 F)
    as [(r1 & st1 & E1 & _ & _ & H1) (r2 & st2 & E2 & _ & _ & H2)].
  rewrite E1, E2. cbn [option_map fst]. split; f_equal.
  - apply H1. intros i Hi. exists (new_Error "503").
    destruct i as [|[|[|[|i]]]]; [reflexivity .. | lia].
  - apply H2. intros i Hi. exists (new_Error "503").
    destruct i as [|[|[|[|i]]]]; [reflexivity .. | lia].
Defined.

Example all_four_throw :
  option_map fst
    (Batch.generateStudioImage (sample_backend [0; 1; 2; 3]) "QUJD" "Minimal" "1:1"
                               None (fun l => l) 4 1)
  = Some (Throw (new_Error "No image generated"))
  /\ option_map fst
    (Batch.generateCompositeImage (sample_backend [0; 1; 2; 3]) [("QUJD", "@img1")]
                                  "On a beach" "1:1" None (fun l => l) 4 1)
  = Some (Throw (new_Error "No composite images generated")).
Proof. split; reflexivity. Qed.

Lemma first_inline_image_find (ps : list Part) :
  first_inline_image ps
  = match find is_inline ps with
    | Some (InlineData _ data) => Some ("data:image/png;base64," ++ data)%string
    | _ => None
    end.
Proof.
  induction ps as [|p ps IH]; [reflexivity|].
  destruct p as [mime d|t]; [reflexivity | exact IH].
Qed.

(** An outcome carries the artifact [u] exactly when the call returned and
    the parts of the first candidate are texts followed by a part with
    inline data, of which [u] is the PNG data URI. *)
Lemma artifact_inline (outcome : Completion GenerateContentResponse) (u : string) :
  artifact outcome = Some u
  <-> exists texts mime data rest others t,
        outcome
        = Return {| candidates :=
                      Some ({| content :=
                                 Some {| parts := Some (texts ++ InlineData mime data
                                                              :: rest) |} |}
                            :: others);
                    response_text := t |}
        /\ Forall is_text texts
        /\ u = ("data:image/png;base64," ++ data)%string.
Proof.
  split.
  - destruct outcome as [[cs t]|e]; [|discriminate].
    destruct cs as [[|[[[[ps|]]|]] others]|]; try discriminate.
    cbn [artifact]. intros H.
    assert (G : exists texts mime data rest,
               ps = texts ++ InlineData mime data :: rest
               /\ Forall is_text texts
               /\ u = ("data:image/png;base64," ++ data)%string).
    { clear t others. induction ps as [|p ps IH]; [discriminate|].
      destruct p as [mime d|x]; cbn [find is_inline] in H.
      - exists [], mime, d, ps. split; [reflexivity|]. split; [constructor|].
        congruence.
      - destruct (IH H) as (texts & mime & d & rest & -> & Ht & ->).
        exists (Text x :: texts), mime, d, rest.
        split; [reflexivity|]. split; [|reflexivity].
        constructor; [now exists x | exact Ht]. }
    destruct G as (texts & mime & d & rest & -> & Ht & ->).
    now exists texts, mime, d, rest, others, t.
  - intros (texts & mime & d & rest & others & t & -> & Ht & ->).
    cbn [artifact]. induction Ht as [|p texts [x ->] Ht IH]; [reflexivity|].
    exact IH.
Qed.

(** The per-item helpers produce the artifact of the outcome of their call
    and nothing else. *)
Lemma single_call_artifact (ai : Batch.Backend) (i : nat)
      (req : GenerateContentRequest) :
  Batch.single_call ai i req = artifact (ai i req).
Proof.
  unfold Batch.single_call, artifact.
  destruct (ai i req) as [[cs t]|e]; [|reflexivity].
  rewrite first_inline_image_find. unfold response_parts. cbn [candidates].
  destruct cs as [[|[[[[ps|]]|]] cs]|]; reflexivity.
Qed.

Lemma successes_artifacts (ai : Batch.Backend)
      (req : nat -> GenerateContentRequest) (quantity : nat) :
  successes (fun i => Batch.single_call ai i (req i)) quantity
  = artifacts (fun i => ai i (req i)) quantity.
Proof.
  unfold successes, artifacts. apply flat_map_ext. intros i.
  now rewrite single_call_artifact.
Qed.

(** C3.  In a run of either generator, whatever items fail: the loop ends;
    every item of every group is sent and settles, once, so no failing item
    stops a sibling or a later group; the collected list holds, in index
    order, one data URI for each item whose call returned an answer with
    inline data (the data of the first such part) and nothing for an item
    whose call threw or whose answer held none; and this list is what the
    run returns as soon as it is not empty. *)
Theorem partial_failures_omitted
        (ai : Batch.Backend) (imageBase64 style ratio : string)
        (images : list (string * string)) (promptInstruction : string)
        (brandProfile : option BrandProfile)
        (sched : list nat -> list nat) (quantity fuel : nat) :
  (forall l, Permutation (sched l) l) ->
  ceil_div quantity Batch.BATCH_SIZE <= fuel ->
  (exists r st,
      Batch.generateStudioImage ai imageBase64 style ratio brandProfile
                                sched quantity fuel = Some (r, st)
      /\ well_grouped quantity st
      /\ Batch.generatedUrls st
         = artifacts
             (fun i => ai i (Batch.studio_request imageBase64 style ratio
                                                  brandProfile i))
             quantity
      /\ (Batch.generatedUrls st <> [] -> r = Return (Batch.generatedUrls st)))
  /\ (exists r st,
      Batch.generateCompositeImage ai images promptInstruction ratio brandProfile
                                   sched quantity fuel = Some (r, st)
      /\ well_grouped quantity st
      /\ Batch.generatedUrls st
         = artifacts
             (fun i => ai i (Batch.composite_request images promptInstruction ratio
                                                     brandProfile i))
             quantity
      /\ (Batch.generatedUrls st <> [] -> r = Return (Batch.generatedUrls st))).
Proof.
  intros Hs Hf.
  assert (K : forall req msg,
    exists r st,
      Batch.run (fun i => Batch.single_call ai i (req i)) sched quantity fuel msg
      = Some (r, st)
      /\ well_grouped quantity st
      /\ Batch.generatedUrls st = artifacts (fun i => ai i (req i)) quantity
      /\ (Batch.generatedUrls st <> [] -> r = Return (Batch.generatedUrls st))).
  { intros req msg.
    destruct (run_outcome ai req sched quantity fuel msg Hf)
      as (st & E & Hu & Hg & Ht).
    cbv zeta in E, Hu. eexists. exists st. split; [exact E|].
    split; [now apply run_well_grouped with (sched := sched)|].
    split; [now rewrite Hu, successes_artifacts|].
    rewrite Hu. now destruct (successes _ quantity). }
  split; apply K.
Qed.

(** Scenario E: four items, the second and the third throw; the first and
    the fourth are returned, in that order. *)
Example second_and_third_throw :
  option_map fst
    (Batch.generateStudioImage (sample_backend [1; 2]) "QUJD" "Minimal" "1:1"
                               None (@rev nat) 4 1)
  = Some (Return ["data:image/png;base64,0"; "data:image/png;base64,3"])
  /\ option_map fst
    (Batch.generateCompositeImage (sample_backend [1; 2]) [("QUJD", "@img1")]
                                  "On a beach" "1:1" None (@rev nat) 4 1)
  = Some (Return ["data:image/png;base64,0"; "data:image/png;base64,3"]).
Proof. split; reflexivity. Qed.

Lemma partial_failures_omitted_witness :
  option_map fst
    (Batch.generateStudioImage (sample_backend [1; 2]) "QUJD" "Minimal" "1:1"
                               None (@rev nat) 4 1)
  = Some (Return ["data:image/png;base64,0"; "data:image/png;base64,3"]%string)
  /\ option_map fst
    (Batch.generateCompositeImage (sample_backend [1; 2]) [("QUJD", "@img1")]
                                  "On a beach" "1:1" None (@rev nat) 4 1)
  = Some (Return ["data:image/png;base64,0"; "data:image/png;base64,3"]%string).
Proof.
  assert (P : forall l : list nat, Permutation (rev l) l)
    by (intros l; apply Permutation_sym, Permutation_rev).
  assert (F : ceil_div 4 Batch.BATCH_SIZE <= 1) by (vm_compute; lia).
  destruct (partial_failures_omitted (sample_backend [1; 2]) "QUJD" "Minimal" "1:1"
              [("QUJD", "@img1")] "On a beach" None (@rev nat) 4 1 P F)
    as [(r1 & st1 & E1 & _ & U1 & R1) (r2 & st2 & E2 & _ & U2 & R2)].
  rewrite E1, E2. cbn [option_map fst].
  rewrite R1 by (rewrite U1; discriminate).
  rewrite R2 by (rewrite U2; discriminate).
  rewrite U1, U2. split; reflexivity.
Defined.

(* ------------------------------------------------------------------ *)
(** * Properties of the video poller *)
(* ------------------------------------------------------------------ *)

Section PollerFacts.

Variable b : Veo.Backend.
Variable s : nat -> Veo.Operation.

Lemma polling_trace_S (i n : nat) :
  polling_trace i (S n) = Veo.Delay 5000 :: Veo.Refetch i :: polling_trace (S i) n.
Proof. reflexivity. Qed.

Lemma cycles_polling_trace (i n : nat) : Veo.cycles (polling_trace i n) = n.
Proof.
  revert i. induction n as [|n IH]; intros i; [reflexivity|].
  rewrite polling_trace_S. unfold Veo.cycles in *. cbn [filter List.length].
  now rewrite IH.
Qed.

(** The loop runs exactly as many cycles as there are handles that are not
    done, then stops at the first one that is. *)
Lemma poll_steps (n fuel i : nat) :
  (forall j, j < n ->
     Veo.done (s (i + j)) = false
     /\ Veo.getVideosOperation b (i + j) (s (i + j)) = Return (s (S (i + j)))) ->
  Veo.done (s (i + n)) = true ->
  n <= fuel ->
  Veo.poll b fuel i (s i) = Some (Return (s (i + n)), polling_trace i n).
Proof.
  revert fuel i. induction n as [|n IH]; intros fuel i Hstep Hdone Hfuel.
  - rewrite Nat.add_0_r in *. destruct fuel; cbn [Veo.poll]; now rewrite Hdone.
  - destruct fuel as [|fuel]; [lia|]. cbn [Veo.poll].
    destruct (Hstep 0 ltac:(lia)) as [Hd Hg]. rewrite Nat.add_0_r in Hd, Hg.
    rewrite Hd, Hg, (IH fuel (S i)).
    + rewrite polling_trace_S. replace (i + S n) with (S i + n) by lia.
      reflexivity.
    + intros j Hj. replace (S i + j) with (i + S j) by lia. apply Hstep. lia.
    + replace (S i + n) with (i + S n) by lia. exact Hdone.
    + lia.
Qed.

(** The loop hands back only a handle that is done. *)
Lemma poll_done (fuel i : nat) (op op' : Veo.Operation) (t : list Veo.Event) :
  Veo.poll b fuel i op = Some (Return op', t) -> Veo.done op' = true.
Proof.
  revert i op t. induction fuel as [|fuel IH]; intros i op t; cbn [Veo.poll];
    destruct (Veo.done op) eqn:Hd.
  - intros H. inversion H. now subst.
  - discriminate.
  - intros H. inversion H. now subst.
  - destruct (Veo.getVideosOperation b i op) as [op1|e]; [|discriminate].
    destruct (Veo.poll b fuel (S i) op1) as [[c t1]|] eqn:Hp; [|discriminate].
    intros H. inversion H. subst. eapply IH. exact Hp.
Qed.

Variable API_KEY : option string.

(** What a job that completes after [n] cycles settles to. *)
Lemma generateVeoVideo_completes (fuel n : nat) (imageBase64 prompt ratio : string) :
  completes_at b (Veo.request imageBase64 prompt ratio) s n ->
  n <= fuel ->
  Veo.generateVeoVideo b API_KEY fuel imageBase64 prompt ratio
  = Some (Return (if truthy (Veo.videoUri (s n))
                  then Some (interpolate (Veo.videoUri (s n)) ++ "&key="
                             ++ interpolate API_KEY)%string
                  else None),
          Veo.Submit (Veo.request imageBase64 prompt ratio) :: polling_trace 0 n).
Proof.
  intros (H0 & Hstep & Hdone) Hfuel. unfold Veo.generateVeoVideo.
  rewrite H0, (poll_steps n fuel 0); [reflexivity| |exact Hdone|exact Hfuel].
  intros j Hj. now apply Hstep.
Qed.

End PollerFacts.

Lemma sample_veo_completes (pending : nat) (u : option string) (req : Veo.VideosRequest) :
  completes_at (sample_veo pending u) req
               (fun i => sample_operation (pending <=? i)%nat u) pending.
Proof.
  split; [reflexivity|]. split.
  - intros i Hi. split; [|reflexivity].
    cbn. destruct (Nat.leb_spec pending i); [lia | reflexivity].
  - cbn. now rewrite Nat.leb_refl.
Qed.

(* ------------------------------------------------------------------ *)
(** * Facts about the scene orchestrator *)
(* ------------------------------------------------------------------ *)

Section StoryboardFacts.

Import Storyboard.

Variable aistudio : option AiStudio.
Variable brandProfile : option BrandProfile.
Variable veo : nat -> string -> string -> string -> option (Completion (option string)).

Lemma update_ids (sid : string) (f : GeneratedVideoResult -> GeneratedVideoResult)
      (vs : list GeneratedVideoResult) :
  (forall v, sceneId (f v) = sceneId v) ->
  map sceneId (update sid f vs) = map sceneId vs.
Proof.
  intros Hf. unfold update. rewrite map_map. apply map_ext.
  intros v. destruct (sceneId v =? sid)%string; [apply Hf | reflexivity].
Qed.

Lemma update_entries_other (sid sid' : string)
      (f : GeneratedVideoResult -> GeneratedVideoResult)
      (vs : list GeneratedVideoResult) :
  (forall v, sceneId (f v) = sceneId v) ->
  sid' <> sid ->
  entries sid (update sid' f vs) = entries sid vs.
Proof.
  intros Hf Hne. unfold entries, update.
  induction vs as [|v vs IH]; [reflexivity|]. cbn [map filter].
  destruct (String.eqb_spec (sceneId v) sid') as [E|E].
  - rewrite Hf, E. destruct (String.eqb_spec sid' sid); [contradiction | exact IH].
  - rewrite IH. reflexivity.
Qed.

Lemma update_all_status (sid : string) (x : Status)
      (f : GeneratedVideoResult -> GeneratedVideoResult)
      (vs : list GeneratedVideoResult) :
  (forall v, sceneId (f v) = sceneId v) ->
  (forall v, status (f v) = x) ->
  all_status x sid (update sid f vs).
Proof.
  intros Hid Hst v Hv Hs. unfold update in Hv. apply in_map_iff in Hv.
  destruct Hv as (w & <- & _).
  destruct (String.eqb_spec (sceneId w) sid) as [E|E]; [apply Hst | contradiction].
Qed.

Lemma all_status_entries (x : Status) (sid : string)
      (vs ws : list GeneratedVideoResult) :
  entries sid vs = entries sid ws -> all_status x sid ws -> all_status x sid vs.
Proof.
  intros E H v Hv Hs. apply H; [|exact Hs].
  assert (I : In v (entries sid vs)).
  { apply filter_In. split; [exact Hv|]. now apply String.eqb_eq. }
  rewrite E in I. now apply filter_In in I.
Qed.

(** The callback of one scene: it never calls [generateVeoVideo] again and
    keeps the identities of the collection. *)
Lemma settle_scene_keeps (ratio : string) (k : nat) (scene : VideoGenerationScene)
      (st st' : State) (t : list Event) (h : Handler) :
  settle_scene aistudio brandProfile veo ratio k scene st = (st', t, h) ->
  calls t = []
  /\ map sceneId (generatedVideos st') = map sceneId (generatedVideos st)
  /\ scenes st' = scenes st
  /\ forall sid, id scene <> sid ->
       entries sid (generatedVideos st') = entries sid (generatedVideos st).
Proof.
  unfold settle_scene.
  repeat match goal with
         | |- context [match ?x with _ => _ end] => destruct x
         end;
    intros E; inversion E; subst; cbn;
    repeat split; try reflexivity;
    try (apply update_ids; reflexivity);
    try (intros sid Hsid; apply update_entries_other; [reflexivity | exact Hsid]).
Qed.

Lemma settle_all_keeps (ratio : string) (validScenes : list VideoGenerationScene)
      (order : list nat) :
  forall (st st' : State) (rejected pending r p : bool) (t : list Event),
  settle_all aistudio brandProfile veo ratio validScenes order st rejected pending
  = (st', t, r, p) ->
  calls t = []
  /\ map sceneId (generatedVideos st') = map sceneId (generatedVideos st)
  /\ scenes st' = scenes st.
Proof.
  induction order as [|k order IH]; intros st st' rejected pending r p t;
    cbn [settle_all].
  - intros E. inversion E. subst. repeat split.
  - destruct (nth_error validScenes k) as [scene|]; [|apply IH].
    destruct (settle_scene aistudio brandProfile veo ratio k scene st)
      as [[st1 t1] h] eqn:E1.
    apply settle_scene_keeps in E1. destruct E1 as (C1 & I1 & S1 & _).
    match goal with
    | |- context [settle_all _ _ _ _ _ _ ?s ?a ?b] =>
        destruct (settle_all aistudio brandProfile veo ratio validScenes order s a b)
          as [[[st3 t3] r3] p3] eqn:E3
    end.
    apply IH in E3. destruct E3 as (C3 & I3 & S3).
    intros E. inversion E. subst. unfold calls in *.
    rewrite filter_app, C1, C3. split; [reflexivity|].
    rewrite I3, S3. destruct h; [| destruct rejected |]; cbn; now rewrite I1, S1.
Qed.

Lemma dispatch_all_valid (k : nat) (l : list VideoGenerationScene) :
  Forall (fun s => has_image s = true) l ->
  dispatch_all brandProfile k l = one_call_each brandProfile k l.
Proof.
  revert k. induction l as [|s l IH]; intros k H; [reflexivity|].
  inversion H as [|? ? Hs Hl]. subst. cbn [dispatch_all].
  unfold has_image in Hs. destruct (image s); [|discriminate].
  rewrite IH by assumption. reflexivity.
Qed.


Lemma checkApiKey_no_call : calls (snd (checkApiKey aistudio)) = [].
Proof.
  unfold checkApiKey. destruct aistudio as [a|]; [|reflexivity].
  destruct (hasSelectedApiKey a) as [[|]|]; cbn; try reflexivity.
  destruct (openSelectKey a FromCheck); reflexivity.
Qed.

End StoryboardFacts.

Section RunOfScenes.

Import Storyboard.

Variable aistudio : option AiStudio.
Variable brandProfile : option BrandProfile.
Variable veo : nat -> string -> string -> string -> option (Completion (option string)).


End RunOfScenes.

(* ------------------------------------------------------------------ *)
(** * Properties of the scene orchestrator *)
(* ------------------------------------------------------------------ *)


Section FailedScene.

Import Storyboard.

Variable aistudio : option AiStudio.
Variable brandProfile : option BrandProfile.
Variable veo : nat -> string -> string -> string -> option (Completion (option string)).
Variable ratio : string.
Variable validScenes : list VideoGenerationScene.

(** The scene under study: the [k]-th dispatched one, whose job throws. *)
Variable k : nat.
Variable scene : VideoGenerationScene.
Variable img : UploadedAsset.
Variable e : Error.
Hypothesis scene_at_k : nth_error validScenes k = Some scene.
Hypothesis scene_image : image scene = Some img.
Hypothesis job_throws :
  veo k (base64 img) (finalPrompt brandProfile scene) ratio = Some (Throw e).
Hypothesis ids_unique : NoDup (map id validScenes).

Lemma other_scene_id (j : nat) (sj : VideoGenerationScene) :
  j <> k -> nth_error validScenes j = Some sj -> id sj <> id scene.
Proof.
  intros Hjk Hj E. apply Hjk.
  assert (Hlen : j < List.length (map id validScenes)).
  { rewrite length_map. apply nth_error_Some. now rewrite Hj. }
  apply (proj1 (NoDup_nth_error (map id validScenes)) ids_unique j k Hlen).
  rewrite !nth_error_map, Hj, scene_at_k. cbn [option_map]. now rewrite E.
Qed.

Lemma settle_scene_other (j : nat) (sj : VideoGenerationScene)
      (st st' : State) (t : list Event) (h : Handler) :
  settle_scene aistudio brandProfile veo ratio j sj st = (st', t, h) ->
  j <> k ->
  filter (is_prompt_for k) t = []
  /\ (prompts_resolve aistudio -> h <> Rejected)
  /\ (errorMsg st' = errorMsg st \/ errorMsg st' = Some advisory).
Proof.
  intros E Hjk. apply Nat.eqb_neq in Hjk. revert E. unfold settle_scene.
  destruct (image sj) as [i|].
  2:{ intros E; inversion E; subst. repeat split; try discriminate. now left. }
  destruct (veo j (base64 i) (finalPrompt brandProfile sj) ratio) as [[u|e']|].
  3:{ intros E; inversion E; subst. repeat split; try discriminate. now left. }
  1:{ intros E; inversion E; subst. repeat split; try discriminate. now left. }
  destruct (credential_error e').
  2:{ intros E; inversion E; subst. repeat split; try discriminate. now left. }
  destruct aistudio as [a|] eqn:Ha.
  2:{ intros E; inversion E; subst. repeat split; try discriminate. now right. }
  destruct (openSelectKey a (FromScene j)) as [[]|e''] eqn:Ho;
    intros E; inversion E; subst; cbn [filter is_prompt_for]; rewrite Hjk.
  - repeat split; try discriminate. now right.
  - split; [reflexivity|]. split; [|now right].
    intros Hr. specialize (Hr a j eq_refl). congruence.
Qed.

Lemma settle_all_other (sid : string) (order : list nat) :
  forall (st st' : State) (rejected pending r p : bool) (t : list Event),
  settle_all aistudio brandProfile veo ratio validScenes order st rejected pending
  = (st', t, r, p) ->
  ~ In k order ->
  (forall j sj, In j order -> nth_error validScenes j = Some sj -> id sj <> sid) ->
  filter (is_prompt_for k) t = []
  /\ entries sid (generatedVideos st') = entries sid (generatedVideos st)
  /\ (prompts_resolve aistudio -> errorMsg st = Some advisory ->
      errorMsg st' = Some advisory).
Proof.
  induction order as [|j order IH]; intros st st' rejected pending r p t;
    cbn [settle_all].
  - intros E _ _. inversion E. subst. repeat split. auto.
  - intros E Hk Hid.
    assert (Hjk : j <> k) by (intros ->; apply Hk; now left).
    assert (Hk' : ~ In k order) by (intros H; apply Hk; now right).
    assert (Hid' : forall j' sj, In j' order -> nth_error validScenes j' = Some sj ->
                                 id sj <> sid)
      by (intros j' sj H; apply Hid; now right).
    destruct (nth_error validScenes j) as [sj|] eqn:Hj; [|now apply IH in E].
    destruct (settle_scene aistudio brandProfile veo ratio j sj st)
      as [[st1 t1] h] eqn:E1.
    destruct (settle_scene_keeps _ _ _ _ _ _ _ _ _ _ E1) as (_ & _ & _ & K1).
    destruct (settle_scene_other _ _ _ _ _ _ E1 Hjk) as (P1 & R1 & M1).
    match type of E with
    | context [settle_all _ _ _ _ _ _ ?s ?a ?b] =>
        destruct (settle_all aistudio brandProfile veo ratio validScenes order s a b)
          as [[[st3 t3] r3] p3] eqn:E3
    end.
    inversion E. subst. clear E.
    apply IH in E3; [|assumption|assumption].
    destruct E3 as (P3 & K3 & M3).
    rewrite filter_app, P1, P3. split; [reflexivity|]. split.
    + rewrite K3. rewrite <- (K1 sid) by (apply (Hid j sj); [now left | exact Hj]).
      destruct h; [| destruct rejected |]; reflexivity.
    + intros Hr Hm. apply M3; [exact Hr|].
      specialize (R1 Hr). destruct h; [| contradiction |];
        (destruct M1 as [M1|M1]; [now rewrite M1 | exact M1]).
Qed.

(** The callback of the scene under study. *)
Lemma settle_scene_throw (st : State) :
  exists st' t h,
    settle_scene aistudio brandProfile veo ratio k scene st = (st', t, h)
    /\ List.length (filter (is_prompt_for k) t)
       = (if credential_error e
          then match aistudio with Some _ => 1 | None => 0 end
          else 0)
    /\ (credential_error e = true -> errorMsg st' = Some advisory)
    /\ (credential_error e = false -> errorMsg st' = errorMsg st)
    /\ (h = Rejected ->
        exists a e', aistudio = Some a /\ credential_error e = true
                     /\ openSelectKey a (FromScene k) = Throw e')
    /\ (h <> Rejected -> all_status failed (id scene) (generatedVideos st')).
Proof.
  unfold settle_scene. rewrite scene_image, job_throws.
  destruct (credential_error e).
  - destruct aistudio as [a|].
    + destruct (openSelectKey a (FromScene k)) as [[]|e'] eqn:Ho;
        do 3 eexists; (split; [reflexivity|]);
        cbn [filter is_prompt_for List.length]; rewrite Nat.eqb_refl;
        (split; [reflexivity|]); (split; [reflexivity|]);
        (split; [discriminate|]); split.
      * discriminate.
      * intros _. now apply update_all_status.
      * intros _. exists a, e'. auto.
      * intros H. now contradiction H.
    + do 3 eexists. split; [reflexivity|].
      split; [reflexivity|]. split; [reflexivity|]. split; [discriminate|].
      split; [discriminate|]. intros _. now apply update_all_status.
  - do 3 eexists. split; [reflexivity|].
    split; [reflexivity|]. split; [discriminate|]. split; [reflexivity|].
    split; [discriminate|]. intros _. now apply update_all_status.
Qed.

Lemma settle_all_scene (order : list nat) :
  forall (st st' : State) (rejected pending r p : bool) (t : list Event),
  settle_all aistudio brandProfile veo ratio validScenes order st rejected pending
  = (st', t, r, p) ->
  NoDup order -> In k order ->
  List.length (filter (is_prompt_for k) t)
  = (if credential_error e
     then match aistudio with Some _ => 1 | None => 0 end
     else 0)
  /\ ((forall a e', aistudio = Some a -> credential_error e = true ->
                     openSelectKey a (FromScene k) <> Throw e')
      -> all_status failed (id scene) (generatedVideos st'))
  /\ (prompts_resolve aistudio -> credential_error e = true ->
      errorMsg st' = Some advisory).
Proof.
  induction order as [|j order IH]; intros st st' rejected pending r p t;
    cbn [settle_all]; intros E Hnd Hin; [destruct Hin|].
  inversion Hnd as [|? ? Hk Hnd']. subst.
  destruct (Nat.eq_dec j k) as [->|Hjk].
  - rewrite scene_at_k in E.
    destruct (settle_scene_throw st) as (st1 & t1 & h & E1 & L1 & M1 & M0 & RJ & ST).
    rewrite E1 in E.
    match type of E with
    | context [settle_all _ _ _ _ _ _ ?s ?a ?b] =>
        destruct (settle_all aistudio brandProfile veo ratio validScenes order s a b)
          as [[[st3 t3] r3] p3] eqn:E3
    end.
    inversion E. subst. clear E.
    apply (settle_all_other (id scene)) in E3; [|exact Hk|].
    2:{ intros j sj Hj Hs. apply other_scene_id with (j := j); [|exact Hs].
        intros ->. contradiction. }
    destruct E3 as (P3 & K3 & M3).
    rewrite filter_app, length_app, P3, L1, Nat.add_0_r.
    split; [reflexivity|]. split.
    + intros Hok.
      assert (Hh : h <> Rejected).
      { intros Hr. destruct (RJ Hr) as (a & e' & Ha & Hc & Ho).
        exact (Hok a e' Ha Hc Ho). }
      apply all_status_entries with (ws := generatedVideos st1); [|exact (ST Hh)].
      rewrite K3. destruct h; [reflexivity | contradiction | reflexivity].
    + intros Hr Hc.
      assert (Hh : h <> Rejected).
      { intros Hrej. destruct (RJ Hrej) as (a & e' & Ha & _ & Ho).
        rewrite (Hr a k Ha) in Ho. discriminate. }
      apply M3; [exact Hr|].
      destruct h; [exact (M1 Hc) | contradiction | exact (M1 Hc)].
  - destruct Hin as [->|Hin]; [contradiction|].
    destruct (nth_error validScenes j) as [sj|] eqn:Hj; [|now apply IH in E].
    destruct (settle_scene aistudio brandProfile veo ratio j sj st)
      as [[st1 t1] h] eqn:E1.
    destruct (settle_scene_other _ _ _ _ _ _ E1 Hjk) as (P1 & _ & _).
    match type of E with
    | context [settle_all _ _ _ _ _ _ ?s ?a ?b] =>
        destruct (settle_all aistudio brandProfile veo ratio validScenes order s a b)
          as [[[st3 t3] r3] p3] eqn:E3
    end.
    inversion E. subst. clear E.
    apply IH in E3; [|assumption|assumption].
    rewrite filter_app, P1. exact E3.
Qed.

(** Exactly one call is made for a scene that is among the dispatched
    ones. *)
Lemma one_call_for (i : nat) (l : list VideoGenerationScene) :
  List.length (filter (is_call_for k) (one_call_each brandProfile i l))
  = if ((i <=? k) && (k <? i + List.length l))%nat then 1 else 0.
Proof.
  unfold one_call_each. revert i. induction l as [|s l IH]; intros i.
  - cbn [List.length seq combine map filter].
    destruct (Nat.leb_spec i k), (Nat.ltb_spec k (i + 0)); cbn [andb]; lia.
  - cbn [List.length seq combine map filter is_call_for fst snd].
    destruct (Nat.eqb_spec i k) as [->|Hik]; cbn [List.length]; rewrite IH.
    + destruct (Nat.leb_spec (S k) k), (Nat.leb_spec k k),
        (Nat.ltb_spec k (S k + List.length l)),
        (Nat.ltb_spec k (k + S (List.length l))); cbn [andb]; lia.
    + destruct (Nat.leb_spec (S i) k), (Nat.leb_spec i k),
        (Nat.ltb_spec k (S i + List.length l)),
        (Nat.ltb_spec k (i + S (List.length l))); cbn [andb]; lia.
Qed.

Lemma no_call_for (t : list Event) :
  calls t = [] -> filter (is_call_for k) t = [].
Proof.
  unfold calls. induction t as [|x t IH]; [reflexivity|].
  cbn [filter]. destruct x; cbn [is_call is_call_for]; try exact IH.
  discriminate.
Qed.

End FailedScene.

(** C9, as the code has it.  In a started run of [handleGenerate], for a
    dispatched scene whose job throws [e] (scene identities distinct, every
    scene settling once): the scene's job is called exactly once, so never
    retried.  When the message of [e] includes the entity-not-found
    signature, the handler prompts for a key exactly once if the host
    provides [window.aistudio] and not at all if it does not; it sets the
    advisory message, which is the message at the end of the run when no
    prompt rejects; and the scene's entries end up failed when its prompt
    does not reject.  When the message does not match, the handler does
    nothing but mark the scene's entries failed. *)
Theorem credential_error_handling
        (aistudio : option Storyboard.AiStudio)
        (brandProfile : option BrandProfile)
        (veo : nat -> string -> string -> string -> option (Completion (option string)))
        (order : list nat) (st : Storyboard.State)
        (k : nat) (scene : Storyboard.VideoGenerationScene)
        (img : Storyboard.UploadedAsset) (e : Error) :
  let validScenes := filter Storyboard.has_image (Storyboard.scenes st) in
  let r := Storyboard.handleGenerate aistudio brandProfile veo order st in
  started aistudio st = true ->
  nth_error validScenes k = Some scene ->
  Storyboard.image scene = Some img ->
  veo k (Storyboard.base64 img) (Storyboard.finalPrompt brandProfile scene)
      (Storyboard.aspectRatio st) = Some (Throw e) ->
  NoDup (map Storyboard.id validScenes) ->
  NoDup order -> In k order ->
  List.length (filter (is_call_for k) (snd r)) = 1
  /\ List.length (filter (is_prompt_for k) (snd r))
     = (if Storyboard.credential_error e
        then match aistudio with Some _ => 1 | None => 0 end
        else 0)
  /\ ((forall a e', aistudio = Some a -> Storyboard.credential_error e = true ->
         Storyboard.openSelectKey a (Storyboard.FromScene k) <> Throw e')
      -> all_status Storyboard.failed (Storyboard.id scene)
                    (Storyboard.generatedVideos (fst r)))
  /\ (prompts_resolve aistudio -> Storyboard.credential_error e = true ->
      Storyboard.errorMsg (fst r) = Some Storyboard.advisory)
  /\ (Storyboard.credential_error e = false ->
      forall s, Storyboard.settle_scene aistudio brandProfile veo
                  (Storyboard.aspectRatio st) k scene s
                = (mark_failed (Storyboard.id scene) s,
                   [Storyboard.SceneSettled k], Storyboard.Resolved)).
Proof.
  intros validScenes r Hstart Hk Himg Hthrow Hids Hnd Hin.
  assert (Hlen : k < List.length validScenes).
  { apply nth_error_Some. now rewrite Hk. }
  subst r. unfold started in Hstart. unfold Storyboard.handleGenerate.
  cbn [Storyboard.scenes Storyboard.set_error] in *. fold validScenes in Hstart |- *.
  destruct (List.length validScenes =? 0)%nat; [discriminate|].
  pose proof (checkApiKey_no_call aistudio) as Hc.
  assert (Hp0 : filter (is_prompt_for k) (snd (Storyboard.checkApiKey aistudio)) = []).
  { unfold Storyboard.checkApiKey. destruct aistudio as [a|]; [|reflexivity].
    destruct (Storyboard.hasSelectedApiKey a) as [[|]|]; try reflexivity.
    destruct (Storyboard.openSelectKey a Storyboard.FromCheck); reflexivity. }
  destruct (Storyboard.checkApiKey aistudio) as [keyReady t0].
  cbn [fst snd negb andb] in *. subst keyReady. cbn [negb].
  match goal with
  | |- context [Storyboard.settle_all _ _ _ ?a ?b ?c ?s ?x ?y] =>
      destruct (Storyboard.settle_all aistudio brandProfile veo a b c s x y)
        as [[[st2 t2] rejected] pending] eqn:E
  end.
  cbn [Storyboard.aspectRatio Storyboard.set_videos Storyboard.set_generating] in E.
  pose proof (settle_all_keeps _ _ _ _ _ _ _ _ _ _ _ _ _ E) as (C2 & _ & _).
  destruct (settle_all_scene aistudio brandProfile veo (Storyboard.aspectRatio st)
              validScenes k scene img e Hk Himg Hthrow Hids order _ _ _ _ _ _ _
              E Hnd Hin) as (P2 & F2 & M2).
  cbn [fst snd].
  assert (Hd : Storyboard.dispatch_all brandProfile 0 validScenes
               = one_call_each brandProfile 0 validScenes).
  { apply dispatch_all_valid. apply Forall_forall. intros s Hs.
    now apply filter_In in Hs. }
  split; [|split; [|split; [|split]]].
  - rewrite !filter_app, !length_app, (no_call_for k t0 Hc), (no_call_for k t2 C2).
    rewrite Hd, one_call_for. cbn [List.length Nat.add].
    destruct (Nat.ltb_spec k (List.length validScenes)); [reflexivity | lia].
  - rewrite !filter_app, !length_app, Hp0, P2, Hd.
    assert (Hn : filter (is_prompt_for k) (one_call_each brandProfile 0 validScenes)
                 = []).
    { unfold one_call_each.
      induction (combine (seq 0 (List.length validScenes)) validScenes) as [|x xs IH];
        [reflexivity | exact IH]. }
    rewrite Hn. reflexivity.
  - intros Hok. specialize (F2 Hok). now destruct rejected, pending.
  - intros Hr Hcred. specialize (M2 Hr Hcred). now destruct rejected, pending.
  - intros Hcred s. unfold Storyboard.settle_scene.
    rewrite Himg, Hthrow, Hcred. reflexivity.
Qed.

Lemma credential_error_handling_witness :
  let r := Storyboard.handleGenerate (Some sample_host) None sample_jobs [1; 0]
                                     sample_storyboard in
  List.length (filter (is_call_for 0) (snd r)) = 1
  /\ List.length (filter (is_prompt_for 0) (snd r))
     = (if Storyboard.credential_error entity_not_found
        then match Some sample_host with Some _ => 1 | None => 0 end
        else 0)
  /\ ((forall a e', Some sample_host = Some a ->
         Storyboard.credential_error entity_not_found = true ->
         Storyboard.openSelectKey a (Storyboard.FromScene 0) <> Throw e')
      -> all_status Storyboard.failed (Storyboard.id (sample_scene "1" true))
                    (Storyboard.generatedVideos (fst r)))
  /\ (prompts_resolve (Some sample_host) ->
      Storyboard.credential_error entity_not_found = true ->
      Storyboard.errorMsg (fst r) = Some Storyboard.advisory)
  /\ (Storyboard.credential_error entity_not_found = false ->
      forall s, Storyboard.settle_scene (Some sample_host) None sample_jobs
                  (Storyboard.aspectRatio sample_storyboard) 0
                  (sample_scene "1" true) s
                = (mark_failed (Storyboard.id (sample_scene "1" true)) s,
                   [Storyboard.SceneSettled 0], Storyboard.Resolved)).
Proof.
  apply (credential_error_handling (Some sample_host) None sample_jobs [1; 0]
           sample_storyboard 0 (sample_scene "1" true)
           {| Storyboard.base64 := "QUJD" |} entity_not_found).
  - reflexivity.
  - reflexivity.
  - reflexivity.
  - reflexivity.
  - cbn. repeat constructor; cbn; intuition discriminate.
  - repeat constructor; cbn; intuition discriminate.
  - cbn. auto.
Defined.

(** The run of the witness, computed: the failing scene is prompted for and
    marked failed, the scene without image appears nowhere. *)
Example storyboard_run :
  Storyboard.handleGenerate (Some sample_host) None sample_jobs [1; 0]
                            sample_storyboard
  = ({| Storyboard.scenes := Storyboard.scenes sample_storyboard;
        Storyboard.aspectRatio := "9:16";
        Storyboard.isGenerating := false;
        Storyboard.generatedVideos :=
          [{| Storyboard.sceneId := "1"; Storyboard.videoUrl := "";
              Storyboard.status := Storyboard.failed |};
           {| Storyboard.sceneId := "3";
              Storyboard.videoUrl := "https://video.example/v?alt=media&key=K";
              Storyboard.status := Storyboard.completed |}];
        Storyboard.errorMsg := Some Storyboard.advisory |},
     [Storyboard.HasSelectedApiKey;
      Storyboard.CallVeo 0 (sample_scene "1" true) "Cinematic movement, high quality.";
      Storyboard.CallVeo 1 (sample_scene "3" true) "Cinematic movement, high quality.";
      Storyboard.SceneSettled 1;
      Storyboard.SceneSettled 0;
      Storyboard.OpenSelectKey (Storyboard.FromScene 0)]).
Proof. reflexivity. Qed.

(** Without [window.aistudio] the same error prompts for nothing: the
    message is set and the scene is marked failed, and that is all. *)
Lemma credential_prompt_counterexample :
  Storyboard.credential_error entity_not_found = true
  /\ Storyboard.handleGenerate None None sample_jobs [1; 0] sample_storyboard
     = ({| Storyboard.scenes := Storyboard.scenes sample_storyboard;
           Storyboard.aspectRatio := "9:16";
           Storyboard.isGenerating := false;
           Storyboard.generatedVideos :=
             [{| Storyboard.sceneId := "1"; Storyboard.videoUrl := "";
                 Storyboard.status := Storyboard.failed |};
              {| Storyboard.sceneId := "3";
                 Storyboard.videoUrl := "https://video.example/v?alt=media&key=K";
                 Storyboard.status := Storyboard.completed |}];
           Storyboard.errorMsg := Some Storyboard.advisory |},
        [Storyboard.CallVeo 0 (sample_scene "1" true) "Cinematic movement, high quality.";
         Storyboard.CallVeo 1 (sample_scene "3" true) "Cinematic movement, high quality.";
         Storyboard.SceneSettled 1;
         Storyboard.SceneSettled 0])
  /\ filter (is_prompt_for 0)
       (snd (Storyboard.handleGenerate None None sample_jobs [1; 0] sample_storyboard))
     = [].
Proof. repeat split. Qed.


(* ------------------------------------------------------------------ *)
(** * Properties of video synthesis *)
(* ------------------------------------------------------------------ *)

Lemma append_nonempty_neq (u x : string) :
  x <> ""%string -> (u ++ x)%string <> u.
Proof.
  intros Hx E. apply Hx.
  induction u as [|c u IH]; [exact E|].
  cbn [append] in E. inversion E. now apply IH.
Qed.

Lemma truthy_keyed (u : string) (key : option string) :
  u <> ""%string ->
  truthy (Some u) = true
  /\ truthy (Some (u ++ "&key=" ++ interpolate key)%string) = true.
Proof.
  intros Hu. destruct u as [|c u]; [contradiction|]. split; reflexivity.
Qed.

(** C5, as the code has it.  When the submission is accepted and the handle
    is first done after [n] status re-fetches (and the loop has fuel for
    them), [generateVeoVideo] makes exactly [n] cycles, each a 5000 ms delay
    followed by a re-fetch, and then resolves: to the URI of the first video
    followed by [&key=] and the API key when that URI is present and not
    empty, and to [null] otherwise.  The storyboard marks a scene whose job
    resolved to [null] as failed. *)
Theorem poller_cycles_then_keyed_uri
        (b : Veo.Backend) (API_KEY : option string) (s : nat -> Veo.Operation)
        (n fuel : nat) (imageBase64 prompt ratio : string) :
  completes_at b (Veo.request imageBase64 prompt ratio) s n ->
  n <= fuel ->
  (exists t,
      Veo.generateVeoVideo b API_KEY fuel imageBase64 prompt ratio
      = Some (Return (match Veo.videoUri (s n) with
                      | Some u => if (u =? "")%string then None
                                  else Some (u ++ "&key=" ++ interpolate API_KEY)%string
                      | None => None
                      end), t)
      /\ t = Veo.Submit (Veo.request imageBase64 prompt ratio) :: polling_trace 0 n
      /\ Veo.cycles t = n)
  /\ (forall aistudio brandProfile veo k scene img st,
         Storyboard.image scene = Some img ->
         veo k (Storyboard.base64 img) (Storyboard.finalPrompt brandProfile scene)
             ratio = Some (Return None) ->
         Storyboard.settle_scene aistudio brandProfile veo ratio k scene st
         = (Storyboard.set_videos st
              (Storyboard.update (Storyboard.id scene)
                 (fun v => {| Storyboard.sceneId := Storyboard.sceneId v;
                              Storyboard.videoUrl := "";
                              Storyboard.status := Storyboard.failed |})
                 (Storyboard.generatedVideos st)),
            [Storyboard.SceneSettled k], Storyboard.Resolved)).
Proof.
  intros Hc Hf. split.
  - eexists. split; [|split; [reflexivity|]].
    + rewrite (generateVeoVideo_completes b s API_KEY fuel n _ _ _ Hc Hf).
      do 3 f_equal. destruct (Veo.videoUri (s n)) as [u|]; [|reflexivity].
      cbn [truthy interpolate]. now destruct (u =? "")%string.
    + unfold Veo.cycles. cbn [filter List.length]. f_equal.
      apply cycles_polling_trace.
  - intros aistudio brandProfile veo k scene img st Hi Hv.
    unfold Storyboard.settle_scene. now rewrite Hi, Hv.
Qed.

(** Scenario D with the API key K: the handle is not done, not done, then
    done with the URI X. *)
Lemma poller_cycles_then_keyed_uri_witness :
  (exists t,
      Veo.generateVeoVideo (sample_veo 2 (Some "X")) (Some "K") 5 "QUJD" "pan" "9:16"
      = Some (Return (match Veo.videoUri (sample_operation (2 <=? 2)%nat (Some "X")) with
                      | Some u => if (u =? "")%string then None
                                  else Some (u ++ "&key=" ++ interpolate (Some "K"))%string
                      | None => None
                      end), t)
      /\ t = Veo.Submit (Veo.request "QUJD" "pan" "9:16") :: polling_trace 0 2
      /\ Veo.cycles t = 2)
  /\ (forall aistudio brandProfile veo k scene img st,
         Storyboard.image scene = Some img ->
         veo k (Storyboard.base64 img) (Storyboard.finalPrompt brandProfile scene)
             "9:16" = Some (Return None) ->
         Storyboard.settle_scene aistudio brandProfile veo "9:16" k scene st
         = (Storyboard.set_videos st
              (Storyboard.update (Storyboard.id scene)
                 (fun v => {| Storyboard.sceneId := Storyboard.sceneId v;
                              Storyboard.videoUrl := "";
                              Storyboard.status := Storyboard.failed |})
                 (Storyboard.generatedVideos st)),
            [Storyboard.SceneSettled k], Storyboard.Resolved)).
Proof.
  apply (poller_cycles_then_keyed_uri (sample_veo 2 (Some "X")) (Some "K")
           (fun i => sample_operation (2 <=? i)%nat (Some "X")) 2 5
           "QUJD" "pan" "9:16").
  - apply sample_veo_completes.
  - lia.
Defined.

(** Scenario D, computed: two cycles, and the value returned is not X but X
    followed by the key parameter. *)
Lemma poller_returns_bare_uri_counterexample :
  Veo.generateVeoVideo (sample_veo 2 (Some "X")) (Some "K") 5 "QUJD" "pan" "9:16"
  = Some (Return (Some "X&key=K"),
          [Veo.Submit (Veo.request "QUJD" "pan" "9:16");
           Veo.Delay 5000; Veo.Refetch 0; Veo.Delay 5000; Veo.Refetch 1])
  /\ option_map fst
       (Veo.generateVeoVideo (sample_veo 2 (Some "X")) (Some "K") 5 "QUJD" "pan" "9:16")
     <> Some (Return (Some "X")).
Proof. split; [reflexivity | discriminate]. Qed.

(** A done handle without URI, and one with an empty URI: [null]. *)
Example poller_no_artifact :
  option_map fst
    (Veo.generateVeoVideo (sample_veo 1 None) (Some "K") 5 "QUJD" "pan" "9:16")
  = Some (Return None)
  /\ option_map fst
    (Veo.generateVeoVideo (sample_veo 1 (Some "")) (Some "K") 5 "QUJD" "pan" "9:16")
  = Some (Return None).
Proof. split; reflexivity. Qed.

(** A backend that never reports done keeps the loop going: whatever the
    fuel, it runs out. *)
Lemma poll_never_done (b : Veo.Backend) (fuel i : nat) (op : Veo.Operation) :
  (forall j o, exists o', Veo.getVideosOperation b j o = Return o'
                          /\ Veo.done o' = false) ->
  Veo.done op = false ->
  Veo.poll b fuel i op = None.
Proof.
  intros Hb. revert i op. induction fuel as [|fuel IH]; intros i op Hd;
    cbn [Veo.poll]; rewrite Hd; [reflexivity|].
  destruct (Hb i op) as (o' & -> & Hd'). now rewrite IH.
Qed.

(** C4, as the code has it.  When the job of a scene completes with the
    artifact URI [u] (not empty) returned by the backend, [generateVeoVideo]
    resolves to [u] followed by [&key=] and the API key, and it is this
    string, different from [u], that the storyboard stores as the video URL
    of the scene's entries, with the status completed. *)
Theorem completed_url_is_keyed_uri
        (backends : nat -> Veo.Backend) (API_KEY : option string) (fuel : nat)
        (aistudio : option Storyboard.AiStudio) (brandProfile : option BrandProfile)
        (ratio : string) (k : nat) (scene : Storyboard.VideoGenerationScene)
        (img : Storyboard.UploadedAsset) (st : Storyboard.State)
        (s : nat -> Veo.Operation) (n : nat) (u : string) :
  Storyboard.image scene = Some img ->
  completes_at (backends k)
               (Veo.request (Storyboard.base64 img)
                            (Storyboard.finalPrompt brandProfile scene) ratio) s n ->
  n <= fuel ->
  Veo.videoUri (s n) = Some u ->
  u <> ""%string ->
  let exposed := (u ++ "&key=" ++ interpolate API_KEY)%string in
  veo_outcomes backends API_KEY fuel k (Storyboard.base64 img)
               (Storyboard.finalPrompt brandProfile scene) ratio
  = Some (Return (Some exposed))
  /\ Storyboard.settle_scene aistudio brandProfile
       (veo_outcomes backends API_KEY fuel) ratio k scene st
     = (Storyboard.set_videos st
          (Storyboard.update (Storyboard.id scene)
             (fun v => {| Storyboard.sceneId := Storyboard.sceneId v;
                          Storyboard.videoUrl := exposed;
                          Storyboard.status := Storyboard.completed |})
             (Storyboard.generatedVideos st)),
        [Storyboard.SceneSettled k], Storyboard.Resolved)
  /\ exposed <> u.
Proof.
  intros Hi Hc Hf Hu Hne exposed.
  destruct (truthy_keyed u API_KEY Hne) as [T1 T2].
  assert (E : veo_outcomes backends API_KEY fuel k (Storyboard.base64 img)
                (Storyboard.finalPrompt brandProfile scene) ratio
              = Some (Return (Some exposed))).
  { unfold veo_outcomes.
    rewrite (generateVeoVideo_completes (backends k) s API_KEY fuel n _ _ _ Hc Hf).
    rewrite Hu, T1. reflexivity. }
  split; [exact E|]. split.
  - unfold Storyboard.settle_scene. rewrite Hi, E.
    fold exposed in T2. unfold or_else. rewrite T2. reflexivity.
  - apply append_nonempty_neq. discriminate.
Qed.

Lemma completed_url_is_keyed_uri_witness :
  let exposed :=
    ("https://video.example/v?alt=media" ++ "&key=" ++ interpolate (Some "K"))%string in
  veo_outcomes (fun _ => sample_veo 1 (Some "https://video.example/v?alt=media"))
               (Some "K") 5 0 (Storyboard.base64 {| Storyboard.base64 := "QUJD" |})
               (Storyboard.finalPrompt None (sample_scene "1" true)) "9:16"
  = Some (Return (Some exposed))
  /\ Storyboard.settle_scene None None
       (veo_outcomes (fun _ => sample_veo 1 (Some "https://video.example/v?alt=media"))
                     (Some "K") 5) "9:16" 0 (sample_scene "1" true)
       (sample_state [sample_scene "1" true])
     = (Storyboard.set_videos (sample_state [sample_scene "1" true])
          (Storyboard.update (Storyboard.id (sample_scene "1" true))
             (fun v => {| Storyboard.sceneId := Storyboard.sceneId v;
                          Storyboard.videoUrl := exposed;
                          Storyboard.status := Storyboard.completed |})
             (Storyboard.generatedVideos (sample_state [sample_scene "1" true]))),
        [Storyboard.SceneSettled 0], Storyboard.Resolved)
  /\ exposed <> "https://video.example/v?alt=media"%string.
Proof.
  apply (completed_url_is_keyed_uri
           (fun _ => sample_veo 1 (Some "https://video.example/v?alt=media"))
           (Some "K") 5 None None "9:16" 0 (sample_scene "1" true)
           {| Storyboard.base64 := "QUJD" |} (sample_state [sample_scene "1" true])
           (fun i => sample_operation (1 <=? i)%nat
                                      (Some "https://video.example/v?alt=media")) 1).
  - reflexivity.
  - apply sample_veo_completes.
  - lia.
  - reflexivity.
  - discriminate.
Defined.

(** One scene whose job completes at once with the URI returned by the
    backend: the completed entry holds the URI with the key parameter
    appended, not the URI. *)
Lemma uri_exposed_unmodified_counterexample :
  Veo.videoUri (sample_operation true (Some "https://video.example/v?alt=media"))
  = Some "https://video.example/v?alt=media"
  /\ Storyboard.generatedVideos
       (fst (Storyboard.handleGenerate None None
               (veo_outcomes
                  (fun _ => sample_veo 0 (Some "https://video.example/v?alt=media"))
                  (Some "K") 5)
               [0] (sample_state [sample_scene "1" true])))
     = [{| Storyboard.sceneId := "1";
           Storyboard.videoUrl := "https://video.example/v?alt=media&key=K";
           Storyboard.status := Storyboard.completed |}]
  /\ "https://video.example/v?alt=media&key=K"%string
     <> "https://video.example/v?alt=media"%string.
Proof. split; [reflexivity|]. split; [reflexivity | discriminate]. Qed.

(* ------------------------------------------------------------------ *)
(** * Properties of product analysis and of prompt derivation *)
(* ------------------------------------------------------------------ *)

Lemma or_else_nonempty (text d : string) :
  text <> ""%string -> or_else (Some text) d = text.
Proof.
  intros H. unfold or_else, truthy.
  destruct (String.eqb_spec text ""); [contradiction | reflexivity].
Qed.

(** [JSON.parse] on a few texts. *)
Example parse_samples :
  Json.parse "{}" = Return (Json.Object [])
  /\ Json.parse " [1, -2.5e+3, true, null, [ ]] "
     = Return (Json.Array [Json.Number "1"; Json.Number "-2.5e+3"; Json.Bool true;
                           Json.Null; Json.Array []])
  /\ Json.parse "" = Throw (new_Error "SyntaxError")
  /\ Json.parse "[1,]" = Throw (new_Error "SyntaxError")
  /\ Json.parse "01" = Throw (new_Error "SyntaxError")
  /\ Json.parse "{} x" = Throw (new_Error "SyntaxError").
Proof. repeat split. Qed.

(** C6, as the code has it.  When the analysis call returns a response whose
    text is not empty and is rejected by [JSON.parse], the result is the fixed
    fallback record; and whatever the text, a returned response never makes
    [analyzeProductDetails] throw. *)
Theorem unparsable_text_yields_fallback
        (response : GenerateContentResponse) (text : string) (e : Error) :
  response_text response = Some text ->
  text <> ""%string ->
  Json.parse text = Throw e ->
  Analysis.analyzeProductDetails (Return response)
  = Return (Json.Object [("description", Json.Str "Analysis failed");
                         ("usp", Json.Str "High Quality");
                         ("productCategory", Json.Str "General");
                         ("targetGender", Json.Str "Unisex")])
  /\ forall response', exists v,
       Analysis.analyzeProductDetails (Return response') = Return v.
Proof.
  intros Ht Hne Hp. split.
  - unfold Analysis.analyzeProductDetails.
    now rewrite Ht, (or_else_nonempty text "{}" Hne), Hp.
  - intros response'. unfold Analysis.analyzeProductDetails.
    destruct (Json.parse (or_else (response_text response') "{}")); eauto.
Qed.

Lemma unparsable_text_yields_fallback_witness :
  Analysis.analyzeProductDetails
    (Return {| candidates := None; response_text := Some "Sorry, I cannot help." |})
  = Return (Json.Object [("description", Json.Str "Analysis failed");
                         ("usp", Json.Str "High Quality");
                         ("productCategory", Json.Str "General");
                         ("targetGender", Json.Str "Unisex")])
  /\ forall response', exists v,
       Analysis.analyzeProductDetails (Return response') = Return v.
Proof.
  apply (unparsable_text_yields_fallback
           {| candidates := None; response_text := Some "Sorry, I cannot help." |}
           "Sorry, I cannot help." (new_Error "SyntaxError")).
  - reflexivity.
  - discriminate.
  - reflexivity.
Defined.

(** The empty text is not JSON, yet the result is not the fallback record:
    the literal of the empty object is parsed in its place. *)
Lemma empty_text_counterexample :
  Json.parse "" = Throw (new_Error "SyntaxError")
  /\ Analysis.analyzeProductDetails
       (Return {| candidates := None; response_text := Some "" |})
     = Return (Json.Object [])
  /\ Analysis.analyzeProductDetails
       (Return {| candidates := None; response_text := Some "" |})
     <> Return Analysis.fallback.
Proof. split; [reflexivity|]. split; [reflexivity | discriminate]. Qed.

(** C10.  When the text of the response is absent or empty,
    [analyzeProductDetails] parses the literal of the empty object and
    returns an object with no member, none of the four fields among them,
    which is not the fallback record.  In general the result is the parsed
    value whenever [JSON.parse] returns, and the fallback record exactly on
    the path where [JSON.parse] throws. *)
Theorem empty_text_yields_empty_record (c : option (list Candidate)) :
  or_else None "{}" = "{}"%string
  /\ or_else (Some ""%string) "{}" = "{}"%string
  /\ Json.parse "{}" = Return (Json.Object [])
  /\ Analysis.analyzeProductDetails
       (Return {| candidates := c; response_text := None |})
     = Return (Json.Object [])
  /\ Analysis.analyzeProductDetails
       (Return {| candidates := c; response_text := Some ""%string |})
     = Return (Json.Object [])
  /\ (forall field,
        In field ["description"; "usp"; "productCategory"; "targetGender"]%string ->
        Json.get field [] = None
        /\ exists v, Json.get field
                       [("description", Json.Str "Analysis failed");
                        ("usp", Json.Str "High Quality");
                        ("productCategory", Json.Str "General");
                        ("targetGender", Json.Str "Unisex")]%string = Some v)
  /\ Json.Object [] <> Analysis.fallback
  /\ (forall response v,
        Json.parse (or_else (response_text response) "{}") = Return v ->
        Analysis.analyzeProductDetails (Return response) = Return v)
  /\ (forall response e,
        Json.parse (or_else (response_text response) "{}") = Throw e ->
        Analysis.analyzeProductDetails (Return response) = Return Analysis.fallback).
Proof.
  do 5 (split; [reflexivity|]).
  split.
  { intros field Hf. split; [reflexivity|].
    cbn in Hf. destruct Hf as [<-|[<-|[<-|[<-|[]]]]]; cbn; eauto. }
  split; [discriminate|].
  split; intros response x H; unfold Analysis.analyzeProductDetails; now rewrite H.
Qed.

Lemma empty_text_yields_empty_record_witness :
  Analysis.analyzeProductDetails
    (Return {| candidates := None; response_text := None |})
  = Return (Json.Object [])
  /\ Analysis.analyzeProductDetails
       (Return {| candidates := None;
                  response_text := Some "not json" |})
     = Return Analysis.fallback.
Proof.
  destruct (empty_text_yields_empty_record None)
    as (_ & _ & _ & H1 & _ & _ & _ & _ & H2).
  split; [exact H1|].
  apply (H2 {| candidates := None; response_text := Some "not json" |}
            (new_Error "SyntaxError")).
  reflexivity.
Defined.

(** ** Lower case of an ASCII text *)

Lemma text_of_app (l1 l2 : list N) :
  text_of (l1 ++ l2) = (text_of l1 ++ text_of l2)%string.
Proof.
  induction l1 as [|c l1 IH]; [reflexivity|].
  cbn [app text_of]. rewrite IH. clear IH.
  induction (utf8 c) as [|x u IHu]; [reflexivity|].
  cbn [append]. now rewrite IHu.
Qed.

Lemma code_points_ascii (s : string) :
  is_ascii s = true -> code_points s = map N_of_ascii (list_ascii_of_string s).
Proof.
  induction s as [|a s IH]; [reflexivity|].
  cbn [is_ascii]. intros H. apply andb_true_iff in H. destruct H as [Ha Hs].
  cbn [code_points list_ascii_of_string map]. rewrite Ha. f_equal. auto.
Qed.

(** An ASCII character is lowered to one ASCII character, whatever surrounds
    it: a letter A-Z to its small letter, any other to itself. *)
Lemma lower_code_point_ascii (a : ascii) (before after : list N) :
  (N_of_ascii a <? 128)%N = true ->
  text_of (lower_code_point before (N_of_ascii a) after)
  = String (lower_ascii a) EmptyString.
Proof.
  destruct a as [b0 b1 b2 b3 b4 b5 b6 b7].
  destruct b7.
  - intros H. destruct b0, b1, b2, b3, b4, b5, b6; vm_compute in H; discriminate H.
  - intros _. destruct b0, b1, b2, b3, b4, b5, b6; vm_compute; reflexivity.
Qed.

Lemma lower_code_points_ascii (l : list ascii) (before : list N) :
  Forall (fun a => (N_of_ascii a <? 128)%N = true) l ->
  text_of (lower_code_points before (map N_of_ascii l))
  = lower_text (string_of_list_ascii l).
Proof.
  intros H. revert before. induction H as [|a l Ha Hl IH]; intros before.
  - reflexivity.
  - cbn [map lower_code_points string_of_list_ascii lower_text].
    rewrite text_of_app, lower_code_point_ascii by exact Ha.
    cbn [append]. now rewrite IH.
Qed.

Lemma is_ascii_Forall (s : string) :
  is_ascii s = true ->
  Forall (fun a => (N_of_ascii a <? 128)%N = true) (list_ascii_of_string s).
Proof.
  induction s as [|a s IH]; cbn [is_ascii list_ascii_of_string]; intros H.
  - constructor.
  - apply andb_true_iff in H. destruct H as [Ha Hs]. constructor; auto.
Qed.

(** On a text of ASCII characters [toLowerCase] lowers the letters A-Z and
    changes nothing else. *)
Lemma toLowerCase_ascii (s : string) :
  is_ascii s = true -> toLowerCase s = lower_text s.
Proof.
  intros H. unfold toLowerCase. rewrite (code_points_ascii s H).
  rewrite lower_code_points_ascii by now apply is_ascii_Forall.
  now rewrite string_of_list_ascii_of_string.
Qed.

Lemma startsWith_step (a b : ascii) (k s : string) :
  startsWith (String a k) (String b s) = Ascii.eqb a b && startsWith k s.
Proof.
  unfold startsWith. cbn [strip_prefix]. now destruct (Ascii.eqb a b).
Qed.

Lemma begins_with_lower (k s : string) :
  begins_with k s = startsWith (lower_text k) (lower_text s).
Proof.
  revert s. induction k as [|a k IH]; intros s; [reflexivity|].
  destruct s as [|b s]; [reflexivity|].
  cbn [begins_with lower_text]. rewrite startsWith_step, IH. reflexivity.
Qed.

(** A keyword occurs in a text, the case of letters apart, when its lower
    case is part of the lower case of the text. *)
Lemma mentions_lower (k s : string) :
  mentions k s = includes (lower_text k) (lower_text s).
Proof.
  induction s as [|b s IH].
  - cbn [mentions includes lower_text]. now rewrite begins_with_lower.
  - cbn [mentions includes lower_text]. rewrite <- IH.
    now rewrite begins_with_lower.
Qed.

Lemma select_action_ext (f g : string -> bool)
      (classes : list (list string * string)) :
  (forall keywords phrase k, In (keywords, phrase) classes -> In k keywords ->
                             f k = g k) ->
  select_action f classes = select_action g classes.
Proof.
  induction classes as [|[keywords phrase] rest IH]; intros H; [reflexivity|].
  cbn [select_action].
  assert (E : existsb f keywords = existsb g keywords).
  { assert (Hk : forall k, In k keywords -> f k = g k)
      by (intros k; apply (H keywords phrase); now left).
    clear H IH. induction keywords as [|k ks IHk]; [reflexivity|].
    cbn [existsb]. rewrite (Hk k) by now left.
    rewrite IHk; [reflexivity|]. intros k' Hk'. apply Hk. now right. }
  rewrite E, IH; [reflexivity|].
  intros ks p k Hin. apply (H ks p k). now right.
Qed.

(** C7, as the code has it.  When the pose asks for automatic selection (it
    includes "Smart Adaptive" or is "Let AI Decide (Auto)") and analysis data
    is present, the derived action is the phrase of the first class, in the
    order footwear, skincare / cosmetic, apparel / fashion, beverage / food,
    one of whose keywords is part of the lower-cased product category, the
    keywords being "shoe" and "footwear", "skincare" and "cosmetic",
    "clothing" and "fashion", "beverage" and "food"; a category whose lower
    case holds none of the eight keywords gets the generic
    natural-interaction phrase.  For a category of ASCII characters a keyword
    is part of the lower-cased category exactly when it occurs in the
    category, the case of letters apart. *)
Theorem derived_action_by_class (pose : string) (a : Analysis.AnalysisResult) :
  Analysis.auto_action_requested pose = true ->
  (includes "Smart Adaptive" pose = true \/ pose = "Let AI Decide (Auto)"%string)
  /\ Analysis.derivedAction pose (Some a)
     = select_action
         (fun k => includes k (toLowerCase (Analysis.productCategory a)))
         keyword_classes
  /\ ((forall k,
         In k ["shoe"; "footwear"; "skincare"; "cosmetic";
               "clothing"; "fashion"; "beverage"; "food"]%string ->
         includes k (toLowerCase (Analysis.productCategory a)) = false) ->
      Analysis.derivedAction pose (Some a)
      = "Natural interaction with the product in a lifestyle setting."%string)
  /\ (is_ascii (Analysis.productCategory a) = true ->
      Analysis.derivedAction pose (Some a)
      = select_action (fun k => mentions k (Analysis.productCategory a))
                      keyword_classes).
Proof.
  intros Hp. split.
  { unfold Analysis.auto_action_requested in Hp. apply orb_true_iff in Hp.
    destruct Hp as [Hp|Hp]; [now left | right; now apply String.eqb_eq]. }
  assert (E : Analysis.derivedAction pose (Some a)
              = select_action
                  (fun k => includes k (toLowerCase (Analysis.productCategory a)))
                  keyword_classes).
  { unfold Analysis.derivedAction. rewrite Hp.
    unfold keyword_classes. cbn [select_action existsb].
    rewrite !orb_false_r. reflexivity. }
  split; [exact E|]. split.
  - intros Hnone. rewrite E.
    unfold keyword_classes. cbn [select_action existsb].
    rewrite !Hnone by (cbn [In]; auto 10). reflexivity.
  - intros Ha. rewrite E. apply select_action_ext. intros keywords phrase k Hc Hk.
    rewrite (toLowerCase_ascii _ Ha), mentions_lower.
    assert (Hl : lower_text k = k); [|now rewrite Hl].
    unfold keyword_classes in Hc. cbn [In] in Hc.
    destruct Hc as [Hc|[Hc|[Hc|[Hc|[]]]]]; inversion Hc; subst keywords;
      cbn [In] in Hk; destruct Hk as [<-|[<-|[]]]; reflexivity.
Qed.

(** "Fashion SHOES" is of the footwear class, which precedes the class of
    "fashion"; "Electronics" is of no class; and a category written with the
    Kelvin sign U+212A for its K, whose lower case is "skincare", is of the
    skincare class. *)
Lemma derived_action_by_class_witness :
  Analysis.derivedAction "Let AI Decide (Auto)"
    (Some (sample_analysis "Fashion SHOES"))
  = "Low angle shot, showing the model's legs/feet walking or dynamic movement with the shoes."%string
  /\ Analysis.derivedAction "Let AI Decide (Auto)"
       (Some (sample_analysis "Electronics"))
     = "Natural interaction with the product in a lifestyle setting."%string
  /\ Analysis.derivedAction "Smart Adaptive (AI)"
       (Some (sample_analysis
                (text_of [0x53; 0x212A; 0x49; 0x4E; 0x43; 0x41; 0x52; 0x45]%N)))
     = "Close up portrait, model holding product near face, flawless skin texture."%string.
Proof.
  split; [|split].
  - destruct (derived_action_by_class "Let AI Decide (Auto)"
                (sample_analysis "Fashion SHOES") eq_refl) as (_ & _ & _ & H).
    rewrite (H eq_refl). reflexivity.
  - destruct (derived_action_by_class "Let AI Decide (Auto)"
                (sample_analysis "Electronics") eq_refl) as (_ & _ & G & _).
    apply G. intros k Hk. cbn [In] in Hk.
    destruct Hk as [<-|[<-|[<-|[<-|[<-|[<-|[<-|[<-|[]]]]]]]]];
      vm_compute; reflexivity.
  - destruct (derived_action_by_class "Smart Adaptive (AI)"
                (sample_analysis
                   (text_of [0x53; 0x212A; 0x49; 0x4E; 0x43; 0x41; 0x52; 0x45]%N))
                eq_refl) as (_ & E & _).
    rewrite E. vm_compute. reflexivity.
Defined.

(** The classes as the specification names them are not the classes of the
    program.  "Apparel" is of the class apparel / fashion as named, and the
    program gives it the generic phrase; "Shoes" and "Clothing" hold none of
    the named keywords, and the program gives them the phrases of the
    footwear and of the apparel class. *)
Lemma named_classes_counterexample :
  Analysis.auto_action_requested "Let AI Decide (Auto)" = true
  /\ (select_action (fun k => mentions k "Apparel") named_classes
      = Analysis.apparel_action
      /\ Analysis.derivedAction "Let AI Decide (Auto)"
           (Some (sample_analysis "Apparel"))
         = Analysis.generic_action
      /\ Analysis.generic_action <> Analysis.apparel_action)
  /\ (select_action (fun k => mentions k "Shoes") named_classes
      = Analysis.generic_action
      /\ Analysis.derivedAction "Let AI Decide (Auto)"
           (Some (sample_analysis "Shoes"))
         = Analysis.footwear_action
      /\ Analysis.footwear_action <> Analysis.generic_action)
  /\ (select_action (fun k => mentions k "Clothing") named_classes
      = Analysis.generic_action
      /\ Analysis.derivedAction "Let AI Decide (Auto)"
           (Some (sample_analysis "Clothing"))
         = Analysis.apparel_action
      /\ Analysis.apparel_action <> Analysis.generic_action).
Proof.
  split; [reflexivity|].
  split; [|split]; (split; [vm_compute; reflexivity|]);
    (split; [vm_compute; reflexivity | discriminate]).
Qed.

(** The chain at work: precedence between classes, the case of letters, a
    letter-like sign that has a small letter (the Kelvin sign U+212A, whose
    lower case is k), and a pose that does not ask for adaptation. *)
Example derived_actions :
  Analysis.derivedAction "Smart Adaptive (AI)" (Some (sample_analysis "Fashion SHOES"))
  = Analysis.footwear_action
  /\ Analysis.derivedAction "Smart Adaptive (AI)"
       (Some (sample_analysis "Skincare & Food"))
     = Analysis.skincare_action
  /\ Analysis.derivedAction "Let AI Decide (Auto)"
       (Some (sample_analysis "Fashion drinks, beverage"))
     = Analysis.apparel_action
  /\ Analysis.derivedAction "Let AI Decide (Auto)" (Some (sample_analysis "Pet Food"))
     = Analysis.beverage_action
  /\ Analysis.derivedAction "Let AI Decide (Auto)"
       (Some (sample_analysis "Electronics"))
     = Analysis.generic_action
  /\ Analysis.derivedAction "Let AI Decide (Auto)"
       (Some (sample_analysis
                (text_of [0x53; 0x212A; 0x49; 0x4E; 0x43; 0x41; 0x52; 0x45]%N)))
     = Analysis.skincare_action
  /\ Analysis.derivedAction "Standing" (Some (sample_analysis "Shoes"))
     = "Standing"%string
  /\ Analysis.derivedAction "Let AI Decide (Auto)" None
     = "Let AI Decide (Auto)"%string.
Proof. repeat split; vm_compute; reflexivity. Qed.

(** [toLowerCase] beyond ASCII: an accented capital, the capital sigma in the
    middle and at the end of a word, the dotted capital I, a capital outside
    the basic plane. *)
Example toLowerCase_samples :
  code_points (toLowerCase (text_of [0xC9; 0x3A3; 0x391; 0x3A3; 0x2E; 0x20; 0x3A3]%N))
  = [0xE9; 0x3C3; 0x3B1; 0x3C2; 0x2E; 0x20; 0x3C3]%N
  /\ code_points (toLowerCase (text_of [0x130; 0x10400]%N))
     = [0x69; 0x307; 0x10428]%N
  /\ toLowerCase "Shoes & BAGS 42" = "shoes & bags 42"%string.
Proof. repeat split; vm_compute; reflexivity. Qed.

(* ------------------------------------------------------------------ *)
(** * Strings *)
(* ------------------------------------------------------------------ *)

Lemma append_assoc (a b c : string) : ((a ++ b) ++ c = a ++ (b ++ c))%string.
Proof. induction a as [|x a IH]; [reflexivity|]. cbn [append]. now rewrite IH. Qed.

Lemma length_append (a b : string) :
  String.length (a ++ b)%string = String.length a + String.length b.
Proof. induction a as [|x a IH]; [reflexivity|]. cbn. now rewrite IH. Qed.

Lemma append_inj_l (a x y : string) : (a ++ x = a ++ y)%string -> x = y.
Proof.
  induction a as [|c a IH]; [trivial|]. cbn [append]. intros E.
  inversion E. auto.
Qed.

Lemma append_inj_r (a b c : string) : (a ++ c = b ++ c)%string -> a = b.
Proof.
  revert b. induction a as [|x a IH]; intros [|y b] E.
  - reflexivity.
  - apply (f_equal String.length) in E. cbn in E. rewrite length_append in E. lia.
  - apply (f_equal String.length) in E. cbn in E. rewrite length_append in E. lia.
  - cbn [append] in E. inversion E. f_equal. auto.
Qed.

Lemma strip_prefix_app (p s : string) : strip_prefix p (p ++ s)%string = Some s.
Proof.
  induction p as [|c p IH]; [reflexivity|]. cbn. now rewrite Ascii.eqb_refl.
Qed.

Lemma strip_prefix_inv (p s r : string) :
  strip_prefix p s = Some r -> s = (p ++ r)%string.
Proof.
  revert s. induction p as [|c p IH]; intros s; cbn.
  - intros E. now inversion E.
  - destruct s as [|x s]; [discriminate|].
    destruct (Ascii.eqb_spec c x) as [->|]; [|discriminate].
    intros E. cbn. f_equal. auto.
Qed.

Lemma strip_prefix_app_none (p q s : string) :
  strip_prefix p s = None -> strip_prefix (p ++ q)%string s = None.
Proof.
  revert s. induction p as [|c p IH]; intros s; cbn; [discriminate|].
  destruct s as [|x s]; [reflexivity|].
  destruct (Ascii.eqb c x); [apply IH | reflexivity].
Qed.

Lemma includes_here (sub rest : string) : includes sub (sub ++ rest)%string = true.
Proof.
  assert (H : startsWith sub (sub ++ rest)%string = true).
  { unfold startsWith. now rewrite strip_prefix_app. }
  destruct (sub ++ rest)%string; cbn [includes]; now rewrite H.
Qed.

Lemma includes_later (sub a b : string) :
  includes sub b = true -> includes sub (a ++ b)%string = true.
Proof.
  intros H. induction a as [|c a IH]; [exact H|].
  cbn [append includes]. rewrite IH. apply orb_true_r.
Qed.

(** [sub] occurs in every text of which it is a middle part. *)
Lemma includes_middle (sub a b : string) :
  includes sub (a ++ sub ++ b)%string = true.
Proof. apply includes_later, includes_here. Qed.

Lemma of_nat_inj (n m : nat) : of_nat n = of_nat m -> n = m.
Proof.
  unfold of_nat. intros E. apply DecimalNat.Unsigned.to_uint_inj.
  assert (H : Some (Nat.to_uint n) = Some (Nat.to_uint m)).
  { rewrite <- !NilEmpty.usu. now rewrite E. }
  now inversion H.
Qed.

(* ------------------------------------------------------------------ *)
(** * More properties of the image helpers *)
(* ------------------------------------------------------------------ *)

(** X1.  [cleanBase64] removes one leading header of a PNG, JPEG, JPG or
    WEBP data URI and nothing else: the input is always a header (or
    nothing) followed by the output; a string that carries one of the four
    headers loses exactly that header; a string that does not start with
    [data:image/] is returned as it is. *)
Theorem cleanBase64_strips_one_header (b64 : string) :
  (exists h, In h (""%string :: image_headers)
             /\ b64 = (h ++ cleanBase64 b64)%string)
  /\ (forall h d, In h image_headers -> cleanBase64 (h ++ d)%string = d)
  /\ (startsWith "data:image/" b64 = false -> cleanBase64 b64 = b64).
Proof.
  split; [|split].
  - unfold cleanBase64, image_headers.
    destruct (strip_prefix "data:image/png;base64," b64) as [r|] eqn:E1.
    { apply strip_prefix_inv in E1. eexists. split; [|exact E1]. cbn. auto. }
    destruct (strip_prefix "data:image/jpeg;base64," b64) as [r|] eqn:E2.
    { apply strip_prefix_inv in E2. eexists. split; [|exact E2]. cbn. auto. }
    destruct (strip_prefix "data:image/jpg;base64," b64) as [r|] eqn:E3.
    { apply strip_prefix_inv in E3. eexists. split; [|exact E3]. cbn. auto. }
    destruct (strip_prefix "data:image/webp;base64," b64) as [r|] eqn:E4.
    { apply strip_prefix_inv in E4. eexists. split; [|exact E4]. cbn. auto 6. }
    exists ""%string. split; [now left | reflexivity].
  - intros h d Hh. unfold image_headers in Hh. cbn in Hh.
    destruct Hh as [<-|[<-|[<-|[<-|[]]]]]; reflexivity.
  - intros H. unfold startsWith in H.
    destruct (strip_prefix "data:image/" b64) eqn:E; [discriminate|].
    pose proof (strip_prefix_app_none "data:image/" "png;base64," b64 E) as N1.
    pose proof (strip_prefix_app_none "data:image/" "jpeg;base64," b64 E) as N2.
    pose proof (strip_prefix_app_none "data:image/" "jpg;base64," b64 E) as N3.
    pose proof (strip_prefix_app_none "data:image/" "webp;base64," b64 E) as N4.
    cbn [append] in N1, N2, N3, N4.
    unfold cleanBase64. now rewrite N1, N2, N3, N4.
Qed.

Lemma cleanBase64_strips_one_header_witness :
  cleanBase64 "QUJDRA==" = "QUJDRA=="%string
  /\ cleanBase64 "data:image/webp;base64,QUJDRA==" = "QUJDRA=="%string.
Proof.
  destruct (cleanBase64_strips_one_header "QUJDRA==") as (_ & H2 & H3).
  split.
  - apply H3. reflexivity.
  - apply (H2 "data:image/webp;base64,"%string "QUJDRA=="%string).
    cbn. auto.
Defined.

(** The header is removed once: what follows it is not looked at. *)
Example cleanBase64_once :
  cleanBase64 "data:image/png;base64,data:image/png;base64,QUJD"
  = "data:image/png;base64,QUJD"%string
  /\ cleanBase64 "data:image/gif;base64,QUJD" = "data:image/gif;base64,QUJD"%string.
Proof. split; reflexivity. Qed.

(** X2.  The loop shared by the image generators returns a data URI exactly
    when the answer has an inline part; the URI is built from the data of
    the first such part, all parts before it being text, and always
    announces PNG whatever the MIME type of the part; [cleanBase64] gives the
    data back, so a generated image can be fed to the services again. *)
Theorem first_inline_image_round_trip (ps : list Part) (u : string) :
  first_inline_image ps = Some u <->
  exists pre mime d post,
    ps = pre ++ InlineData mime d :: post
    /\ Forall is_text pre
    /\ u = ("data:image/png;base64," ++ d)%string
    /\ cleanBase64 u = d.
Proof.
  split.
  - induction ps as [|p ps IH]; [discriminate|].
    destruct p as [mime d|t]; cbn [first_inline_image].
    + intros E.
      assert (Hu : u = ("data:image/png;base64," ++ d)%string) by congruence.
      exists [], mime, d, ps.
      split; [reflexivity|]. split; [constructor|]. split; [exact Hu|].
      rewrite Hu. reflexivity.
    + intros E. destruct (IH E) as (pre & mime & d & post & -> & Hpre & Hu & Hc).
      exists (Text t :: pre), mime, d, post.
      split; [reflexivity|]. split; [|split; assumption].
      constructor; [now exists t | assumption].
  - intros (pre & mime & d & post & -> & Hpre & -> & _).
    induction Hpre as [|p pre [t ->] Hpre IH]; [reflexivity | exact IH].
Qed.

Lemma first_inline_image_round_trip_witness :
  exists pre mime d post,
    [Text "Here it is"; InlineData "image/jpeg" "QUJD"; InlineData "image/png" "RUZH"]
    = pre ++ InlineData mime d :: post
    /\ Forall is_text pre
    /\ "data:image/png;base64,QUJD"%string = ("data:image/png;base64," ++ d)%string
    /\ cleanBase64 "data:image/png;base64,QUJD" = d.
Proof.
  apply (proj1 (first_inline_image_round_trip
                  [Text "Here it is"; InlineData "image/jpeg" "QUJD";
                   InlineData "image/png" "RUZH"]
                  "data:image/png;base64,QUJD")).
  reflexivity.
Defined.

(* ------------------------------------------------------------------ *)
(** * More properties of the batch orchestrator *)
(* ------------------------------------------------------------------ *)

Lemma first_inline_image_header (ps : list Part) (u : string) :
  first_inline_image ps = Some u -> startsWith "data:image/png;base64," u = true.
Proof.
  induction ps as [|p ps IH]; [discriminate|].
  destruct p as [mime d|t]; cbn [first_inline_image]; [|exact IH].
  intros E. assert (Hu : u = ("data:image/png;base64," ++ d)%string) by congruence.
  rewrite Hu. unfold startsWith. now rewrite strip_prefix_app.
Qed.

Lemma successes_bound (single : nat -> option string) (P : string -> Prop)
      (quantity : nat) :
  (forall i u, single i = Some u -> P u) ->
  List.length (successes single quantity) <= quantity
  /\ Forall P (successes single quantity).
Proof.
  intros HP. unfold successes.
  assert (G : forall l,
    List.length (flat_map (fun i => match single i with
                                    | Some u => [u] | None => [] end) l)
    <= List.length l
    /\ Forall P (flat_map (fun i => match single i with
                                    | Some u => [u] | None => [] end) l)).
  { induction l as [|i l [IH1 IH2]]; [split; [reflexivity | constructor]|].
    cbn [flat_map]. destruct (single i) as [u|] eqn:E; cbn [app List.length].
    - split; [lia|]. constructor; [now apply (HP i) | exact IH2].
    - split; [lia | exact IH2]. }
  destruct (G (seq 0 quantity)) as [G1 G2]. rewrite length_seq in G1. now split.
Qed.

(** X4.  A list returned by either generator holds at least one and at most
    [quantity] URLs, and each of them is a data URI that announces PNG. *)
Theorem returned_urls_are_png_data_uris
        (ai : Batch.Backend) (imageBase64 style ratio : string)
        (images : list (string * string)) (promptInstruction : string)
        (brandProfile : option BrandProfile)
        (sched : list nat -> list nat) (quantity fuel : nat) :
  ceil_div quantity Batch.BATCH_SIZE <= fuel ->
  (exists r st,
      Batch.generateStudioImage ai imageBase64 style ratio brandProfile
                                sched quantity fuel = Some (r, st)
      /\ forall l, r = Return l ->
           1 <= List.length l <= quantity
           /\ Forall (fun u => startsWith "data:image/png;base64," u = true) l)
  /\ (exists r st,
      Batch.generateCompositeImage ai images promptInstruction ratio brandProfile
                                   sched quantity fuel = Some (r, st)
      /\ forall l, r = Return l ->
           1 <= List.length l <= quantity
           /\ Forall (fun u => startsWith "data:image/png;base64," u = true) l).
Proof.
  intros Hf.
  assert (K : forall req msg,
    exists r st,
      Batch.run (fun i => Batch.single_call ai i (req i)) sched quantity fuel msg
      = Some (r, st)
      /\ forall l, r = Return l ->
           1 <= List.length l <= quantity
           /\ Forall (fun u => startsWith "data:image/png;base64," u = true) l).
  { intros req msg.
    destruct (run_outcome ai req sched quantity fuel msg Hf) as (st & E & _).
    eexists. exists st. split; [exact E|].
    destruct (successes_bound (fun i => Batch.single_call ai i (req i))
                (fun u => startsWith "data:image/png;base64," u = true) quantity)
      as [B1 B2].
    { intros i u. unfold Batch.single_call. destruct (ai i (req i)); [|discriminate].
      apply first_inline_image_header. }
    destruct (successes (fun i => Batch.single_call ai i (req i)) quantity)
      as [|u us] eqn:Es; [discriminate|].
    intros l El. assert (l = u :: us) by congruence. subst l.
    cbn [List.length] in *. split; [lia | exact B2]. }
  split; apply K.
Qed.

Lemma returned_urls_are_png_data_uris_witness :
  (exists r st,
      Batch.generateStudioImage (sample_backend [1; 2]) "QUJD" "Minimal" "1:1" None
                                (fun l => l) 6 2 = Some (r, st)
      /\ forall l, r = Return l ->
           1 <= List.length l <= 6
           /\ Forall (fun u => startsWith "data:image/png;base64," u = true) l)
  /\ (exists r st,
      Batch.generateCompositeImage (sample_backend [1; 2]) [("QUJD", "@img1")]
                                   "On a beach" "1:1" None (fun l => l) 6 2
      = Some (r, st)
      /\ forall l, r = Return l ->
           1 <= List.length l <= 6
           /\ Forall (fun u => startsWith "data:image/png;base64," u = true) l).
Proof.
  apply returned_urls_are_png_data_uris. vm_compute. lia.
Defined.

(** X5.  With the quantity zero both generators throw their error at once:
    the loop body never runs and no call reaches the backend. *)
Theorem zero_quantity_throws
        (ai : Batch.Backend) (imageBase64 style ratio : string)
        (images : list (string * string)) (promptInstruction : string)
        (brandProfile : option BrandProfile)
        (sched : list nat -> list nat) (fuel : nat) :
  Batch.generateStudioImage ai imageBase64 style ratio brandProfile sched 0 fuel
  = Some (Throw (new_Error "No image generated"), Batch.init)
  /\ Batch.generateCompositeImage ai images promptInstruction ratio brandProfile
                                  sched 0 fuel
     = Some (Throw (new_Error "No composite images generated"), Batch.init)
  /\ Batch.trace Batch.init = [].
Proof. destruct fuel; repeat split. Qed.

(** X6.  Every request of [generateCompositeImage] carries one image part
    per input image, in order and cleaned of its header, followed by exactly
    one text part: the prompt for the first item, the prompt with its
    variation note for the others.  The text part of the shared [parts] is
    replaced, never duplicated. *)
Theorem composite_request_shape
        (images : list (string * string)) (promptInstruction ratio : string)
        (brandProfile : option BrandProfile) (index : nat) :
  req_parts (Batch.composite_request images promptInstruction ratio brandProfile index)
  = map (fun img => InlineData "image/jpeg" (cleanBase64 (fst img))) images
    ++ [Text (if (index =? 0)%nat
              then Batch.finalPrompt promptInstruction brandProfile
              else (Batch.finalPrompt promptInstruction brandProfile
                    ++ " (Variation " ++ of_nat (index + 1)
                    ++ ", try a slightly different angle or composition arrangement)")%string)].
Proof.
  unfold Batch.composite_request, Batch.composite_parts. cbn [req_parts].
  rewrite length_app. cbn [List.length].
  match goal with
  | |- context [firstn (List.length ?l + 1 - 1)] =>
      replace (List.length l + 1 - 1) with (List.length l + 0) by lia
  end.
  rewrite firstn_app_2. cbn [firstn]. rewrite app_nil_r.
  destruct index; reflexivity.
Qed.

Lemma variation_inj (prompt note : string) (i j : nat) :
  (if (0 <? i)%nat
   then (prompt ++ " (Variation " ++ of_nat (i + 1) ++ note)%string else prompt)
  = (if (0 <? j)%nat
     then (prompt ++ " (Variation " ++ of_nat (j + 1) ++ note)%string else prompt) ->
  i = j.
Proof.
  destruct i as [|i], j as [|j]; cbn [Nat.ltb Nat.leb]; intros E.
  - reflexivity.
  - exfalso. symmetry in E. revert E. apply append_nonempty_neq. discriminate.
  - exfalso. revert E. apply append_nonempty_neq. discriminate.
  - apply append_inj_l in E.
    apply (append_inj_l " (Variation ") in E.
    apply append_inj_r, of_nat_inj in E. lia.
Qed.

(** X7.  Within a run no two items are sent the same request: the first
    carries the prompt as it is, every other one the prompt with its own
    variation number. *)
Theorem items_get_distinct_requests
        (imageBase64 style ratio : string)
        (images : list (string * string)) (promptInstruction : string)
        (brandProfile : option BrandProfile) (i j : nat) :
  i <> j ->
  Batch.studio_request imageBase64 style ratio brandProfile i
  <> Batch.studio_request imageBase64 style ratio brandProfile j
  /\ Batch.composite_request images promptInstruction ratio brandProfile i
     <> Batch.composite_request images promptInstruction ratio brandProfile j.
Proof.
  intros Hij. split; intros E; apply Hij.
  - unfold Batch.studio_request in E.
    apply (f_equal req_parts) in E. cbn [req_parts] in E.
    assert (T : forall a b (x y : string), [a; Text x] = [b; Text y] -> x = y)
      by (intros a b x y H; now inversion H).
    apply T in E. eapply variation_inj. exact E.
  - unfold Batch.composite_request in E.
    apply (f_equal req_parts) in E. cbn [req_parts] in E.
    apply app_inv_head in E.
    assert (T : forall (x y : string), [Text x] = [Text y] -> x = y)
      by (intros x y H; now inversion H).
    apply T in E. eapply variation_inj. exact E.
Qed.

Lemma items_get_distinct_requests_witness :
  Batch.studio_request "QUJD" "Minimal" "1:1" None 0
  <> Batch.studio_request "QUJD" "Minimal" "1:1" None 11
  /\ Batch.composite_request [("QUJD", "@img1")] "On a beach" "1:1" None 0
     <> Batch.composite_request [("QUJD", "@img1")] "On a beach" "1:1" None 11.
Proof.
  apply items_get_distinct_requests. lia.
Defined.

(* ------------------------------------------------------------------ *)
(** * Properties of text generation *)
(* ------------------------------------------------------------------ *)

Lemma or_else_falsy (v : option string) (d : string) :
  truthy v = false -> or_else v d = d.
Proof. unfold or_else. now intros ->. Qed.

(** X8.  When its call returns, [generateVideoScript] never throws: it
    returns the parsed value when the text parses, and the empty array both
    when the text is absent or empty and when it does not parse. *)
Theorem video_script_degrades_to_empty_array
        (ai : Text.Backend) (productDescription usp mood : string)
        (sceneCount : nat) (brandProfile : option BrandProfile)
        (response : GenerateContentResponse) :
  ai (Text.script_request productDescription usp mood sceneCount brandProfile)
  = Return response ->
  let result :=
    Text.generateVideoScript productDescription usp mood sceneCount brandProfile ai in
  (exists v, result = Return v)
  /\ (truthy (response_text response) = false -> result = Return (Json.Array []))
  /\ (forall e, Json.parse (or_else (response_text response) "[]") = Throw e ->
                result = Return (Json.Array []))
  /\ (forall v, Json.parse (or_else (response_text response) "[]") = Return v ->
                result = Return v).
Proof.
  intros Hai result. subst result. unfold Text.generateVideoScript. rewrite Hai.
  split; [|split; [|split]].
  - destruct (Json.parse (or_else (response_text response) "[]")); eauto.
  - intros Hf. now rewrite (or_else_falsy _ _ Hf).
  - intros e ->. reflexivity.
  - intros v ->. reflexivity.
Qed.

Lemma video_script_degrades_to_empty_array_witness :
  Text.generateVideoScript "Serum" "Glow" "Calm" 3 None (sample_text (Some "Sorry."))
  = Return (Json.Array [])
  /\ Text.generateVideoScript "Serum" "Glow" "Calm" 3 None (sample_text None)
     = Return (Json.Array []).
Proof.
  split.
  - destruct (video_script_degrades_to_empty_array (sample_text (Some "Sorry."))
                "Serum" "Glow" "Calm" 3 None
                {| candidates := None; response_text := Some "Sorry." |} eq_refl)
      as (_ & _ & H & _).
    apply (H (new_Error "SyntaxError")). reflexivity.
  - destruct (video_script_degrades_to_empty_array (sample_text None)
                "Serum" "Glow" "Calm" 3 None
                {| candidates := None; response_text := None |} eq_refl)
      as (_ & H & _).
    apply H. reflexivity.
Defined.

(** X9.  [generateBulkVariations] has no fallback for a text that does not
    parse: in both modes the parse error rejects the promise.  Only an
    absent or empty text is replaced, and gives the empty array. *)
Theorem bulk_variations_parse_error_propagates
        (ai : Text.Backend) (mode : Text.Mode) (quantity : nat)
        (baseData : Text.BaseData) (response : GenerateContentResponse) :
  ai (Text.bulk_request mode quantity baseData) = Return response ->
  let result := Text.generateBulkVariations mode quantity baseData ai in
  (truthy (response_text response) = false -> result = Return (Json.Array []))
  /\ (forall e, Json.parse (or_else (response_text response) "[]") = Throw e ->
                result = Throw e)
  /\ (forall text e, response_text response = Some text -> text <> ""%string ->
                     Json.parse text = Throw e -> result = Throw e).
Proof.
  intros Hai result. subst result. unfold Text.generateBulkVariations. rewrite Hai.
  split; [|split].
  - intros Hf. now rewrite (or_else_falsy _ _ Hf).
  - intros e ->. reflexivity.
  - intros text e -> Hne. now rewrite (or_else_nonempty text "[]" Hne).
Qed.

Lemma bulk_variations_parse_error_propagates_witness :
  let baseData := {| Text.bd_productDescription := "Serum";
                     Text.bd_modelDescription := None;
                     Text.bd_mood := "Calm";
                     Text.bd_pose := None;
                     Text.bd_sceneCount := Some 3;
                     Text.bd_usp := None |} in
  Text.generateBulkVariations Text.video 2 baseData (sample_text (Some "Sorry."))
  = Throw (new_Error "SyntaxError")
  /\ Text.generateBulkVariations Text.photo 2 baseData (sample_text (Some ""))
     = Return (Json.Array []).
Proof.
  intros baseData. split.
  - destruct (bulk_variations_parse_error_propagates (sample_text (Some "Sorry."))
                Text.video 2 baseData
                {| candidates := None; response_text := Some "Sorry." |} eq_refl)
      as (_ & _ & H).
    apply (H "Sorry."%string); [reflexivity | discriminate | reflexivity].
  - destruct (bulk_variations_parse_error_propagates (sample_text (Some ""))
                Text.photo 2 baseData
                {| candidates := None; response_text := Some ""%string |} eq_refl)
      as (H & _).
    apply H. reflexivity.
Defined.

(** X10.  [generateCreativePrompt] never resolves to the empty string: an
    answer without text, or with an empty one, becomes the fixed sentence
    "Gagal membuat prompt."; a rejection of the call is passed on. *)
Theorem creative_prompt_never_empty
        (ai : Text.Backend)
        (productDescription modelType mood pose background : string)
        (brandProfile : option BrandProfile)
        (analysisData : option Analysis.AnalysisResult) :
  let request := Text.creative_request productDescription modelType mood pose
                                       background brandProfile analysisData in
  let result := Text.generateCreativePrompt productDescription modelType mood pose
                                            background brandProfile analysisData ai in
  (forall s, result = Return s -> s <> ""%string)
  /\ (forall response, ai request = Return response ->
        truthy (response_text response) = false ->
        result = Return "Gagal membuat prompt."%string)
  /\ (forall response, ai request = Return response ->
        truthy (response_text response) = true ->
        result = Return (interpolate (response_text response)))
  /\ (forall e, ai request = Throw e -> result = Throw e).
Proof.
  intros request result. subst request result. unfold Text.generateCreativePrompt.
  split; [|split; [|split]].
  - intros s. destruct (ai _) as [response|e]; [|discriminate].
    intros E. assert (Hs : s = or_else (response_text response) "Gagal membuat prompt.")
      by congruence.
    rewrite Hs. unfold or_else, truthy.
    destruct (response_text response) as [t|]; [|discriminate].
    destruct (String.eqb_spec t ""); cbn [negb]; [discriminate | assumption].
  - intros response -> Hf. now rewrite (or_else_falsy _ _ Hf).
  - intros response -> Ht. unfold or_else. rewrite Ht.
    now destruct (response_text response).
  - intros e ->. reflexivity.
Qed.

Lemma creative_prompt_never_empty_witness :
  Text.generateCreativePrompt "Serum" "Female Model" "Calm" "Standing" "Beach" None None
                              (sample_text (Some ""))
  = Return "Gagal membuat prompt."%string.
Proof.
  destruct (creative_prompt_never_empty (sample_text (Some "")) "Serum" "Female Model"
              "Calm" "Standing" "Beach" None None) as (_ & H & _).
  apply (H {| candidates := None; response_text := Some ""%string |});
    reflexivity.
Defined.

Lemma includes_cons (sub s : string) (c : ascii) :
  includes sub s = true -> includes sub (String c s) = true.
Proof. intros H. cbn [includes]. rewrite H. apply orb_true_r. Qed.

Lemma includes_earlier (sub a b : string) :
  includes sub a = true -> includes sub (a ++ b)%string = true.
Proof.
  induction a as [|c a IH].
  - cbn [includes]. rewrite orb_false_r. unfold startsWith.
    destruct (strip_prefix sub "") as [r|] eqn:E; [|discriminate].
    intros _. apply strip_prefix_inv in E.
    destruct sub; [|discriminate]. cbn [append]. apply (includes_here "" b).
  - intros H. cbn [includes] in H. apply orb_true_iff in H. destruct H as [H|H].
    + unfold startsWith in H.
      destruct (strip_prefix sub (String c a)) as [r|] eqn:E; [|discriminate].
      apply strip_prefix_inv in E.
      rewrite E, append_assoc. apply includes_here.
    + cbn [append]. apply includes_cons. now apply IH.
Qed.

Lemma startsWith_nil (s : string) : startsWith "" s = true.
Proof. reflexivity. Qed.

Lemma startsWith_cons (p s : string) (c : ascii) :
  startsWith p s = true -> startsWith (String c p) (String c s) = true.
Proof. unfold startsWith. cbn [strip_prefix]. now rewrite Ascii.eqb_refl. Qed.

Lemma startsWith_app (a p s : string) :
  startsWith p s = true -> startsWith (a ++ p)%string (a ++ s)%string = true.
Proof.
  intros H. induction a as [|c a IH]; [exact H|].
  cbn [append]. now apply startsWith_cons.
Qed.

Lemma includes_of_startsWith (sub s : string) :
  startsWith sub s = true -> includes sub s = true.
Proof. intros H. destruct s; cbn [includes]; now rewrite H. Qed.

(** Search for a part of a text built by appending literals and variables,
    both written character by character: at a character that begins like
    the part, try to match the part there; else step over the character;
    step over a variable. *)
Ltac match_here :=
  apply includes_of_startsWith;
  repeat lazymatch goal with
    | |- startsWith EmptyString _ = true => exact (startsWith_nil _)
    | |- startsWith (String ?c _) (String ?c _) = true =>
        refine (startsWith_cons _ _ _ _)
    | |- startsWith (append ?a _) (append ?a _) = true =>
        refine (startsWith_app _ _ _ _)
    end.

Ltac find_part :=
  repeat lazymatch goal with
    | |- includes (String ?c0 _) (String ?c ?s) = true =>
        tryif constr_eq c0 c
        then first [ solve [match_here] | refine (includes_cons _ _ _ _) ]
        else refine (includes_cons _ _ _ _)
    | |- includes _ (append _ _) = true => refine (includes_later _ _ _ _)
    end.

(** X11.  Without analysis data the system instruction of
    [generateCreativePrompt] names the category "General" in its adaptive
    logic but prints "undefined" in its list of inputs, and carries the
    model type and the pose exactly as given, labels of the automatic modes
    included. *)
Theorem creative_instruction_without_analysis
        (productDescription modelType mood pose background : string)
        (brandProfile : option BrandProfile) :
  let s := Text.creative_instruction productDescription modelType mood pose
                                     background brandProfile None in
  includes "**Analyze Product Category**: (General). " s = true
  /\ includes ("  - Category: undefined" ++ Text.nl)%string s = true
  /\ includes ("  - Model Type: " ++ modelType ++ Text.nl)%string s = true
  /\ includes ("  - Action/Pose: " ++ pose ++ Text.nl)%string s = true.
Proof.
  intros s. subst s. unfold Text.creative_instruction, Text.with_brand.
  assert (K : forall sub big,
             includes sub big = true ->
             includes sub match brandProfile with
                          | Some bp => (big ++ " Brand Style: " ++ bp_style bp
                                        ++ ", Tone: " ++ bp_tone bp ++ ".")%string
                          | None => big
                          end = true).
  { intros sub big H. destruct brandProfile; [now apply includes_earlier | exact H]. }
  repeat split; apply K;
    unfold Text.nl, Text.dq;
    cbn [Analysis.derivedModelContext Analysis.derivedAction option_map
         interpolate or_else truthy append];
    find_part.
Qed.

(** X12.  [generateBulkVariations] does not default the optional fields of
    [baseData]: a missing pose or model description is printed as
    "undefined" in the photo instruction, a missing scene count in the video
    instruction, and a missing USP in the video request itself. *)
Theorem bulk_prompts_print_missing_fields (quantity : nat) (baseData : Text.BaseData) :
  (Text.bd_pose baseData = None ->
   includes ("KEEP POSE EXACTLY: " ++ Text.dq ++ "undefined" ++ Text.dq ++ ". ")%string
            (Text.systemInstruction (Text.bulk_request Text.photo quantity baseData))
   = true)
  /\ (Text.bd_modelDescription baseData = None ->
      includes ("    Model: undefined" ++ Text.nl)%string
               (Text.systemInstruction (Text.bulk_request Text.photo quantity baseData))
      = true)
  /\ (Text.bd_sceneCount baseData = None ->
      includes "Each Script Scenes: undefined."
               (Text.systemInstruction (Text.bulk_request Text.video quantity baseData))
      = true)
  /\ (Text.bd_usp baseData = None ->
      includes ". USP: undefined. Mood: "
               (Text.contents (Text.bulk_request Text.video quantity baseData))
      = true).
Proof.
  repeat split; intros H;
    unfold Text.bulk_request, Text.bulk_photo_instruction, Text.bulk_video_instruction;
    cbn [Text.systemInstruction Text.contents]; rewrite H;
    unfold Text.nl, Text.dq; cbn [interpolate option_map append];
    find_part.
Qed.

Lemma bulk_prompts_print_missing_fields_witness :
  let baseData := {| Text.bd_productDescription := "Serum";
                     Text.bd_modelDescription := Some "A young woman";
                     Text.bd_mood := "Calm";
                     Text.bd_pose := None;
                     Text.bd_sceneCount := Some 3;
                     Text.bd_usp := None |} in
  includes ("KEEP POSE EXACTLY: " ++ Text.dq ++ "undefined" ++ Text.dq ++ ". ")%string
           (Text.systemInstruction (Text.bulk_request Text.photo 4 baseData)) = true
  /\ Text.contents (Text.bulk_request Text.video 4 baseData)
     = "Product: Serum. USP: undefined. Mood: Calm. Generate 4 full scripts."%string.
Proof.
  intros baseData.
  destruct (bulk_prompts_print_missing_fields 4 baseData) as (H1 & _ & _ & _).
  split; [apply H1; reflexivity | reflexivity].
Defined.

(* ------------------------------------------------------------------ *)
(** * Properties of scene visuals *)
(* ------------------------------------------------------------------ *)

Lemma first_inline_image_none (ps : list Part) :
  first_inline_image ps = None <-> Forall is_text ps.
Proof.
  induction ps as [|p ps IH]; [split; [constructor | reflexivity]|].
  destruct p as [mime d|t]; cbn [first_inline_image]; split.
  - discriminate.
  - intros H. inversion H as [|? ? [t Ht] _]. discriminate.
  - intros H. constructor; [now exists t | now apply IH].
  - intros H. inversion H. now apply IH.
Qed.

(** X13.  [generateSceneVisual] sends an image part for each of its two
    images that is neither [null] nor empty, first image first and cleaned
    of its header, then the prompt with its fixed ending; it resolves to
    [null] exactly when the call throws or the answer has no inline part,
    and otherwise to a data URI that announces PNG. *)
Theorem scene_visual_request_and_result
        (ai : GenerateContentRequest -> Completion GenerateContentResponse)
        (scenePrompt : string) (img1Base64 img2Base64 : option string)
        (ratio : string) :
  let request := SceneVisual.visual_request scenePrompt img1Base64 img2Base64 ratio in
  let result := SceneVisual.generateSceneVisual ai scenePrompt img1Base64 img2Base64
                                                ratio in
  req_parts request
  = map (fun b => InlineData "image/jpeg" (cleanBase64 b))
        (kept img1Base64 ++ kept img2Base64)
    ++ [Text (scenePrompt ++ ". Photorealistic, 8k, seamless composition.")%string]
  /\ (result = None <->
      (exists e, ai request = Throw e)
      \/ (exists r, ai request = Return r /\ Forall is_text (response_parts r)))
  /\ (forall u, result = Some u -> startsWith "data:image/png;base64," u = true).
Proof.
  intros request result. subst request result.
  unfold SceneVisual.generateSceneVisual.
  split; [|split].
  - unfold SceneVisual.visual_request, SceneVisual.visual_parts, kept.
    cbn [req_parts].
    destruct img1Base64 as [a|], img2Base64 as [b|]; cbn [truthy interpolate];
      try destruct (negb (a =? "")%string); try destruct (negb (b =? "")%string);
      reflexivity.
  - destruct (ai _) as [r|e]; split.
    + intros H. right. exists r. split; [reflexivity|].
      now apply first_inline_image_none.
    + intros [[e H]|[r' [H1 H2]]]; [discriminate|].
      assert (r' = r) by congruence. subst r'. now apply first_inline_image_none.
    + intros _. left. now exists e.
    + reflexivity.
  - intros u. destruct (ai _) as [r|e]; [|discriminate].
    apply first_inline_image_header.
Qed.

(** An empty first image is skipped like a missing one. *)
Example scene_visual_parts :
  req_parts (SceneVisual.visual_request "A kitchen" (Some "")
               (Some "data:image/png;base64,QUJD") "16:9")
  = [InlineData "image/jpeg" "QUJD";
     Text "A kitchen. Photorealistic, 8k, seamless composition."].
Proof. reflexivity. Qed.

(* ------------------------------------------------------------------ *)
(** * More properties of video synthesis *)
(* ------------------------------------------------------------------ *)

Lemma poll_fails (b : Veo.Backend) (s : nat -> Veo.Operation) (e : Error)
      (n fuel i : nat) :
  (forall j, j < n ->
     Veo.done (s (i + j)) = false
     /\ Veo.getVideosOperation b (i + j) (s (i + j)) = Return (s (S (i + j)))) ->
  Veo.done (s (i + n)) = false ->
  Veo.getVideosOperation b (i + n) (s (i + n)) = Throw e ->
  n < fuel ->
  Veo.poll b fuel i (s i) = Some (Throw e, polling_trace i (S n)).
Proof.
  revert fuel i. induction n as [|n IH]; intros fuel i Hstep Hd He Hfuel;
    (destruct fuel as [|fuel]; [lia|]); cbn [Veo.poll].
  - rewrite Nat.add_0_r in *. now rewrite Hd, He.
  - destruct (Hstep 0 ltac:(lia)) as [Hd0 Hg0]. rewrite Nat.add_0_r in Hd0, Hg0.
    rewrite Hd0, Hg0, (IH fuel (S i)).
    + now rewrite (polling_trace_S i (S n)).
    + intros j Hj. replace (S i + j) with (i + S j) by lia. apply Hstep. lia.
    + replace (S i + n) with (i + S n) by lia. exact Hd.
    + replace (S i + n) with (i + S n) by lia. exact He.
    + lia.
Qed.

(** X14.  [generateVeoVideo] passes every rejection of the backend on to its
    caller: a rejected submission rejects at once, without any polling; a
    rejected status re-fetch rejects after the cycles made so far, the
    failing one included. *)
Theorem video_rejections_propagate
        (b : Veo.Backend) (API_KEY : option string) (fuel : nat)
        (imageBase64 prompt ratio : string) :
  let request := Veo.request imageBase64 prompt ratio in
  let result := Veo.generateVeoVideo b API_KEY fuel imageBase64 prompt ratio in
  (forall e, Veo.generateVideos b request = Throw e ->
             result = Some (Throw e, [Veo.Submit request]))
  /\ (forall s n e, fails_at b request s n e -> n < fuel ->
        result = Some (Throw e, Veo.Submit request :: polling_trace 0 (S n))
        /\ Veo.cycles (Veo.Submit request :: polling_trace 0 (S n)) = S n).
Proof.
  intros request result. subst request result. unfold Veo.generateVeoVideo.
  split.
  - intros e ->. reflexivity.
  - intros s n e (H0 & Hstep & Hd & He) Hfuel.
    rewrite H0, (poll_fails b s e n fuel 0); try assumption.
    split; [reflexivity|]. unfold Veo.cycles. cbn [filter].
    apply (cycles_polling_trace 0 (S n)).
Qed.

Lemma video_rejections_propagate_witness :
  Veo.generateVeoVideo sample_failing_veo (Some "K") 5 "QUJD" "pan" "9:16"
  = Some (Throw (new_Error "quota exceeded"),
          Veo.Submit (Veo.request "QUJD" "pan" "9:16") :: polling_trace 0 3).
Proof.
  destruct (video_rejections_propagate sample_failing_veo (Some "K") 5
              "QUJD" "pan" "9:16") as [_ H].
  apply (H (fun _ => sample_operation false None) 2 (new_Error "quota exceeded")).
  - split; [reflexivity|]. split; [|split; reflexivity].
    intros i Hi. split; [reflexivity|].
    cbn [sample_failing_veo Veo.getVideosOperation].
    destruct (Nat.ltb_spec i 2); [reflexivity | lia].
  - lia.
Defined.

(** X15.  The poller has no bound of its own: against a backend that never
    reports the operation done, [generateVeoVideo] does not settle, however
    many cycles it is given. *)
Theorem never_done_never_settles
        (b : Veo.Backend) (API_KEY : option string)
        (imageBase64 prompt ratio : string) :
  never_done b (Veo.request imageBase64 prompt ratio) ->
  forall fuel, Veo.generateVeoVideo b API_KEY fuel imageBase64 prompt ratio = None.
Proof.
  intros [(o & H0 & Hd) Hb] fuel. unfold Veo.generateVeoVideo.
  now rewrite H0, (poll_never_done b fuel 0 o Hb Hd).
Qed.

Lemma never_done_never_settles_witness :
  Veo.generateVeoVideo sample_stuck_veo (Some "K") 50 "QUJD" "pan" "9:16" = None.
Proof.
  apply (never_done_never_settles sample_stuck_veo (Some "K") "QUJD" "pan" "9:16").
  split.
  - eexists. split; reflexivity.
  - intros j o. eexists. split; reflexivity.
Defined.

(** X16.  A URL to which [generateVeoVideo] resolves is never empty: it is a
    non-empty URI of the backend followed by the key parameter.  The
    storyboard therefore records every job that resolved to a URL as
    completed, with that URL; a scene is failed only when its job resolved
    to [null] or threw. *)
Theorem resolved_video_url_completes_scene
        (b : Veo.Backend) (API_KEY : option string) (fuel : nat)
        (imageBase64 prompt ratio : string) (v : string) (t : list Veo.Event) :
  Veo.generateVeoVideo b API_KEY fuel imageBase64 prompt ratio
  = Some (Return (Some v), t) ->
  v <> ""%string
  /\ (exists u, u <> ""%string /\ v = (u ++ "&key=" ++ interpolate API_KEY)%string)
  /\ (forall aistudio brandProfile veo k scene img st,
         Storyboard.image scene = Some img ->
         veo k (Storyboard.base64 img) (Storyboard.finalPrompt brandProfile scene)
             ratio = Some (Return (Some v)) ->
         Storyboard.settle_scene aistudio brandProfile veo ratio k scene st
         = (Storyboard.set_videos st
              (Storyboard.update (Storyboard.id scene)
                 (fun x => {| Storyboard.sceneId := Storyboard.sceneId x;
                              Storyboard.videoUrl := v;
                              Storyboard.status := Storyboard.completed |})
                 (Storyboard.generatedVideos st)),
            [Storyboard.SceneSettled k], Storyboard.Resolved)).
Proof.
  unfold Veo.generateVeoVideo.
  destruct (Veo.generateVideos b _) as [o|e]; [|discriminate].
  destruct (Veo.poll b fuel 0 o) as [[[o'|e] t']|]; try discriminate.
  destruct (truthy (Veo.videoUri o')) eqn:Ht; [|discriminate].
  intros E.
  assert (Hv : v = (interpolate (Veo.videoUri o') ++ "&key=" ++ interpolate API_KEY)%string)
    by congruence.
  destruct (Veo.videoUri o') as [u|]; [|discriminate].
  cbn [interpolate] in Hv. unfold truthy in Ht.
  assert (Hu : u <> ""%string).
  { intros ->. discriminate. }
  assert (Hne : v <> ""%string).
  { rewrite Hv. destruct u; [contradiction | discriminate]. }
  split; [exact Hne|]. split; [now exists u|].
  intros aistudio brandProfile veo k scene img st Hi Hveo.
  unfold Storyboard.settle_scene. rewrite Hi, Hveo.
  unfold or_else, truthy. destruct (String.eqb_spec v ""); [contradiction|].
  reflexivity.
Qed.

Lemma resolved_video_url_completes_scene_witness :
  "https://video.example/v?alt=media&key=K"%string <> ""%string
  /\ (exists u, u <> ""%string
                /\ "https://video.example/v?alt=media&key=K"%string
                   = (u ++ "&key=" ++ interpolate (Some "K"))%string).
Proof.
  destruct (resolved_video_url_completes_scene
              (sample_veo 1 (Some "https://video.example/v?alt=media")) (Some "K") 5
              "QUJD" "pan" "9:16" "https://video.example/v?alt=media&key=K"
              [Veo.Submit (Veo.request "QUJD" "pan" "9:16");
               Veo.Delay 5000; Veo.Refetch 0] eq_refl) as (H1 & H2 & _).
  split; assumption.
Defined.

(* ------------------------------------------------------------------ *)
(** * More facts about the scene orchestrator *)
(* ------------------------------------------------------------------ *)

Section SettlingFacts.

Import Storyboard.

Variable aistudio : option AiStudio.
Variable brandProfile : option BrandProfile.
Variable veo : nat -> string -> string -> string -> option (Completion (option string)).
Variable ratio : string.
Variable validScenes : list VideoGenerationScene.

Lemma update_settled_keep (sid sid' : string)
      (f : GeneratedVideoResult -> GeneratedVideoResult)
      (vs : list GeneratedVideoResult) :
  (forall v, status (f v) <> generating) ->
  settled sid vs -> settled sid (update sid' f vs).
Proof.
  intros Hst H v Hv Hs. unfold update in Hv. apply in_map_iff in Hv.
  destruct Hv as (w & <- & Hw).
  destruct (String.eqb_spec (sceneId w) sid') as [E|E]; [apply Hst|].
  now apply H.
Qed.

Lemma update_settled_here (sid : string)
      (f : GeneratedVideoResult -> GeneratedVideoResult)
      (vs : list GeneratedVideoResult) :
  (forall v, sceneId (f v) = sceneId v) ->
  (forall v, status (f v) <> generating) ->
  settled sid (update sid f vs).
Proof.
  intros Hid Hst v Hv Hs. unfold update in Hv. apply in_map_iff in Hv.
  destruct Hv as (w & <- & Hw).
  destruct (String.eqb_spec (sceneId w) sid) as [E|E]; [apply Hst|].
  rewrite Hs in E. contradiction.
Qed.

(** What the callback of one scene does to the flags and to the entries. *)
Lemma settle_scene_result (k : nat) (scene : VideoGenerationScene)
      (st st' : State) (t : list Event) (h : Handler) :
  settle_scene aistudio brandProfile veo ratio k scene st = (st', t, h) ->
  isGenerating st' = isGenerating st
  /\ (prompts_resolve aistudio -> h <> Rejected)
  /\ (h = Pending <->
      exists img, image scene = Some img
                  /\ veo k (base64 img) (finalPrompt brandProfile scene) ratio = None)
  /\ (forall sid, settled sid (generatedVideos st) ->
                  settled sid (generatedVideos st'))
  /\ (h = Resolved -> image scene <> None ->
      settled (id scene) (generatedVideos st')).
Proof.
  unfold settle_scene.
  destruct (image scene) as [img|].
  2:{ intros E; inversion E; subst. split; [reflexivity|]. split; [discriminate|].
      split; [split; [discriminate | intros (i & H & _); discriminate]|].
      split; [auto | intros _ H; now contradiction H]. }
  destruct (veo k (base64 img) (finalPrompt brandProfile scene) ratio)
    as [[url|e]|] eqn:Hv.
  3:{ intros E; inversion E; subst. split; [reflexivity|]. split; [discriminate|].
      split; [split; [intros _; now exists img | reflexivity]|].
      split; [auto | discriminate]. }
  - intros E; inversion E; subst. cbn [isGenerating generatedVideos set_videos].
    split; [reflexivity|]. split; [discriminate|].
    split; [split; [discriminate | intros (i & Hi & Hn); congruence]|].
    split; [intros sid; apply update_settled_keep
           | intros _ _; apply update_settled_here; [intros v; reflexivity|]];
      intros v; cbn [status]; destruct (truthy url); discriminate.
  - assert (F : forall s : State,
               (forall sid, settled sid (generatedVideos s) ->
                  settled sid (generatedVideos
                    (set_videos s
                       (update (id scene)
                          (fun v => {| sceneId := sceneId v; videoUrl := videoUrl v;
                                       status := failed |})
                          (generatedVideos s)))))
               /\ settled (id scene) (generatedVideos
                    (set_videos s
                       (update (id scene)
                          (fun v => {| sceneId := sceneId v; videoUrl := videoUrl v;
                                       status := failed |})
                          (generatedVideos s))))).
    { intros s. cbn [generatedVideos set_videos].
      split; [intros sid; apply update_settled_keep
             | apply update_settled_here; [intros v; reflexivity|]];
        intros v; discriminate. }
    assert (P : ~ (exists i, Some img = Some i
                            /\ veo k (base64 i) (finalPrompt brandProfile scene) ratio
                               = None)).
    { intros (i & Hi & Hn). congruence. }
    destruct (credential_error e).
    + destruct aistudio as [a|] eqn:Ha.
      * destruct (openSelectKey a (FromScene k)) as [[]|e'] eqn:Ho;
          intros E; inversion E; subst.
        -- split; [reflexivity|]. split; [discriminate|].
           split; [split; [discriminate | intros H; now contradiction P]|].
           split; [intros sid H; now apply (F (set_error st (Some advisory)))
                  | intros _ _; now apply (F (set_error st (Some advisory)))].
        -- split; [reflexivity|].
           split; [intros Hr; specialize (Hr a k eq_refl); congruence|].
           split; [split; [discriminate | intros H; now contradiction P]|].
           split; [auto | discriminate].
      * intros E; inversion E; subst.
        split; [reflexivity|]. split; [discriminate|].
        split; [split; [discriminate | intros H; now contradiction P]|].
        split; [intros sid H; now apply (F (set_error st (Some advisory)))
               | intros _ _; now apply (F (set_error st (Some advisory)))].
    + intros E; inversion E; subst.
      split; [reflexivity|]. split; [discriminate|].
      split; [split; [discriminate | intros H; now contradiction P]|].
      split; [intros sid H; now apply (F st) | intros _ _; now apply (F st)].
Qed.

Lemma settle_all_resolving (order : list nat) :
  forall (st st' : State) (rejected pending r p : bool) (t : list Event),
  settle_all aistudio brandProfile veo ratio validScenes order st rejected pending
  = (st', t, r, p) ->
  prompts_resolve aistudio ->
  r = rejected
  /\ isGenerating st' = isGenerating st
  /\ (pending = true -> p = true)
  /\ (forall k scene img,
        In k order -> nth_error validScenes k = Some scene ->
        image scene = Some img ->
        veo k (base64 img) (finalPrompt brandProfile scene) ratio = None ->
        p = true)
  /\ ((forall k img pr ra, veo k img pr ra <> None) ->
      p = pending
      /\ forall sid,
           settled sid (generatedVideos st)
           \/ (exists k scene, In k order /\ nth_error validScenes k = Some scene
                               /\ id scene = sid /\ image scene <> None) ->
           settled sid (generatedVideos st')).
Proof.
  induction order as [|j order IH]; intros st st' rejected pending r p t;
    cbn [settle_all]; intros E Hr.
  - inversion E. subst. split; [reflexivity|]. split; [reflexivity|].
    split; [auto|]. split; [intros k scene img []|].
    intros _. split; [reflexivity|].
    intros sid [H|(k & scene & [] & _)]. exact H.
  - destruct (nth_error validScenes j) as [sj|] eqn:Hj.
    2:{ destruct (IH _ _ _ _ _ _ _ E Hr) as (R & G & P1 & P2 & T).
        split; [exact R|]. split; [exact G|]. split; [exact P1|]. split.
        - intros k scene img [->|Hin] Hk; [congruence | now apply (P2 k scene img)].
        - intros Hveo. destruct (T Hveo) as [T1 T2]. split; [exact T1|].
          intros sid [H|(k & scene & [->|Hin] & Hk & Hrest)];
            [apply T2; now left | congruence |].
          apply T2. right. now exists k, scene. }
    destruct (settle_scene aistudio brandProfile veo ratio j sj st)
      as [[st1 t1] h] eqn:E1.
    destruct (settle_scene_result _ _ _ _ _ _ E1) as (G1 & R1 & P1 & S1 & F1).
    specialize (R1 Hr).
    match type of E with
    | context [settle_all _ _ _ _ _ _ ?s ?a ?b] =>
        destruct (settle_all aistudio brandProfile veo ratio validScenes order s a b)
          as [[[st3 t3] r3] p3] eqn:E3
    end.
    inversion E. subst. clear E.
    destruct (IH _ _ _ _ _ _ _ E3 Hr) as (R & G & Q1 & Q2 & T).
    assert (Est : match h with
                  | Rejected => if rejected then st1
                                else set_generating (set_error st1 (Some unexpected)) false
                  | _ => st1
                  end = st1) by (destruct h; [reflexivity | contradiction | reflexivity]).
    rewrite Est in *.
    split; [destruct h; [exact R | contradiction | exact R]|].
    split; [now rewrite G|].
    split; [intros ->; apply Q1; now destruct h|].
    split.
    + intros k scene img [->|Hin] Hk Hi Hn.
      * apply Q1. assert (sj = scene) by congruence. subst sj.
        assert (Hp : h = Pending) by (apply P1; now exists img).
        now rewrite Hp.
      * now apply (Q2 k scene img).
    + intros Hveo. destruct (T Hveo) as [T1 T2].
      assert (Hnp : h <> Pending).
      { intros Hp. apply P1 in Hp. destruct Hp as (img & _ & Hn).
        exact (Hveo _ _ _ _ Hn). }
      split; [rewrite T1; destruct h; [reflexivity | contradiction | contradiction]|].
      intros sid [H|(k & scene & [->|Hin] & Hk & Hid & Hi)].
      * apply T2. left. now apply S1.
      * apply T2. left. assert (sj = scene) by congruence. subst sj. subst sid.
        apply F1; [|exact Hi]. destruct h; [reflexivity | contradiction | contradiction].
      * apply T2. right. now exists k, scene.
Qed.

End SettlingFacts.

(* ------------------------------------------------------------------ *)
(** * More properties of the scene orchestrator *)
(* ------------------------------------------------------------------ *)

(** X17.  [checkApiKey] is permissive.  Without [window.aistudio] it reports
    the key ready and calls nothing.  With it, it reports the key not ready
    only when one of the host's calls throws; it prompts for a key exactly
    when the host says none is selected, and then reports the key ready
    without asking the host again. *)
Theorem checkApiKey_is_permissive (a : Storyboard.AiStudio) :
  Storyboard.checkApiKey None = (true, [])
  /\ (fst (Storyboard.checkApiKey (Some a)) = false <->
      (exists e, Storyboard.hasSelectedApiKey a = Throw e)
      \/ (Storyboard.hasSelectedApiKey a = Return false
          /\ exists e, Storyboard.openSelectKey a Storyboard.FromCheck = Throw e))
  /\ (In (Storyboard.OpenSelectKey Storyboard.FromCheck)
         (snd (Storyboard.checkApiKey (Some a)))
      <-> Storyboard.hasSelectedApiKey a = Return false)
  /\ (Storyboard.hasSelectedApiKey a = Return false ->
      Storyboard.openSelectKey a Storyboard.FromCheck = Return tt ->
      Storyboard.checkApiKey (Some a)
      = (true, [Storyboard.HasSelectedApiKey;
                Storyboard.OpenSelectKey Storyboard.FromCheck])).
Proof.
  split; [reflexivity|]. unfold Storyboard.checkApiKey.
  destruct (Storyboard.hasSelectedApiKey a) as [[|]|e] eqn:Hh; cbn [negb].
  - split; [split; [discriminate | intros [[e H]|[H _]]; discriminate]|].
    split; [|discriminate].
    split; [intros [H|[]]; discriminate | discriminate].
  - destruct (Storyboard.openSelectKey a Storyboard.FromCheck) as [[]|e] eqn:Ho;
      cbn [fst snd].
    + split; [split; [discriminate | intros [[e H]|[_ [e H]]]; discriminate]|].
      split; [split; [reflexivity | intros _; right; now left]|].
      reflexivity.
    + split; [split; [intros _; right; split; [reflexivity | now exists e]
                     | reflexivity]|].
      split; [split; [reflexivity | intros _; right; now left]|].
      discriminate.
  - cbn [fst snd].
    split; [split; [intros _; left; now exists e | reflexivity]|].
    split; [|discriminate].
    split; [intros [H|[]]; discriminate | discriminate].
Qed.

Lemma checkApiKey_is_permissive_witness :
  Storyboard.checkApiKey
    (Some {| Storyboard.hasSelectedApiKey := Return false;
             Storyboard.openSelectKey := fun _ => Return tt |})
  = (true, [Storyboard.HasSelectedApiKey;
            Storyboard.OpenSelectKey Storyboard.FromCheck]).
Proof.
  destruct (checkApiKey_is_permissive
              {| Storyboard.hasSelectedApiKey := Return false;
                 Storyboard.openSelectKey := fun _ => Return tt |})
    as (_ & _ & _ & H).
  apply H; reflexivity.
Defined.

(** X18.  A run of [handleGenerate] that does not start changes nothing but
    the error message, which it clears: when no scene has an image it only
    alerts, without consulting the host; when the key check fails it stops
    after the calls of the check. *)
Theorem run_not_started_only_clears_error
        (aistudio : option Storyboard.AiStudio)
        (brandProfile : option BrandProfile)
        (veo : nat -> string -> string -> string -> option (Completion (option string)))
        (order : list nat) (st : Storyboard.State) :
  started aistudio st = false ->
  let r := Storyboard.handleGenerate aistudio brandProfile veo order st in
  fst r = Storyboard.set_error st None
  /\ (filter Storyboard.has_image (Storyboard.scenes st) = [] ->
      snd r = [Storyboard.Alert "Please upload an image for at least one scene."])
  /\ (filter Storyboard.has_image (Storyboard.scenes st) <> [] ->
      snd r = snd (Storyboard.checkApiKey aistudio)).
Proof.
  unfold started, Storyboard.handleGenerate.
  cbn [Storyboard.scenes Storyboard.set_error].
  destruct (filter Storyboard.has_image (Storyboard.scenes st)) as [|s l] eqn:Ef;
    cbn [List.length Nat.eqb negb andb].
  - intros _. split; [reflexivity|]. split; [reflexivity | intros H; now contradiction H].
  - destruct (Storyboard.checkApiKey aistudio) as [[|] t0]; cbn [fst snd negb];
      [discriminate|].
    intros _. split; [reflexivity|]. split; [discriminate | reflexivity].
Qed.

Lemma run_not_started_only_clears_error_witness :
  Storyboard.handleGenerate (Some sample_host) None sample_jobs [0]
    (sample_state [sample_scene "1" false; sample_scene "2" false])
  = (Storyboard.set_error
       (sample_state [sample_scene "1" false; sample_scene "2" false]) None,
     [Storyboard.Alert "Please upload an image for at least one scene."]).
Proof.
  destruct (run_not_started_only_clears_error (Some sample_host) None sample_jobs [0]
              (sample_state [sample_scene "1" false; sample_scene "2" false])
              eq_refl) as (H1 & H2 & _).
  rewrite <- H1, <- (H2 eq_refl). now destruct (Storyboard.handleGenerate _ _ _ _ _).
Defined.

Section WholeRun.

Import Storyboard.

Variable aistudio : option AiStudio.
Variable brandProfile : option BrandProfile.
Variable veo : nat -> string -> string -> string -> option (Completion (option string)).

(** A started run whose prompts all resolve, seen through the callbacks. *)
Lemma started_run (order : list nat) (st : State) :
  started aistudio st = true ->
  prompts_resolve aistudio ->
  let validScenes := filter has_image (scenes st) in
  exists st0 st2 t2 p,
    settle_all aistudio brandProfile veo (aspectRatio st) validScenes order st0
               false false = (st2, t2, false, p)
    /\ isGenerating st0 = true
    /\ map sceneId (generatedVideos st0) = map id validScenes
    /\ isGenerating st2 = true
    /\ fst (handleGenerate aistudio brandProfile veo order st)
       = (if p then st2 else set_generating st2 false).
Proof.
  intros Hstart Hr validScenes. unfold started in Hstart. unfold handleGenerate.
  cbn [scenes set_error] in *. fold validScenes in Hstart |- *.
  destruct (List.length validScenes =? 0)%nat; [discriminate|].
  destruct (checkApiKey aistudio) as [keyReady t0].
  cbn [fst snd negb andb] in *. subst keyReady. cbn [negb].
  match goal with
  | |- context [settle_all _ _ _ ?a ?b ?c ?s ?x ?y] =>
      destruct (settle_all aistudio brandProfile veo a b c s x y)
        as [[[st2 t2] rejected] pending] eqn:E;
      exists s
  end.
  cbn [aspectRatio set_videos set_generating] in E.
  destruct (settle_all_resolving _ _ _ _ _ _ _ _ _ _ _ _ _ E Hr)
    as (R & G & _).
  subst rejected. exists st2, t2, pending.
  split; [exact E|]. split; [reflexivity|].
  split; [cbn [generatedVideos set_videos]; now rewrite map_map|].
  split; [exact G | reflexivity].
Qed.

End WholeRun.

(** X19.  In a started run of [handleGenerate] in which every job settles,
    every dispatched scene is scheduled and every key prompt made by an
    error handler resolves (it neither rejects nor stays pending), the run
    ends with the generating flag cleared and with no entry of the result
    collection left in the generating state: each one is completed or
    failed. *)
Theorem every_scene_reaches_a_final_status
        (aistudio : option Storyboard.AiStudio)
        (brandProfile : option BrandProfile)
        (veo : nat -> string -> string -> string -> option (Completion (option string)))
        (order : list nat) (st : Storyboard.State) :
  let validScenes := filter Storyboard.has_image (Storyboard.scenes st) in
  let r := Storyboard.handleGenerate aistudio brandProfile veo order st in
  started aistudio st = true ->
  prompts_resolve aistudio ->
  (forall k img pr ra, veo k img pr ra <> None) ->
  (forall k, k < List.length validScenes -> In k order) ->
  Storyboard.isGenerating (fst r) = false
  /\ forall v, In v (Storyboard.generatedVideos (fst r)) ->
               Storyboard.status v = Storyboard.completed
               \/ Storyboard.status v = Storyboard.failed.
Proof.
  intros validScenes r Hstart Hr Hveo Hall. subst r.
  destruct (started_run aistudio brandProfile veo order st Hstart Hr)
    as (st0 & st2 & t2 & p & E & G0 & I0 & G2 & Ef).
  fold validScenes in E, I0.
  destruct (settle_all_resolving _ _ _ _ _ _ _ _ _ _ _ _ _ E Hr)
    as (_ & _ & _ & _ & T).
  destruct (T Hveo) as [Hp Hs]. subst p. rewrite Ef.
  split; [reflexivity|].
  cbn [Storyboard.generatedVideos Storyboard.set_generating].
  intros v Hv.
  assert (Hset : settled (Storyboard.sceneId v) (Storyboard.generatedVideos st2)).
  { apply Hs. right.
    pose proof (settle_all_keeps _ _ _ _ _ _ _ _ _ _ _ _ _ E) as (_ & I2 & _).
    assert (Hin : In (Storyboard.sceneId v) (map Storyboard.id validScenes)).
    { rewrite <- I0, <- I2. now apply in_map. }
    apply in_map_iff in Hin. destruct Hin as (scene & Hid & Hsc).
    destruct (In_nth_error _ _ Hsc) as (k & Hk).
    exists k, scene. split.
    - apply Hall. apply nth_error_Some. now rewrite Hk.
    - split; [exact Hk|]. split; [exact Hid|].
      apply filter_In in Hsc. destruct Hsc as [_ Hi].
      unfold Storyboard.has_image in Hi. now destruct (Storyboard.image scene). }
  specialize (Hset v Hv eq_refl).
  destruct (Storyboard.status v); [contradiction | now left | now right].
Qed.

Lemma every_scene_reaches_a_final_status_witness :
  Storyboard.isGenerating
    (fst (Storyboard.handleGenerate (Some sample_host) None sample_jobs [1; 0]
            sample_storyboard)) = false
  /\ Forall (fun v => Storyboard.status v = Storyboard.completed
                      \/ Storyboard.status v = Storyboard.failed)
            (Storyboard.generatedVideos
               (fst (Storyboard.handleGenerate (Some sample_host) None sample_jobs
                       [1; 0] sample_storyboard))).
Proof.
  rewrite Forall_forall.
  apply (every_scene_reaches_a_final_status (Some sample_host) None sample_jobs [1; 0]
           sample_storyboard).
  - reflexivity.
  - intros a j E. inversion E. reflexivity.
  - intros k img pr ra. destruct k; discriminate.
  - cbn. intros k Hk. destruct k as [|[|k]]; [auto | auto | lia].
Defined.

(** X20.  A job that never settles keeps the whole run open: when the
    backend of one scheduled scene never reports its operation done (and no
    key prompt rejects), [handleGenerate] never reaches its [finally], so the
    generating flag stays set, however long the poller is left to run. *)
Theorem stuck_job_keeps_run_open
        (aistudio : option Storyboard.AiStudio)
        (brandProfile : option BrandProfile)
        (backends : nat -> Veo.Backend) (API_KEY : option string)
        (order : list nat) (st : Storyboard.State)
        (k : nat) (scene : Storyboard.VideoGenerationScene)
        (img : Storyboard.UploadedAsset) :
  started aistudio st = true ->
  prompts_resolve aistudio ->
  nth_error (filter Storyboard.has_image (Storyboard.scenes st)) k = Some scene ->
  Storyboard.image scene = Some img ->
  In k order ->
  never_done (backends k)
             (Veo.request (Storyboard.base64 img)
                          (Storyboard.finalPrompt brandProfile scene)
                          (Storyboard.aspectRatio st)) ->
  forall fuel,
    Storyboard.isGenerating
      (fst (Storyboard.handleGenerate aistudio brandProfile
              (veo_outcomes backends API_KEY fuel) order st)) = true.
Proof.
  intros Hstart Hr Hk Hi Hin Hnd fuel.
  destruct (started_run aistudio brandProfile (veo_outcomes backends API_KEY fuel)
              order st Hstart Hr)
    as (st0 & st2 & t2 & p & E & G0 & I0 & G2 & Ef).
  destruct (settle_all_resolving _ _ _ _ _ _ _ _ _ _ _ _ _ E Hr)
    as (_ & _ & _ & P & _).
  assert (Hp : p = true).
  { apply (P k scene img Hin Hk Hi). unfold veo_outcomes, Veo.generateVeoVideo.
    destruct Hnd as [(o & H0 & Hd) Hb].
    now rewrite H0, (poll_never_done (backends k) fuel 0 o Hb Hd). }
  subst p. now rewrite Ef.
Qed.

Lemma stuck_job_keeps_run_open_witness :
  Storyboard.isGenerating
    (fst (Storyboard.handleGenerate (Some sample_host) None
            (veo_outcomes (fun _ => sample_stuck_veo) (Some "K") 50) [0]
            (sample_state [sample_scene "1" true]))) = true.
Proof.
  refine (stuck_job_keeps_run_open (Some sample_host) None (fun _ => sample_stuck_veo)
            (Some "K") [0] (sample_state [sample_scene "1" true]) 0
            (sample_scene "1" true) {| Storyboard.base64 := "QUJD" |} _ _ _ _ _ _ 50).
  - reflexivity.
  - intros a j E. inversion E. reflexivity.
  - reflexivity.
  - reflexivity.
  - cbn. auto.
  - split.
    + eexists. split; reflexivity.
    + intros j o. eexists. split; reflexivity.
Defined.

(* ------------------------------------------------------------------ *)
(** * Properties of storyboard editing *)
(* ------------------------------------------------------------------ *)

Section EditingFacts.

Import Storyboard.

Lemma filter_ids_NoDup (p : VideoGenerationScene -> bool)
      (l : list VideoGenerationScene) :
  NoDup (map id l) -> NoDup (map id (filter p l)).
Proof.
  induction l as [|s l IH]; [trivial|]. cbn [map filter]. intros H.
  inversion H as [|? ? Hn Hl]. subst. destruct (p s); [|now apply IH].
  cbn [map]. constructor; [|now apply IH].
  intros Hin. apply Hn. apply in_map_iff in Hin. destruct Hin as (x & Hx & Hf).
  apply filter_In in Hf. apply in_map_iff. exists x. tauto.
Qed.

Lemma remove_absent (i : string) (l : list VideoGenerationScene) :
  ~ In i (map id l) -> filter (fun s => negb (id s =? i)%string) l = l.
Proof.
  induction l as [|s l IH]; [reflexivity|]. cbn [map filter In]. intros H.
  destruct (String.eqb_spec (id s) i) as [E|E]; [exfalso; apply H; now left|].
  cbn [negb]. f_equal. apply IH. intros Hin. apply H. now right.
Qed.

(** With distinct identities a removal drops at most one scene. *)
Lemma remove_one (i : string) (l : list VideoGenerationScene) :
  NoDup (map id l) ->
  List.length l <= S (List.length (filter (fun s => negb (id s =? i)%string) l)).
Proof.
  induction l as [|s l IH]; [cbn; lia|]. cbn [map filter]. intros H.
  inversion H as [|? ? Hn Hl]. subst.
  destruct (String.eqb_spec (id s) i) as [E|E]; cbn [negb List.length].
  - subst i. rewrite (remove_absent (id s) l Hn). lia.
  - specialize (IH Hl). lia.
Qed.

Lemma updateScene_ids (i : string) (f : SceneEditor.Field)
      (l : list VideoGenerationScene) :
  map id (SceneEditor.updateScene i f l) = map id l.
Proof.
  unfold SceneEditor.updateScene. rewrite map_map. apply map_ext.
  intros s. destruct (id s =? i)%string; [|reflexivity]. now destruct f.
Qed.

Lemma act_editable (scenes : list VideoGenerationScene) (a : SceneEditor.Action) :
  editable scenes ->
  match a with
  | SceneEditor.Add now => ~ In now (map id scenes)
  | _ => True
  end ->
  editable (SceneEditor.act scenes a).
Proof.
  intros [Hnd Hlen] Hfresh. destruct a as [now|i|i f]; cbn [SceneEditor.act].
  - unfold SceneEditor.addScene.
    destruct (Nat.leb_spec 5 (List.length scenes)); [now split|].
    split.
    + rewrite map_app. cbn [map id]. apply NoDup_app; [exact Hnd | | ].
      * constructor; [intros [] | constructor].
      * intros x Hx [<-|[]]. contradiction.
    + rewrite length_app. cbn [List.length]. lia.
  - unfold SceneEditor.removeScene.
    destruct (Nat.leb_spec (List.length scenes) 1); [now split|].
    split; [now apply filter_ids_NoDup|].
    pose proof (remove_one i scenes Hnd).
    pose proof (filter_length_le (fun s => negb (id s =? i)%string) scenes).
    lia.
  - split.
    + now rewrite updateScene_ids.
    + unfold SceneEditor.updateScene. now rewrite length_map.
Qed.

End EditingFacts.

(** X21.  The storyboard a component starts with has one scene, and editing
    keeps the storyboard well formed: whatever scenes are added, removed or
    updated, as long as every added scene gets an identity not in use, the
    identities stay distinct and there are always between one and five
    scenes. *)
Theorem editing_keeps_storyboard_well_formed
        (actions : list SceneEditor.Action)
        (scenes : list Storyboard.VideoGenerationScene) :
  editable scenes ->
  fresh_ids scenes actions ->
  editable SceneEditor.initial_scenes
  /\ editable (fold_left SceneEditor.act actions scenes).
Proof.
  intros He Hf. split.
  - split; [|cbn; lia]. cbn. constructor; [intros [] | constructor].
  - revert scenes He Hf. induction actions as [|a actions IH]; intros scenes He Hf.
    + exact He.
    + cbn [fold_left]. destruct Hf as [Ha Hf]. apply IH; [|exact Hf].
      now apply act_editable.
Qed.

Lemma editing_keeps_storyboard_well_formed_witness :
  editable SceneEditor.initial_scenes
  /\ editable (fold_left SceneEditor.act
                 [SceneEditor.Add "1712000000001";
                  SceneEditor.Update "1" (SceneEditor.motionPrompt "slow pan");
                  SceneEditor.Remove "1";
                  SceneEditor.Remove "1712000000001"]
                 SceneEditor.initial_scenes).
Proof.
  apply editing_keeps_storyboard_well_formed.
  - split; [|cbn; lia]. cbn. constructor; [intros [] | constructor].
  - cbn. repeat split; auto. intros [H|[]]. discriminate.
Defined.

(** Without distinct identities the lower bound is lost: a removal takes
    every scene that carries the identity. *)
Example remove_duplicates :
  SceneEditor.removeScene "7" [sample_scene "7" true; sample_scene "7" false] = [].
Proof. reflexivity. Qed.

(* ------------------------------------------------------------------ *)
(** * Properties of the composition suite *)
(* ------------------------------------------------------------------ *)

Section MergeFacts.

Import Composition.

Variable ai : Batch.Backend.
Variable sched : list nat -> list nat.
Variable brandProfile : option BrandProfile.

(** A run of [handleMerge] that has an asset and enough fuel. *)
Lemma handleMerge_outcome (fuel : nat) (st : State) :
  assets st <> [] ->
  ceil_div (quantity st) Batch.BATCH_SIZE <= fuel ->
  let single := Batch.generateSingleVariation ai (assets st) (promptInstruction st)
                                              (ratio st) brandProfile in
  let calls := map Backend (flat_map (group_trace sched) (partition (quantity st))) in
  handleMerge ai sched fuel brandProfile st
  = Some (set_run st false (successes single (quantity st)),
          DeductCredits (10 * quantity st)
          :: calls ++ match successes single (quantity st) with
                      | [] => [Alert "Composition failed. Please try again."]
                      | _ :: _ => []
                      end).
Proof.
  intros Ha Hf single calls. unfold handleMerge.
  assert (Hl : (List.length (assets st) <? 1)%nat = false).
  { destruct (assets st); [contradiction | reflexivity]. }
  rewrite Hl.
  destruct (run_outcome ai
              (Batch.composite_request (assets st) (promptInstruction st) (ratio st)
                                       brandProfile)
              sched (quantity st) fuel "No composite images generated" Hf)
    as (bst & E & _ & _ & Ht).
  subst single calls.
  unfold Batch.generateCompositeImage, Batch.generateSingleVariation.
  rewrite E, Ht.
  destruct (successes _ (quantity st)) as [|u us].
  - reflexivity.
  - cbn [app]. now rewrite app_nil_r.
Qed.

Lemma backend_events (l : list Batch.Event) :
  filter is_deduction (map Backend l) = []
  /\ filter is_backend (map Backend l) = map Backend l.
Proof.
  induction l as [|e l [IH1 IH2]]; [split; reflexivity|].
  cbn [map filter is_deduction is_backend]. now rewrite IH1, IH2.
Qed.

End MergeFacts.

(** X22.  [handleMerge] charges before it generates and never refunds: as
    soon as one asset is present, ten credits per requested image are
    deducted, once and ahead of every backend call, even when every item
    then fails and the user is left with the failure alert and no image;
    with no asset at all it only alerts and deducts nothing. *)
Theorem credits_are_deducted_before_generation
        (ai : Batch.Backend) (sched : list nat -> list nat)
        (brandProfile : option BrandProfile) (fuel : nat) (st : Composition.State) :
  ceil_div (Composition.quantity st) Batch.BATCH_SIZE <= fuel ->
  (Composition.assets st <> [] ->
   exists st' t,
     Composition.handleMerge ai sched fuel brandProfile st
     = Some (st', Composition.DeductCredits (10 * Composition.quantity st) :: t)
     /\ filter is_deduction t = []
     /\ ((forall i, i < Composition.quantity st ->
            Batch.generateSingleVariation ai (Composition.assets st)
              (Composition.promptInstruction st) (Composition.ratio st)
              brandProfile i = None) ->
         Composition.results st' = []
         /\ In (Composition.Alert "Composition failed. Please try again.") t))
  /\ (Composition.assets st = [] ->
      Composition.handleMerge ai sched fuel brandProfile st
      = Some (st, [Composition.Alert
                     "Please upload at least the product asset (@img1)."])).
Proof.
  intros Hf. split.
  - intros Ha. rewrite (handleMerge_outcome ai sched brandProfile fuel st Ha Hf).
    do 2 eexists. split; [reflexivity|].
    destruct (backend_events
                (flat_map (group_trace sched) (partition (Composition.quantity st))))
      as [B1 _].
    split.
    + rewrite filter_app, B1. now destruct (successes _ _).
    + intros Hnone. rewrite (successes_nil _ _ Hnone).
      split; [reflexivity|]. apply in_or_app. right. now left.
  - intros Ha. unfold Composition.handleMerge. now rewrite Ha.
Qed.

Lemma credits_are_deducted_before_generation_witness :
  exists st' t,
    Composition.handleMerge (sample_backend [0; 1; 2]) (fun l => l) 1 None
      {| Composition.img1 := Some ("QUJD", "@img1");
         Composition.img2 := None;
         Composition.img3 := None;
         Composition.ratio := "1:1";
         Composition.customPrompt := "";
         Composition.quantity := 3;
         Composition.isProcessing := false;
         Composition.results := ["data:image/png;base64,b2xk"] |}
    = Some (st', Composition.DeductCredits 30 :: t)
    /\ Composition.results st' = []
    /\ In (Composition.Alert "Composition failed. Please try again.") t.
Proof.
  assert (F : ceil_div 3 Batch.BATCH_SIZE <= 1) by (vm_compute; lia).
  destruct (credits_are_deducted_before_generation (sample_backend [0; 1; 2])
              (fun l => l) None 1
              {| Composition.img1 := Some ("QUJD", "@img1");
                 Composition.img2 := None;
                 Composition.img3 := None;
                 Composition.ratio := "1:1";
                 Composition.customPrompt := "";
                 Composition.quantity := 3;
                 Composition.isProcessing := false;
                 Composition.results := ["data:image/png;base64,b2xk"] |} F)
    as [H _].
  destruct H as (st' & t & E & _ & H); [discriminate|].
  exists st', t. split; [exact E|]. apply H.
  intros i Hi. destruct i as [|[|[|i]]]; [reflexivity .. | cbn in Hi; lia].
Defined.

(** X23.  A run of [handleMerge] with an asset replaces the gallery by what
    the batch produced: the artifacts of the items that succeeded, in index
    order, and nothing of the previous run; it always ends with the
    processing flag cleared and leaves the inputs as they were.  The failure
    alert is shown exactly when no item succeeded. *)
Theorem merge_replaces_results
        (ai : Batch.Backend) (sched : list nat -> list nat)
        (brandProfile : option BrandProfile) (fuel : nat) (st : Composition.State) :
  Composition.assets st <> [] ->
  ceil_div (Composition.quantity st) Batch.BATCH_SIZE <= fuel ->
  let single := Batch.generateSingleVariation ai (Composition.assets st)
                  (Composition.promptInstruction st) (Composition.ratio st)
                  brandProfile in
  exists t,
    Composition.handleMerge ai sched fuel brandProfile st
    = Some (Composition.set_run st false
              (successes single (Composition.quantity st)), t)
    /\ (In (Composition.Alert "Composition failed. Please try again.") t
        <-> successes single (Composition.quantity st) = []).
Proof.
  intros Ha Hf single.
  rewrite (handleMerge_outcome ai sched brandProfile fuel st Ha Hf). fold single.
  eexists. split; [reflexivity|].
  assert (N : forall l m, ~ In (Composition.Alert m) (map Composition.Backend l)).
  { intros l m H. apply in_map_iff in H. destruct H as (x & Hx & _). discriminate. }
  split.
  - intros [H|H]; [discriminate|]. apply in_app_or in H. destruct H as [H|H].
    + now apply N in H.
    + destruct (successes single (Composition.quantity st)); [reflexivity | destruct H].
  - intros ->. right. apply in_or_app. right. now left.
Qed.

Lemma merge_replaces_results_witness :
  exists t,
    Composition.handleMerge (sample_backend [1; 2]) (@rev nat) 1 None
      {| Composition.img1 := Some ("QUJD", "@img1");
         Composition.img2 := Some ("RUZH", "@img2");
         Composition.img3 := None;
         Composition.ratio := "1:1";
         Composition.customPrompt := "On a beach";
         Composition.quantity := 4;
         Composition.isProcessing := false;
         Composition.results := ["data:image/png;base64,b2xk"] |}
    = Some ({| Composition.img1 := Some ("QUJD", "@img1");
               Composition.img2 := Some ("RUZH", "@img2");
               Composition.img3 := None;
               Composition.ratio := "1:1";
               Composition.customPrompt := "On a beach";
               Composition.quantity := 4;
               Composition.isProcessing := false;
               Composition.results := ["data:image/png;base64,0";
                                       "data:image/png;base64,3"] |}, t).
Proof.
  assert (F : ceil_div 4 Batch.BATCH_SIZE <= 1) by (vm_compute; lia).
  destruct (merge_replaces_results (sample_backend [1; 2]) (@rev nat) None 1
              {| Composition.img1 := Some ("QUJD", "@img1");
                 Composition.img2 := Some ("RUZH", "@img2");
                 Composition.img3 := None;
                 Composition.ratio := "1:1";
                 Composition.customPrompt := "On a beach";
                 Composition.quantity := 4;
                 Composition.isProcessing := false;
                 Composition.results := ["data:image/png;base64,b2xk"] |}
              ltac:(discriminate) F) as (t & E & _).
  exists t. exact E.
Defined.

Lemma download_names (i : nat) (urls : list string) :
  map (fun d => Composition.download (snd d)) (Composition.schedule_downloads i urls)
  = map (fun j => ("Composition_Result_" ++ of_nat (j + 1) ++ ".png")%string)
        (seq i (List.length urls))
  /\ map (fun d => Composition.href (snd d)) (Composition.schedule_downloads i urls)
     = urls
  /\ map fst (Composition.schedule_downloads i urls)
     = map (fun j => j * 500) (seq i (List.length urls)).
Proof.
  revert i. induction urls as [|u urls IH]; intros i; [repeat split|].
  destruct (IH (S i)) as (I1 & I2 & I3).
  cbn [Composition.schedule_downloads map List.length seq fst snd
       Composition.handleDownload Composition.download Composition.href].
  now rewrite I1, I2, I3.
Qed.

(** X24.  [handleDownloadAll] starts one download per result, in the order
    of the gallery, half a second apart, each under its own file name: no
    two downloads of a run share a name. *)
Theorem downloads_get_distinct_names (st : Composition.State) :
  let ds := Composition.handleDownloadAll st in
  map (fun d => Composition.href (snd d)) ds = Composition.results st
  /\ map fst ds
     = map (fun j => j * 500) (seq 0 (List.length (Composition.results st)))
  /\ NoDup (map (fun d => Composition.download (snd d)) ds).
Proof.
  intros ds. subst ds. unfold Composition.handleDownloadAll.
  destruct (download_names 0 (Composition.results st)) as (H1 & H2 & H3).
  split; [exact H2|]. split; [exact H3|]. rewrite H1.
  apply Finite.Injective_map_NoDup; [|apply seq_NoDup].
  intros i j E. apply append_inj_l in E. apply append_inj_r in E.
  apply of_nat_inj in E. lia.
Qed.

Example download_all :
  Composition.schedule_downloads 0 ["u0"; "u1"; "u2"]
  = [(0, {| Composition.href := "u0";
            Composition.download := "Composition_Result_1.png" |});
     (500, {| Composition.href := "u1";
              Composition.download := "Composition_Result_2.png" |});
     (1000, {| Composition.href := "u2";
               Composition.download := "Composition_Result_3.png" |})].
Proof. reflexivity. Qed.

(* ------------------------------------------------------------------ *)
(** * The concurrency window *)
(* ------------------------------------------------------------------ *)

Lemma sent_app (a b : list Batch.Event) : sent (a ++ b) = sent a + sent b.
Proof. unfold sent. now rewrite filter_app, length_app. Qed.

Lemma done_calls_app (a b : list Batch.Event) :
  done_calls (a ++ b) = done_calls a + done_calls b.
Proof. unfold done_calls. now rewrite filter_app, length_app. Qed.

Lemma sent_group (l : list nat) :
  sent (map Batch.Dispatch l) = List.length l
  /\ sent (map Batch.Settle l) = 0
  /\ done_calls (map Batch.Dispatch l) = 0
  /\ done_calls (map Batch.Settle l) = List.length l.
Proof.
  unfold sent, done_calls.
  induction l as [|i l (I1 & I2 & I3 & I4)]; [repeat split|].
  cbn [map filter List.length]. now rewrite I1, I2, I3, I4.
Qed.

Lemma window_bound (sched : list nat -> list nat) (G : list (list nat)) :
  (forall l, Permutation (sched l) l) ->
  Forall (fun g => List.length g <= Batch.BATCH_SIZE) G ->
  sent (flat_map (group_trace sched) G) = done_calls (flat_map (group_trace sched) G)
  /\ forall p q, flat_map (group_trace sched) G = p ++ q ->
                 done_calls p <= sent p <= done_calls p + Batch.BATCH_SIZE.
Proof.
  intros Hs HG. induction HG as [|g G Hg HG [IHb IH]].
  - split; [reflexivity|]. intros p q E. symmetry in E.
    apply app_eq_nil in E. destruct E as [-> _]. cbn. lia.
  - cbn [flat_map].
    destruct (sent_group g) as (D1 & _ & D3 & _).
    destruct (sent_group (sched g)) as (_ & S2 & _ & S4).
    assert (Hl : List.length (sched g) = List.length g)
      by (apply Permutation_length, Hs).
    assert (Bg : sent (group_trace sched g) = List.length g
                 /\ done_calls (group_trace sched g) = List.length g).
    { unfold group_trace. rewrite sent_app, done_calls_app. lia. }
    destruct Bg as [Bs Bd].
    split; [rewrite sent_app, done_calls_app; lia|].
    intros p q E. apply app_eq_app in E.
    destruct E as (l & [[E1 E2]|[E1 E2]]).
    + (* the prefix ends inside the group *)
      unfold group_trace in E1. apply app_eq_app in E1.
      destruct E1 as (m & [[F1 F2]|[F1 F2]]).
      * (* among the dispatches *)
        assert (Hp : sent p <= List.length g /\ done_calls p = 0).
        { pose proof (f_equal done_calls F1) as X. pose proof (f_equal sent F1) as Y.
          rewrite done_calls_app in X. rewrite sent_app in Y. lia. }
        unfold Batch.BATCH_SIZE in *. lia.
      * (* among the settlements *)
        assert (Hm : done_calls m <= List.length g /\ sent m = 0).
        { pose proof (f_equal done_calls F2) as X. pose proof (f_equal sent F2) as Y.
          rewrite done_calls_app in X. rewrite sent_app in Y. lia. }
        rewrite F1, sent_app, done_calls_app. unfold Batch.BATCH_SIZE in *. lia.
    + (* the prefix goes past the group *)
      specialize (IH l q E2). rewrite E1, sent_app, done_calls_app.
      unfold Batch.BATCH_SIZE in *. lia.
Qed.

(** X25.  At no moment of a run of either generator are more than four
    calls outstanding: along the trace, the calls sent never outnumber the
    calls settled by more than [BATCH_SIZE], and all are settled at the
    end. *)
Theorem at_most_four_calls_in_flight
        (ai : Batch.Backend) (imageBase64 style ratio : string)
        (images : list (string * string)) (promptInstruction : string)
        (brandProfile : option BrandProfile)
        (sched : list nat -> list nat) (quantity fuel : nat) :
  (forall l, Permutation (sched l) l) ->
  ceil_div quantity Batch.BATCH_SIZE <= fuel ->
  (exists r st,
      Batch.generateStudioImage ai imageBase64 style ratio brandProfile
                                sched quantity fuel = Some (r, st)
      /\ sent (Batch.trace st) = done_calls (Batch.trace st)
      /\ forall p q, Batch.trace st = p ++ q ->
                     done_calls p <= sent p <= done_calls p + 4)
  /\ (exists r st,
      Batch.generateCompositeImage ai images promptInstruction ratio brandProfile
                                   sched quantity fuel = Some (r, st)
      /\ sent (Batch.trace st) = done_calls (Batch.trace st)
      /\ forall p q, Batch.trace st = p ++ q ->
                     done_calls p <= sent p <= done_calls p + 4).
Proof.
  intros Hs Hf.
  assert (W := window_bound sched (partition quantity) Hs).
  assert (HG : Forall (fun g => List.length g <= Batch.BATCH_SIZE) (partition quantity)).
  { eapply Forall_impl; [|apply partition_sizes]. cbn. intros g Hg. lia. }
  specialize (W HG). change Batch.BATCH_SIZE with 4 in W at 1.
  split.
  - destruct (run_outcome ai
                (Batch.studio_request imageBase64 style ratio brandProfile)
                sched quantity fuel "No image generated" Hf)
      as (st & E & _ & _ & Ht).
    eexists. exists st. split; [exact E|]. rewrite Ht. exact W.
  - destruct (run_outcome ai
                (Batch.composite_request images promptInstruction ratio brandProfile)
                sched quantity fuel "No composite images generated" Hf)
      as (st & E & _ & _ & Ht).
    eexists. exists st. split; [exact E|]. rewrite Ht. exact W.
Qed.

Lemma at_most_four_calls_in_flight_witness :
  (exists r st,
      Batch.generateStudioImage (sample_backend [1; 2]) "QUJD" "Minimal" "1:1" None
                                (@rev nat) 10 3 = Some (r, st)
      /\ sent (Batch.trace st) = done_calls (Batch.trace st)
      /\ forall p q, Batch.trace st = p ++ q ->
                     done_calls p <= sent p <= done_calls p + 4)
  /\ (exists r st,
      Batch.generateCompositeImage (sample_backend [1; 2]) [("QUJD", "@img1")]
                                   "On a beach" "1:1" None (@rev nat) 10 3
      = Some (r, st)
      /\ sent (Batch.trace st) = done_calls (Batch.trace st)
      /\ forall p q, Batch.trace st = p ++ q ->
                     done_calls p <= sent p <= done_calls p + 4).
Proof.
  apply at_most_four_calls_in_flight.
  - intros l. apply Permutation_sym, Permutation_rev.
  - vm_compute. lia.
Defined.

(* ------------------------------------------------------------------ *)
(** * A key prompt that rejects *)
(* ------------------------------------------------------------------ *)

Section RejectedPrompt.

Import Storyboard.

Variable a : AiStudio.
Variable brandProfile : option BrandProfile.
Variable veo : nat -> string -> string -> string -> option (Completion (option string)).
Variable ratio : string.
Variable validScenes : list VideoGenerationScene.
Variable k : nat.
Variable scene : VideoGenerationScene.
Variable img : UploadedAsset.
Variables e e' : Error.
Hypothesis scene_at_k : nth_error validScenes k = Some scene.
Hypothesis scene_image : image scene = Some img.
Hypothesis job_throws :
  veo k (base64 img) (finalPrompt brandProfile scene) ratio = Some (Throw e).
Hypothesis matches : credential_error e = true.
Hypothesis prompt_rejects : openSelectKey a (FromScene k) = Throw e'.
Hypothesis ids_unique : NoDup (map id validScenes).

Lemma rejecting_callback (st : State) :
  settle_scene (Some a) brandProfile veo ratio k scene st
  = (set_error st (Some advisory),
     [SceneSettled k; OpenSelectKey (FromScene k)], Rejected).
Proof.
  unfold settle_scene. now rewrite scene_image, job_throws, matches, prompt_rejects.
Qed.

Lemma callback_keeps_entries (j : nat) (sj : VideoGenerationScene)
      (st st1 : State) (t1 : list Event) (h : Handler) :
  nth_error validScenes j = Some sj ->
  settle_scene (Some a) brandProfile veo ratio j sj st = (st1, t1, h) ->
  entries (id scene) (generatedVideos st1) = entries (id scene) (generatedVideos st).
Proof.
  intros Hj E. destruct (Nat.eq_dec j k) as [->|Hjk].
  - assert (sj = scene) by congruence. subst sj.
    rewrite rejecting_callback in E. now inversion E.
  - destruct (settle_scene_keeps _ _ _ _ _ _ _ _ _ _ E) as (_ & _ & _ & K).
    apply K. eapply other_scene_id; eauto.
Qed.

Lemma settle_all_after_rejection (order : list nat) :
  forall (st st' : State) (pending r p : bool) (t : list Event),
  settle_all (Some a) brandProfile veo ratio validScenes order st true pending
  = (st', t, r, p) ->
  r = true /\ isGenerating st' = isGenerating st
  /\ entries (id scene) (generatedVideos st')
     = entries (id scene) (generatedVideos st).
Proof.
  induction order as [|j order IH]; intros st st' pending r p t; cbn [settle_all].
  - intros E. inversion E. now subst.
  - destruct (nth_error validScenes j) as [sj|] eqn:Hj; [|apply IH].
    destruct (settle_scene (Some a) brandProfile veo ratio j sj st)
      as [[st1 t1] h] eqn:E1.
    destruct (settle_scene_result _ _ _ _ _ _ _ _ _ _ E1) as (G1 & _).
    pose proof (callback_keeps_entries j sj st st1 t1 h Hj E1) as K1.
    match goal with
    | |- context [settle_all _ _ _ _ _ _ ?s ?x ?y] =>
        destruct (settle_all (Some a) brandProfile veo ratio validScenes order s x y)
          as [[[st3 t3] r3] p3] eqn:E3
    end.
    assert (Hx : match h with Rejected => true | _ => true end = true)
      by now destruct h.
    rewrite Hx in E3. apply IH in E3. destruct E3 as (R & G & K).
    intros E. inversion E. subst.
    split; [reflexivity|]. split.
    + rewrite G. now destruct h.
    + rewrite K. now destruct h.
Qed.

Lemma settle_all_with_rejection (order : list nat) :
  forall (st st' : State) (pending r p : bool) (t : list Event),
  settle_all (Some a) brandProfile veo ratio validScenes order st false pending
  = (st', t, r, p) ->
  In k order ->
  r = true /\ isGenerating st' = false
  /\ entries (id scene) (generatedVideos st')
     = entries (id scene) (generatedVideos st).
Proof.
  induction order as [|j order IH]; intros st st' pending r p t; cbn [settle_all];
    intros E Hin; [destruct Hin|].
  destruct (nth_error validScenes j) as [sj|] eqn:Hj.
  2:{ destruct Hin as [->|Hin]; [congruence | now apply IH in E]. }
  destruct (settle_scene (Some a) brandProfile veo ratio j sj st)
    as [[st1 t1] h] eqn:E1.
  destruct (settle_scene_result _ _ _ _ _ _ _ _ _ _ E1) as (G1 & _).
  pose proof (callback_keeps_entries j sj st st1 t1 h Hj E1) as K1.
  assert (Hk : j = k -> h = Rejected).
  { intros ->. assert (sj = scene) by congruence. subst sj.
    rewrite rejecting_callback in E1. now inversion E1. }
  match type of E with
  | context [settle_all _ _ _ _ _ _ ?s ?x ?y] =>
      destruct (settle_all (Some a) brandProfile veo ratio validScenes order s x y)
        as [[[st3 t3] r3] p3] eqn:E3
  end.
  inversion E. subst. clear E.
  destruct h.
  - destruct Hin as [->|Hin]; [specialize (Hk eq_refl); discriminate|].
    apply IH in E3; [|exact Hin]. destruct E3 as (R & G & K).
    split; [exact R|]. split; [exact G|]. now rewrite K.
  - apply settle_all_after_rejection in E3. destruct E3 as (R & G & K).
    split; [exact R|]. split; [rewrite G; reflexivity|]. now rewrite K.
  - destruct Hin as [->|Hin]; [specialize (Hk eq_refl); discriminate|].
    apply IH in E3; [|exact Hin]. destruct E3 as (R & G & K).
    split; [exact R|]. split; [exact G|]. now rewrite K.
Qed.

End RejectedPrompt.

(** X26.  When the key prompt made by the error handler of a scene itself
    rejects, the handler stops before it marks the scene: in a started run
    (scene identities distinct) the entries of that scene are still
    generating at the end, although the run has ended and cleared its
    generating flag. *)
Theorem rejected_prompt_leaves_scene_generating
        (a : Storyboard.AiStudio) (brandProfile : option BrandProfile)
        (veo : nat -> string -> string -> string -> option (Completion (option string)))
        (order : list nat) (st : Storyboard.State)
        (k : nat) (scene : Storyboard.VideoGenerationScene)
        (img : Storyboard.UploadedAsset) (e e' : Error) :
  let validScenes := filter Storyboard.has_image (Storyboard.scenes st) in
  let r := Storyboard.handleGenerate (Some a) brandProfile veo order st in
  started (Some a) st = true ->
  nth_error validScenes k = Some scene ->
  Storyboard.image scene = Some img ->
  veo k (Storyboard.base64 img) (Storyboard.finalPrompt brandProfile scene)
      (Storyboard.aspectRatio st) = Some (Throw e) ->
  Storyboard.credential_error e = true ->
  Storyboard.openSelectKey a (Storyboard.FromScene k) = Throw e' ->
  NoDup (map Storyboard.id validScenes) ->
  In k order ->
  Storyboard.isGenerating (fst r) = false
  /\ all_status Storyboard.generating (Storyboard.id scene)
                (Storyboard.generatedVideos (fst r))
  /\ entries (Storyboard.id scene) (Storyboard.generatedVideos (fst r)) <> [].
Proof.
  intros validScenes r Hstart Hk Himg Hthrow Hcred Hprompt Hids Hin. subst r.
  unfold started in Hstart. unfold Storyboard.handleGenerate.
  cbn [Storyboard.scenes Storyboard.set_error] in *. fold validScenes in Hstart |- *.
  destruct (List.length validScenes =? 0)%nat; [discriminate|].
  destruct (Storyboard.checkApiKey (Some a)) as [keyReady t0].
  cbn [fst snd negb andb] in *. subst keyReady. cbn [negb].
  match goal with
  | |- context [Storyboard.settle_all _ _ _ ?x ?b ?c ?s ?y ?z] =>
      destruct (Storyboard.settle_all (Some a) brandProfile veo x b c s y z)
        as [[[st2 t2] rejected] pending] eqn:E
  end.
  cbn [Storyboard.aspectRatio Storyboard.set_videos Storyboard.set_generating] in E.
  destruct (settle_all_with_rejection a brandProfile veo (Storyboard.aspectRatio st)
              validScenes k scene img e e' Hk Himg Hthrow Hcred Hprompt Hids
              order _ _ _ _ _ _ E Hin) as (R & G & K).
  subst rejected. cbn [fst].
  cbn [Storyboard.generatedVideos Storyboard.set_videos] in K.
  split; [exact G|].
  assert (Hsc : In scene validScenes) by (eapply nth_error_In; eauto).
  split.
  - apply all_status_entries
      with (ws := map (fun s => {| Storyboard.sceneId := Storyboard.id s;
                                   Storyboard.videoUrl := ""%string;
                                   Storyboard.status := Storyboard.generating |})
                      validScenes);
      [exact K|].
    intros v Hv _. apply in_map_iff in Hv. destruct Hv as (s & <- & _). reflexivity.
  - rewrite K. intros Hnil.
    assert (Hi : In {| Storyboard.sceneId := Storyboard.id scene;
                       Storyboard.videoUrl := ""%string;
                       Storyboard.status := Storyboard.generating |}
                    (entries (Storyboard.id scene)
                       (map (fun s => {| Storyboard.sceneId := Storyboard.id s;
                                         Storyboard.videoUrl := ""%string;
                                         Storyboard.status := Storyboard.generating |})
                            validScenes))).
    { apply filter_In. split; [|apply String.eqb_refl].
      apply in_map_iff. now exists scene. }
    rewrite Hnil in Hi. destruct Hi.
Qed.

Lemma rejected_prompt_leaves_scene_generating_witness :
  let a := {| Storyboard.hasSelectedApiKey := Return true;
              Storyboard.openSelectKey := fun _ => Throw (new_Error "closed") |} in
  let r := Storyboard.handleGenerate (Some a) None sample_jobs [1; 0]
                                     sample_storyboard in
  Storyboard.isGenerating (fst r) = false
  /\ all_status Storyboard.generating (Storyboard.id (sample_scene "1" true))
                (Storyboard.generatedVideos (fst r))
  /\ entries (Storyboard.id (sample_scene "1" true))
             (Storyboard.generatedVideos (fst r)) <> [].
Proof.
  intros a.
  apply (rejected_prompt_leaves_scene_generating a None sample_jobs [1; 0]
           sample_storyboard 0 (sample_scene "1" true)
           {| Storyboard.base64 := "QUJD" |} entity_not_found (new_Error "closed")).
  - reflexivity.
  - reflexivity.
  - reflexivity.
  - reflexivity.
  - reflexivity.
  - reflexivity.
  - cbn. repeat constructor; cbn; intuition discriminate.
  - cbn. auto.
Defined.

(** The run of the witness, computed. *)
Example rejected_prompt_run :
  fst (Storyboard.handleGenerate
         (Some {| Storyboard.hasSelectedApiKey := Return true;
                  Storyboard.openSelectKey := fun _ => Throw (new_Error "closed") |})
         None sample_jobs [1; 0] sample_storyboard)
  = {| Storyboard.scenes := Storyboard.scenes sample_storyboard;
       Storyboard.aspectRatio := "9:16";
       Storyboard.isGenerating := false;
       Storyboard.generatedVideos :=
         [{| Storyboard.sceneId := "1"; Storyboard.videoUrl := "";
             Storyboard.status := Storyboard.generating |};
          {| Storyboard.sceneId := "3";
             Storyboard.videoUrl := "https://video.example/v?alt=media&key=K";
             Storyboard.status := Storyboard.completed |}];
       Storyboard.errorMsg := Some Storyboard.unexpected |}.
Proof. reflexivity. Qed.
